(** * Scorecard point scaling, intercept rebalancing and rounding

    A shallow embedding of [optbinning/scorecard/scorecard.py]: the parameter
    validation ([_check_parameters], [_check_scorecard_scaling]), the two
    numeric helpers ([_compute_scorecard_points], [_compute_intercept_based])
    and the part of [Scorecard._fit] that chains them with the rounding step.

    Numbers are numpy/Python floats taken in exact arithmetic: a value is a
    real number, one of the two infinities, or NaN.  Rounding error, overflow
    and the sign of zero are left out; the special values are kept because the
    code divides by quantities that can be zero and numpy answers such a
    division with an infinity or NaN (and a warning), not with an exception.
    What is proved of the numbers computed is therefore proved of the exact
    values; where rounding changes the kind of a statement, the branch
    concerned is embedded a second time on binary64 values ([Binary64]). *)

From Stdlib Require Import Reals Lra Lia ZArith.
From Stdlib Require Floats.
From stdpp Require Import base option list strings gmap.

Local Open Scope string_scope.

(** ** Exceptions and fallible results *)

Inductive exn :=
| ValueError | TypeError | KeyError | IndexError
| UnboundLocalError | AttributeError | RuntimeError.

Inductive result (A : Type) :=
| Ok (a : A)
| Raise (e : exn).
Arguments Ok {A} a.
Arguments Raise {A} e.

#[global] Instance result_ret : MRet result := fun A a => Ok a.
#[global] Instance result_bind : MBind result := fun A B f m =>
  match m with
  | Ok a => f a
  | Raise e => Raise e
  end.

(** [for x in xs: body(x)] where the body may raise. *)
Fixpoint for_each {A} (body : A -> result unit) (xs : list A) : result unit :=
  match xs with
  | [] => Ok tt
  | x :: xs' => body x ;; for_each body xs'
  end.

(** A list comprehension whose element expression may raise. *)
Fixpoint comprehension {A B} (f : A -> result B) (xs : list A) : result (list B) :=
  match xs with
  | [] => Ok []
  | x :: xs' => y ← f x; ys ← comprehension f xs'; Ok (y :: ys)
  end.

(** ** Floating-point values in exact arithmetic *)

Module NP.

Inductive float64 :=
| fin (x : R)
| pinf
| ninf
| nan.

Definition of_nat (n : nat) : float64 := fin (INR n).

Definition inf (positive : bool) : float64 := if positive then pinf else ninf.

Definition neg (u : float64) : float64 :=
  match u with
  | fin x => fin (- x)
  | pinf => ninf
  | ninf => pinf
  | nan => nan
  end.

Definition add (u v : float64) : float64 :=
  match u, v with
  | nan, _ | _, nan => nan
  | fin x, fin y => fin (x + y)
  | pinf, ninf | ninf, pinf => nan
  | pinf, _ | _, pinf => pinf
  | ninf, _ | _, ninf => ninf
  end.

Definition sub (u v : float64) : float64 := add u (neg v).

(** An infinity times a finite value: NaN at zero, otherwise the product of
    the signs. *)
Definition inf_times (positive : bool) (y : R) : float64 :=
  if Req_dec_T y 0 then nan
  else if Rlt_dec 0 y then inf positive
  else inf (negb positive).

Definition mul (u v : float64) : float64 :=
  match u, v with
  | nan, _ | _, nan => nan
  | fin x, fin y => fin (x * y)
  | pinf, fin y | fin y, pinf => inf_times true y
  | ninf, fin y | fin y, ninf => inf_times false y
  | pinf, pinf | ninf, ninf => pinf
  | pinf, ninf | ninf, pinf => ninf
  end.

(** numpy's true division: a zero divisor gives NaN for [0/0] and a signed
    infinity otherwise (errstate "warn", so nothing is raised). *)
Definition div (u v : float64) : float64 :=
  match u, v with
  | nan, _ | _, nan => nan
  | fin x, fin y =>
      if Req_dec_T y 0 then
        if Req_dec_T x 0 then nan
        else if Rlt_dec 0 x then pinf else ninf
      else fin (x / y)
  | fin _, pinf | fin _, ninf => fin 0
  | pinf, fin y => if Rle_dec 0 y then pinf else ninf
  | ninf, fin y => if Rle_dec 0 y then ninf else pinf
  | _, _ => nan
  end.

(** [np.log] *)
Definition log (u : float64) : float64 :=
  match u with
  | fin x =>
      if Rlt_dec 0 x then fin (ln x)
      else if Req_dec_T x 0 then ninf else nan
  | pinf => pinf
  | ninf | nan => nan
  end.

(** Comparisons; every comparison with NaN is false. *)
Definition ltb (u v : float64) : bool :=
  match u, v with
  | nan, _ | _, nan => false
  | fin x, fin y => if Rlt_dec x y then true else false
  | ninf, ninf | pinf, _ | fin _, ninf => false
  | ninf, _ | fin _, pinf => true
  end.

Definition leb (u v : float64) : bool :=
  match u, v with
  | nan, _ | _, nan => false
  | fin x, fin y => if Rle_dec x y then true else false
  | ninf, _ | _, pinf => true
  | _, _ => false
  end.

(** The integer nearest to a real, ties going to the even neighbour
    (the convention of [np.rint]). *)
Definition nearest_even (x : R) : Z :=
  let f := Int_part x in
  let r := frac_part x in
  if Rlt_dec r (1 / 2) then f
  else if Rlt_dec (1 / 2) r then (f + 1)%Z
  else if Z.even f then f else (f + 1)%Z.

Definition rint (u : float64) : float64 :=
  match u with
  | fin x => fin (IZR (nearest_even x))
  | _ => u
  end.

(** The binary steps of the reductions to a minimum and a maximum: a NaN
    operand wins, otherwise the smaller (larger) one. *)
Definition minimum (u v : float64) : float64 :=
  match u, v with
  | nan, _ | _, nan => nan
  | _, _ => if ltb v u then v else u
  end.

Definition maximum (u v : float64) : float64 :=
  match u, v with
  | nan, _ | _, nan => nan
  | _, _ => if ltb u v then v else u
  end.

(** [np.min] of a one-dimensional array; the empty array has no minimum and
    numpy raises [ValueError]. *)
Definition min (xs : list float64) : result float64 :=
  match xs with
  | [] => Raise ValueError
  | x :: xs' => Ok (foldl minimum x xs')
  end.

(** [np.sum], from the additive identity. *)
Definition sum (xs : list float64) : float64 := foldl add (fin 0) xs.

Definition is_finite (u : float64) : bool :=
  match u with fin _ => true | _ => false end.

End NP.

Abbreviation float64 := NP.float64.

(** ** Python values *)

(** The values a scaling parameter can hold: a real number (an [int],
    [bool], [float] or numpy float, read through its value), a complex
    number, or something that is not a number.  The first two are instances
    of [numbers.Number]; only the first can be ordered. *)
Inductive pyobj :=
| PyNum (v : float64)
| PyComplex (re im : R)
| PyStr (s : string)
| PyNone.

(** [scaling_method_params]: [None] or a [dict] with string keys. *)
Abbreviation dict := (gmap string pyobj).

(** [d[k]] *)
Definition getitem (d : option dict) (k : string) : result pyobj :=
  match d with
  | None => Raise TypeError
  | Some m =>
      match m !! k with
      | Some v => Ok v
      | None => Raise KeyError
      end
  end.

(** [d.keys()] *)
Definition keys (d : option dict) : result (gset string) :=
  match d with
  | None => Raise AttributeError
  | Some m => Ok (dom m)
  end.

(** [isinstance(value, numbers.Number)] *)
Definition is_number (value : pyobj) : bool :=
  match value with PyNum _ | PyComplex _ _ => true | _ => false end.

(** The operand of an ordering comparison ([<=], [>]) with a real number:
    a complex number, a string or [None] makes the comparison raise
    [TypeError]. *)
Definition ordered (value : pyobj) : result float64 :=
  match value with
  | PyNum v => Ok v
  | _ => Raise TypeError
  end.

(** The operand of an arithmetic operator in the scaling: a string or [None]
    makes the operator raise [TypeError].  With a complex parameter Python
    would go on in complex arithmetic, which the values of this development
    do not hold: the scaling is modelled for real parameters, and [number]
    stops at a complex one.  From [_fit] no complex parameter arrives here,
    the validation having raised on it before. *)
Definition number (value : pyobj) : result float64 :=
  match value with
  | PyNum v => Ok v
  | _ => Raise TypeError
  end.

(** A name that may not have been assigned on the path taken. *)
Definition local {A} (x : option A) : result A :=
  match x with
  | Some a => Ok a
  | None => Raise UnboundLocalError
  end.

(** ** Scorecard tables *)

(** The two columns of a binning table or of the scorecard that the numeric
    code reads and writes; a data frame is the list of its rows. *)
Record row := Row { Variable_ : string; Points : float64 }.

(** [df["Points"] = values]: pandas refuses a column of another length. *)
Definition set_Points (df : list row) (values : list float64) : result (list row) :=
  if decide (length values = length df)
  then Ok (zip_with (fun r p => Row (Variable_ r) p) df values)
  else Raise ValueError.

(** [Series.unique()]: the distinct values in order of first appearance. *)
Fixpoint unique (xs : list string) : list string :=
  match xs with
  | [] => []
  | x :: xs' => x :: filter (fun y => y ≠ x) (unique xs')
  end.

(** [df[mask]] for a boolean mask. *)
Fixpoint select {A} (mask : list bool) (xs : list A) : list A :=
  match mask, xs with
  | true :: mask', x :: xs' => x :: select mask' xs'
  | false :: mask', _ :: xs' => select mask' xs'
  | _, _ => []
  end.

(** [arr[mask] = values]: the values go, in order, to the positions where the
    mask holds.  (numpy raises when the counts differ; the only caller passes
    as many values as the mask selects.) *)
Fixpoint assign {A} (mask : list bool) (arr values : list A) : list A :=
  match mask, arr with
  | true :: mask', x :: arr' =>
      match values with
      | v :: values' => v :: assign mask' arr' values'
      | [] => x :: assign mask' arr' []
      end
  | false :: mask', x :: arr' => x :: assign mask' arr' values
  | _, _ => arr
  end.

(** [np.min] and [np.max] of a pandas Series hand over to [Series.min] and
    [Series.max]: missing values (NaN) are skipped, and a Series with no value
    left gives NaN.  Nothing is raised. *)
Definition notna (v : float64) : bool :=
  match v with NP.nan => false | _ => true end.

Definition Series_min (xs : list float64) : float64 :=
  match List.filter notna xs with
  | [] => NP.nan
  | x :: xs' => foldl NP.minimum x xs'
  end.

Definition Series_max (xs : list float64) : float64 :=
  match List.filter notna xs with
  | [] => NP.nan
  | x :: xs' => foldl NP.maximum x xs'
  end.

(** ** Parameter validation *)

(** [_check_parameters], the checks on the scaling options.  The remaining
    checks are [isinstance] tests that the types of this development already
    impose (flags are [bool], parameters are [None] or a [dict]). *)
Definition _check_parameters (scaling_method : option string)
    (scaling_method_params : option dict) : result unit :=
  match scaling_method with
  | Some m =>
      if decide (m ∉ ["pdo_odds"; "min_max"]) then Raise ValueError
      else
        match scaling_method_params with
        | None => Raise ValueError
        | Some _ => Ok tt
        end
  | None => Ok tt
  end.

Definition _check_scorecard_scaling (scaling_method : option string)
    (scaling_method_params : option dict) (target_type : string) : result unit :=
  match scaling_method with
  | None => Ok tt
  | Some m =>
      default_keys ←
        (if decide (m = "pdo_odds") then
           if decide (target_type ≠ "binary") then Raise ValueError
           else Ok (Some ["pdo"; "odds"; "scorecard_points"])
         else if decide (m = "min_max") then Ok (Some ["min"; "max"])
         else Ok None);
      given ← keys scaling_method_params;
      default_keys ← local default_keys;
      if decide (given ≠ list_to_set default_keys) then Raise ValueError
      else if decide (m = "pdo_odds") then
        for_each (fun param =>
          value ← getitem scaling_method_params param;
          if negb (is_number value) then Raise ValueError
          else
            v ← ordered value;
            if NP.leb v (NP.fin 0) then Raise ValueError else Ok tt)
          default_keys
      else if decide (m = "min_max") then
        for_each (fun param =>
          value ← getitem scaling_method_params param;
          if is_number value then Ok tt else Raise ValueError) default_keys;;
        lo ← getitem scaling_method_params "min";
        hi ← getitem scaling_method_params "max";
        lo ← ordered lo;
        hi ← ordered hi;
        if NP.ltb hi lo then Raise ValueError else Ok tt
      else Ok tt
  end.

(** ** Scaling *)

(** [points] is the "Points" column of the scorecard and [binning_tables]
    the list of per-variable tables, whose "Points" columns are pandas
    Series.  A parameter is read from the dictionary first and turned into a
    number where the arithmetic first needs it.  The sums of minima and
    maxima are numpy scalars, so the division by [smax - smin] is numpy's.
    The count [n] is a Python [int]: it is at least 1 whenever [_fit] calls
    the function (with no table and an intercept that is a plain Python
    number, [intercept / n] would raise instead of giving an infinity or
    NaN). *)
Definition _compute_scorecard_points (points : list float64)
    (binning_tables : list (list row)) (method : string)
    (method_data : option dict) (intercept : float64)
    (reverse_scorecard : bool) : result (list float64) :=
  let n := NP.of_nat (length binning_tables) in
  let sense := if reverse_scorecard then NP.fin (-1) else NP.fin 1 in
  if decide (method = "pdo_odds") then
    pdo ← getitem method_data "pdo";
    odds ← getitem method_data "odds";
    scorecard_points ← getitem method_data "scorecard_points";
    pdo ← number pdo;
    odds ← number odds;
    scorecard_points ← number scorecard_points;
    let factor := NP.div pdo (NP.log (NP.fin 2)) in
    let offset := NP.sub scorecard_points (NP.mul factor (NP.log odds)) in
    Ok (map (fun p =>
               NP.add
                 (NP.mul (NP.neg (NP.add (NP.mul sense p) (NP.div intercept n)))
                         factor)
                 (NP.div offset n)) points)
  else if decide (method = "min_max") then
    a ← getitem method_data "min";
    b ← getitem method_data "max";
    let min_p :=
      NP.sum (map (fun bt => Series_min (map Points bt)) binning_tables) in
    let max_p :=
      NP.sum (map (fun bt => Series_max (map Points bt)) binning_tables) in
    let smin := NP.add intercept min_p in
    let smax := NP.add intercept max_p in
    a ← number a;
    b ← number b;
    let slope := NP.div (NP.mul sense (NP.sub a b)) (NP.sub smax smin) in
    let shift :=
      if reverse_scorecard then NP.sub a (NP.mul slope smin)
      else NP.sub b (NP.mul slope smin) in
    let base_points := NP.add shift (NP.mul slope intercept) in
    Ok (map (fun p => NP.add (NP.div base_points n) (NP.mul slope p)) points)
  else Raise UnboundLocalError.

(** ** Intercept-based scorecard *)

(** The body of the loop over [selected_variables], threading the two
    variables it updates. *)
Fixpoint intercept_based_loop (df_scorecard : list row)
    (selected_variables : list string)
    (scaled_points : list float64) (intercept : float64)
    : result (list float64 * float64) :=
  match selected_variables with
  | [] => Ok (scaled_points, intercept)
  | variable :: rest =>
      let mask := map (fun r => bool_decide (Variable_ r = variable)) df_scorecard in
      let points := map Points (select mask df_scorecard) in
      min_point ← NP.min points;
      let scaled_points :=
        assign mask scaled_points (map (fun p => NP.sub p min_point) points) in
      let intercept := NP.add intercept min_point in
      intercept_based_loop df_scorecard rest scaled_points intercept
  end.

Definition _compute_intercept_based (df_scorecard : list row)
    : result (list float64 * float64) :=
  let scaled_points := replicate (length df_scorecard) (NP.fin 0) in
  let selected_variables := unique (map Variable_ df_scorecard) in
  intercept_based_loop df_scorecard selected_variables scaled_points (NP.fin 0).

(** ** The fit pipeline *)

(** The rounding optimiser of [optbinning.scorecard.rounding], seen through
    the two calls [_fit] makes: [build_model(df_scorecard)] and [solve()],
    which returns a status string and the rounded points. *)
Class RoundingMIP := {
  mip_model : Type;
  build_model : list row -> mip_model;
  solve : mip_model -> string * list float64
}.

(** The constructor arguments of [Scorecard] that the pipeline reads. *)
Record Scorecard := {
  scaling_method : option string;
  scaling_method_params : option dict;
  intercept_based : bool;
  reverse_scorecard : bool;
  rounding : bool;
  verbose : bool
}.

(** The attributes [_fit] leaves on the object. *)
Record fitted := {
  _df_scorecard : list row;
  intercept_ : float64
}.

(** [__init__] sets [intercept_ = 0].  [_fit] assigns the attribute in the
    intercept-based branch only: on every other path the object keeps the
    value it had when [_fit] was called, 0 on a new object and otherwise what
    an earlier fit has left. *)
Definition new_intercept_ : float64 := NP.fin 0.

(** The loop that builds one table per selected variable: the name, and the
    points as statistic times coefficient.  Each selected variable comes with
    the statistic column (WoE or mean) of its binning table. *)
Fixpoint build_binning_tables (i : nat)
    (selected_variables : list (string * list float64))
    (coefs : list float64) : result (list (list row)) :=
  match selected_variables with
  | [] => Ok []
  | (variable, bt_metric) :: rest =>
      c ← match coefs !! i with Some c => Ok c | None => Raise IndexError end;
      let binning_table := map (fun s => Row variable (NP.mul s c)) bt_metric in
      binning_tables ← build_binning_tables (S i) rest coefs;
      Ok (binning_table :: binning_tables)
  end.

(** [pd.concat]: raises on an empty list of tables. *)
Definition pd_concat (tables : list (list row)) : result (list row) :=
  match tables with
  | [] => Raise ValueError
  | _ => Ok (concat tables)
  end.

(** "Apply score points": scaling, then the intercept-based form, which sits
    inside the branch taken when a scaling method is set.  [intercept_] is
    the attribute of the object as [_fit] found it; the result carries the
    table and the attribute as this step leaves it. *)
Definition _fit_apply_score_points (self : Scorecard) (intercept_ : float64)
    (binning_tables : list (list row)) (df_scorecard : list row)
    (intercept : float64) : result (list row * float64) :=
  match scaling_method self with
  | Some method =>
      let points := map Points df_scorecard in
      scaled_points ← _compute_scorecard_points points binning_tables method
                        (scaling_method_params self) intercept
                        (reverse_scorecard self);
      df_scorecard ← set_Points df_scorecard scaled_points;
      if intercept_based self then
        '(scaled_points, intercept_) ← _compute_intercept_based df_scorecard;
        df_scorecard ← set_Points df_scorecard scaled_points;
        Ok (df_scorecard, intercept_)
      else Ok (df_scorecard, intercept_)
  | None => Ok (df_scorecard, intercept_)
  end.

(** The rounding step.  [round_points] is assigned in the two branches only;
    with no scaling method it is read unassigned. *)
Definition _fit_rounding `{RoundingMIP} (self : Scorecard)
    (df_scorecard : list row) : result (list row) :=
  if rounding self then
    let points := map Points df_scorecard in
    let round_points :=
      if decide (scaling_method self = Some "pdo_odds") then
        Some (map NP.rint points)
      else if decide (scaling_method self = Some "min_max") then
        let round_mip := build_model df_scorecard in
        let '(status, round_points) := solve round_mip in
        if decide (status ∉ ["OPTIMAL"; "FEASIBLE"]) then
          (* Back-up method *)
          Some (map NP.rint points)
        else Some round_points
      else None in
    round_points ← local round_points;
    set_Points df_scorecard round_points
  else Ok df_scorecard.

(** [Scorecard._fit], from the parameter checks on.  The binning process and
    the estimator are fitted outside; what they produce comes in as
    arguments: the target type, the selected variables with their statistic
    columns, and the estimator's [coef_] and [intercept_] attributes when it
    has them.  [intercept_] is the attribute of the scorecard itself when
    [_fit] is called.  The first definition runs [_fit] up to the scaled
    scorecard (the table and the value of [intercept_]); [_fit] then
    rounds. *)
Definition _fit_scorecard_table (self : Scorecard) (intercept_ : float64)
    (_target_dtype : string)
    (selected_variables : list (string * list float64))
    (coef_ : option (list float64)) (estimator_intercept_ : option float64)
    : result (list row * float64) :=
  _check_parameters (scaling_method self) (scaling_method_params self);;
  (if decide (_target_dtype ∉ ["binary"; "continuous"])
   then Raise ValueError else Ok tt);;
  _check_scorecard_scaling (scaling_method self) (scaling_method_params self)
    _target_dtype;;
  coefs ← match coef_ with Some c => Ok c | None => Raise RuntimeError end;
  let intercept := default (NP.fin 0) estimator_intercept_ in
  binning_tables ← build_binning_tables 0 selected_variables coefs;
  df_scorecard ← pd_concat binning_tables;
  _fit_apply_score_points self intercept_ binning_tables df_scorecard intercept.

Definition _fit `{RoundingMIP} (self : Scorecard) (intercept_ : float64)
    (_target_dtype : string)
    (selected_variables : list (string * list float64))
    (coef_ : option (list float64)) (estimator_intercept_ : option float64)
    : result fitted :=
  '(df_scorecard, intercept_) ←
    _fit_scorecard_table self intercept_ _target_dtype selected_variables coef_
      estimator_intercept_;
  df_scorecard ← _fit_rounding self df_scorecard;
  Ok {| _df_scorecard := df_scorecard; intercept_ := intercept_ |}.

(** ** Vocabulary of the statements *)

(** Tables whose points are real numbers. *)
Definition real_row (r : string * R) : row := Row r.1 (NP.fin r.2).
Definition real_df (t : list (string * R)) : list row := map real_row t.

(** The parameter dictionaries of the two scaling methods. *)
Definition pdo_odds_params (pdo odds scorecard_points : pyobj) : dict :=
  {[ "pdo" := pdo; "odds" := odds; "scorecard_points" := scorecard_points ]}.

Definition min_max_params (lo hi : pyobj) : dict :=
  {[ "min" := lo; "max" := hi ]}.

(** The smallest and the largest total an observation can reach: one bin per
    variable, the per-variable minima (maxima) summed, as the scaling computes
    them from the "Points" columns.  (As a [result], like every value the
    code computes; these two never raise.) *)
Definition total_min (tables : list (list float64)) : result float64 :=
  Ok (NP.sum (map Series_min tables)).

Definition total_max (tables : list (list float64)) : result float64 :=
  Ok (NP.sum (map Series_max tables)).

(** The points of the rows of one variable. *)
Definition group (df : list row) (v : string) : list float64 :=
  map Points (filter (fun r => Variable_ r = v) df).

(** The minimum of a variable's points, NaN standing in when the variable
    has no row. *)
Definition group_min (df : list row) (v : string) : float64 :=
  match NP.min (group df v) with
  | Ok m => m
  | Raise _ => NP.nan
  end.

Definition Rsum (xs : list R) : R := foldr Rplus 0%R xs.

(** Minimum and maximum of a non-empty list of reals. *)
Definition Rmin_list (xs : list R) : R :=
  match xs with
  | [] => 0%R
  | x :: xs' => foldl Rmin x xs'
  end.

Definition Rmax_list (xs : list R) : R :=
  match xs with
  | [] => 0%R
  | x :: xs' => foldl Rmax x xs'
  end.

(** The points of one variable in a real table, and their minimum. *)
Definition real_group (t : list (string * R)) (v : string) : list R :=
  map snd (filter (fun r => r.1 = v) t).

Definition real_group_min (t : list (string * R)) (v : string) : R :=
  Rmin_list (real_group t v).

(** The slope and the per-variable constant of the "min_max" transform, as
    the code computes them from the configured bounds [a], [b], the score
    range [smin], [smax], the model intercept and the number of variables. *)
Definition min_max_slope (reverse_scorecard : bool) (a b smin smax : R) : R :=
  ((if reverse_scorecard then -1 else 1) * (a - b) / (smax - smin))%R.

Definition min_max_base (reverse_scorecard : bool) (a b smin smax intercept : R) : R :=
  let slope := min_max_slope reverse_scorecard a b smin smax in
  ((if reverse_scorecard then a else b) - slope * smin + slope * intercept)%R.

(** A scaling configuration with real parameters: the method tag and the
    parameter dictionary it stands for. *)
Inductive scaling :=
| PdoOdds (pdo odds scorecard_points : R)
| MinMax (a b : R).

Definition method_of (s : scaling) : string :=
  match s with
  | PdoOdds _ _ _ => "pdo_odds"
  | MinMax _ _ => "min_max"
  end.

Definition params_of (s : scaling) : dict :=
  match s with
  | PdoOdds pdo odds scorecard_points =>
      pdo_odds_params (PyNum (NP.fin pdo)) (PyNum (NP.fin odds))
        (PyNum (NP.fin scorecard_points))
  | MinMax a b => min_max_params (PyNum (NP.fin a)) (PyNum (NP.fin b))
  end.

(** Valid parameters on which the transform is not degenerate: a positive
    [pdo] and positive reference odds over at least one variable, or bounds
    [a < b] over a score range [smin < smax]. *)
Definition nondegenerate (s : scaling) (binning_tables : list (list row))
    (intercept : R) : Prop :=
  match s with
  | PdoOdds pdo odds _ => (0 < pdo)%R /\ (0 < odds)%R /\ binning_tables <> []
  | MinMax a b =>
      (a < b)%R /\
      exists min_p max_p : R,
        total_min (map (map Points) binning_tables) = Ok (NP.fin min_p) /\
        total_max (map (map Points) binning_tables) = Ok (NP.fin max_p) /\
        (intercept + min_p < intercept + max_p)%R
  end.

(** The error conditions of the validation as the specification lists them:
    wrong key set, a "pdo_odds" value that is not a strictly positive number,
    [min > max], or "pdo_odds" with a target that is not binary. *)
Definition strictly_positive (d : dict) (k : string) : Prop :=
  match d !! k with
  | Some (PyNum (NP.fin x)) => (0 < x)%R
  | Some (PyNum NP.pinf) => True
  | _ => False
  end.

Definition min_above_max (d : dict) : bool :=
  match d !! "min", d !! "max" with
  | Some (PyNum lo), Some (PyNum hi) => NP.ltb hi lo
  | _, _ => false
  end.

Definition claimed_scaling_error (m : option string) (d : dict) (target : string)
    : Prop :=
  match m with
  | None => False
  | Some s =>
      (s = "pdo_odds" /\
       (target ≠ "binary"
        \/ dom d ≠ list_to_set ["pdo"; "odds"; "scorecard_points"]
        \/ ~ strictly_positive d "pdo" \/ ~ strictly_positive d "odds"
        \/ ~ strictly_positive d "scorecard_points"))
      \/ (s = "min_max" /\
          (dom d ≠ list_to_set ["min"; "max"] \/ min_above_max d))
  end.

(** The conditions under which the code rejects the options: those listed,
    and a bound of "min_max" that is not a number. *)
Definition not_numeric (d : dict) (k : string) : bool :=
  match d !! k with
  | Some v => negb (is_number v)
  | None => true
  end.

Definition scaling_error (m : option string) (d : dict) (target : string) : Prop :=
  claimed_scaling_error m d target
  \/ (m = Some "min_max" /\ (not_numeric d "min" \/ not_numeric d "max")).

(** Parameter dictionaries by the kind of their values: every value is a
    real number other than NaN or is not a number; some value is a complex
    number. *)
Definition real_value (v : pyobj) : bool :=
  match v with
  | PyNum NP.nan | PyComplex _ _ => false
  | _ => true
  end.

Definition real_values (d : dict) : Prop :=
  forall k v, d !! k = Some v -> real_value v = true.

Definition has_complex (d : dict) : Prop :=
  exists k re im, d !! k = Some (PyComplex re im).

(** [q] is [p] rounded to the nearest integer, a tie between two integers
    going to the even one; an infinity or NaN is left as it is. *)
Definition nearest_integer (p q : float64) : Prop :=
  match p with
  | NP.fin x =>
      exists z : Z,
        q = NP.fin (IZR z)
        /\ (Rabs (IZR z - x) <= 1 / 2)%R
        /\ ((Rabs (IZR z - x) = 1 / 2)%R -> Z.even z = true)
  | _ => q = p
  end.

(** Sample configurations: no scaling with rounding, no scaling with the
    intercept-based form, and min/max scaling onto [0, 100] with rounding. *)
Definition raw_rounded : Scorecard :=
  {| scaling_method := None; scaling_method_params := None;
     intercept_based := false; reverse_scorecard := false;
     rounding := true; verbose := false |}.

Definition raw_intercept_based : Scorecard :=
  {| scaling_method := None; scaling_method_params := None;
     intercept_based := true; reverse_scorecard := false;
     rounding := false; verbose := false |}.

Definition min_max_rounded : Scorecard :=
  {| scaling_method := Some "min_max";
     scaling_method_params :=
       Some (min_max_params (PyNum (NP.fin 0)) (PyNum (NP.fin 100)));
     intercept_based := false; reverse_scorecard := false;
     rounding := true; verbose := false |}.

(** An optimiser that never finds a solution. *)
Definition failing_mip : RoundingMIP :=
  {| mip_model := unit;
     build_model := fun _ => tt;
     solve := fun _ => ("INFEASIBLE", []) |}.

(** ** Methods of the fitted object *)

(** What a public method does: it returns, finds the object not fitted
    ([_check_is_fitted]), or raises something else. *)
Inductive outcome (A : Type) :=
| Returned (a : A)
| NotFittedError
| Failed (e : exn).
Arguments Returned {A} a.
Arguments NotFittedError {A}.
Arguments Failed {A} e.

(** The object is [None] until a [_fit] has completed ([_is_fitted] is set
    last) and holds the fitted attributes afterwards.  A method first calls
    [_check_is_fitted] and then runs its body. *)
Definition when_fitted {A} (self : option fitted) (body : fitted -> result A)
    : outcome A :=
  match self with
  | None => NotFittedError
  | Some f =>
      match body f with
      | Ok a => Returned a
      | Raise e => Failed e
      end
  end.

(** The frame the binning process returns for [metric="indices"]: for each
    variable the column of the bin index of every sample; [shape0] is the
    number of samples and every column has that many entries. *)
Record indices_frame := {
  shape0 : nat;
  columns : gmap string (list Z)
}.

Definition frame_wf (df_t : indices_frame) : Prop :=
  forall v c, columns df_t !! v = Some c -> length c = shape0 df_t.

(** [points[i]] for an integer of an index array: numpy counts a negative
    index from the end and raises outside [-len, len). *)
Definition take_one (points : list float64) (i : Z) : result float64 :=
  let len := Z.of_nat (length points) in
  if decide (- len <= i < len)%Z then
    match points !! Z.to_nat (if decide (i < 0)%Z then i + len else i) with
    | Some p => Ok p
    | None => Raise IndexError
    end
  else Raise IndexError.

(** [points[indices]] *)
Definition take (points : list float64) (indices : list Z)
    : result (list float64) :=
  comprehension (take_one points) indices.

(** [score_ += values]: element by element; a single value is broadcast;
    other shapes do not fit the array on the left. *)
Definition iadd (score_ values : list float64) : result (list float64) :=
  match values with
  | [v] => Ok (map (fun s => NP.add s v) score_)
  | _ =>
      if decide (length values = length score_)
      then Ok (zip_with NP.add score_ values)
      else Raise ValueError
  end.

(** The loop of [score] over the selected variables. *)
Fixpoint score_loop (df_scorecard : list row) (selected_variables : list string)
    (df_t : indices_frame) (score_ : list float64) : result (list float64) :=
  match selected_variables with
  | [] => Ok score_
  | variable :: rest =>
      let mask := map (fun r => bool_decide (Variable_ r = variable)) df_scorecard in
      let points := map Points (select mask df_scorecard) in
      column ← match columns df_t !! variable with
               | Some c => Ok c
               | None => Raise KeyError
               end;
      values ← take points column;
      score_ ← iadd score_ values;
      score_loop df_scorecard rest df_t score_
  end.

(** [Scorecard.score].  The transformed frame and the names of the selected
    variables come from the fitted binning process. *)
Definition score (self : option fitted) (selected_variables : list string)
    (df_t : indices_frame) : outcome (list float64) :=
  when_fitted self (fun f =>
    let score_ := replicate (shape0 df_t) (NP.fin 0) in
    score_ ← score_loop (_df_scorecard f) selected_variables df_t score_;
    Ok (map (fun s => NP.add s (intercept_ f)) score_)).

(** [Scorecard.table], through the column names of the frame returned.
    [df_columns] are the columns of [_df_scorecard]; selecting a column
    that is not there raises [KeyError]. *)
Definition table (self : option fitted) (df_columns : list string)
    (style : string) : outcome (list string) :=
  when_fitted self (fun _ =>
    if decide (style ∉ ["summary"; "detailed"]) then Raise ValueError
    else
      let columns :=
        if decide (style = "summary") then ["Variable"; "Bin"; "Points"]
        else
          let main_columns := ["Variable"; "Bin id"; "Bin"] in
          let rest_columns :=
            filter (fun col => col ∉ main_columns) df_columns in
          (main_columns ++ rest_columns)%list in
      if decide (Forall (fun col => col ∈ df_columns) columns)
      then Ok columns else Raise KeyError).

(** Real counterparts used to state and prove facts about [score]. *)
Definition take_one_real (points : list R) (i : Z) : result R :=
  let len := Z.of_nat (length points) in
  if decide (- len <= i < len)%Z then
    match points !! Z.to_nat (if decide (i < 0)%Z then i + len else i) with
    | Some p => Ok p
    | None => Raise IndexError
    end
  else Raise IndexError.

Definition iadd_real (score_ values : list R) : result (list R) :=
  match values with
  | [v] => Ok (map (fun s => (s + v)%R) score_)
  | _ =>
      if decide (length values = length score_)
      then Ok (zip_with Rplus score_ values)
      else Raise ValueError
  end.

Fixpoint score_loop_real (t : list (string * R)) (selected_variables : list string)
    (df_t : indices_frame) (score_ : list R) : result (list R) :=
  match selected_variables with
  | [] => Ok score_
  | variable :: rest =>
      column ← match columns df_t !! variable with
               | Some c => Ok c
               | None => Raise KeyError
               end;
      values ← comprehension (take_one_real (real_group t variable)) column;
      score_ ← iadd_real score_ values;
      score_loop_real t rest df_t score_
  end.

(** The largest point of a variable in a real table. *)
Definition real_group_max (t : list (string * R)) (v : string) : R :=
  Rmax_list (real_group t v).

(** Binning tables given as a name and a column of real points each; their
    rows, and the rows of their concatenation. *)
Definition variable_rows (vt : string * list R) : list (string * R) :=
  map (pair vt.1) vt.2.

Definition stacked (named : list (string * list R)) : list (string * R) :=
  concat (map variable_rows named).

(** [f <$> m] for results. *)
Definition result_map {A B} (f : A -> B) (m : result A) : result B :=
  match m with
  | Ok a => Ok (f a)
  | Raise e => Raise e
  end.

(** What the fitted binning process and estimator hand to [_fit] when all
    numbers are real: the statistic columns, and the points they give under
    real coefficients. *)
Definition real_variables (metrics : list (string * list R))
    : list (string * list float64) :=
  map (fun vt => (vt.1, map NP.fin vt.2)) metrics.

Definition weighted (metrics : list (string * list R)) (ks : list R)
    : list (string * list R) :=
  zip_with (fun vt k => (vt.1, map (fun s => (s * k)%R) vt.2)) metrics ks.

(** An index numpy accepts for an array of [n] entries. *)
Definition index_ok (n : nat) (i : Z) : Prop :=
  (- Z.of_nat n <= i < Z.of_nat n)%Z.

(** The columns of the selected variables whose indices all fit the number
    of rows the scorecard has for the variable. *)
Definition indices_ok (df_scorecard : list row) (df_t : indices_frame)
    (variable : string) : Prop :=
  exists column,
    columns df_t !! variable = Some column
    /\ Forall (index_ok (length (group df_scorecard variable))) column.

(** The points sample [j] collects for one variable in a real table: the
    entry of the variable's points at the sample's index. *)
Definition sample_points (t : list (string * R)) (df_t : indices_frame)
    (j : nat) (variable : string) : option R :=
  match columns df_t !! variable with
  | Some column =>
      match column !! j with
      | Some i =>
          match take_one_real (real_group t variable) i with
          | Ok p => Some p
          | Raise _ => None
          end
      | None => None
      end
  | None => None
  end.

(** A frame with one sample and one column, and a "min_max" scorecard with
    bounds 0 and 100 that is not rounded. *)
Definition one_sample (variable : string) (i : Z) : indices_frame :=
  {| shape0 := 1; columns := {[ variable := [i] ]} |}.

Definition min_max_plain (intercept_based : bool) : Scorecard :=
  {| scaling_method := Some "min_max";
     scaling_method_params :=
       Some (min_max_params (PyNum (NP.fin 0)) (PyNum (NP.fin 100)));
     intercept_based := intercept_based; reverse_scorecard := false;
     rounding := false; verbose := false |}.

(** ** Binary64 arithmetic *)

(** The "min_max" branch of [_compute_scorecard_points] once more, on IEEE 754
    binary64 values with their rounding, for bounds and an intercept that are
    floats; [binning_tables] holds the "Points" column of each table.
    [np.sum] adds from left to right starting at 0, which is numpy's order for
    fewer than eight terms. *)
Module Binary64.
Import PrimFloat.
Local Open Scope float_scope.

Definition notna (v : float) : bool := (v =? v).

Definition minimum (u v : float) : float := if v <? u then v else u.

Definition maximum (u v : float) : float := if u <? v then v else u.

Definition Series_min (xs : list float) : float :=
  match List.filter notna xs with
  | [] => nan
  | x :: xs' => foldl minimum x xs'
  end.

Definition Series_max (xs : list float) : float :=
  match List.filter notna xs with
  | [] => nan
  | x :: xs' => foldl maximum x xs'
  end.

Definition sum (xs : list float) : float := foldl add 0 xs.

Definition of_nat (n : nat) : float := of_uint63 (Uint63.of_Z (Z.of_nat n)).

Definition min_max_points (points : list float)
    (binning_tables : list (list float)) (a b intercept : float)
    (reverse_scorecard : bool) : list float :=
  let n := of_nat (length binning_tables) in
  let sense := if reverse_scorecard then -1 else 1 in
  let min_p := sum (map Series_min binning_tables) in
  let max_p := sum (map Series_max binning_tables) in
  let smin := intercept + min_p in
  let smax := intercept + max_p in
  let slope := sense * (a - b) / (smax - smin) in
  let shift :=
    if reverse_scorecard then a - slope * smin else b - slope * smin in
  let base_points := shift + slope * intercept in
  map (fun p => base_points / n + slope * p) points.

End Binary64.

(** * Properties *)

(** ** Finite arithmetic

    On real operands the operations are the real ones, as long as no
    divisor is zero and no logarithm is taken outside the positive reals. *)

Section finite_arithmetic.
Local Open Scope R_scope.
Import NP.

Lemma div_fin (x y : R) : y <> 0 -> div (fin x) (fin y) = fin (x / y).
Proof. intros Hy. simpl. destruct (Req_dec_T y 0); [contradiction | reflexivity]. Qed.

Lemma log_fin (x : R) : 0 < x -> log (fin x) = fin (ln x).
Proof. intros Hx. simpl. destruct (Rlt_dec 0 x); [reflexivity | contradiction]. Qed.

Lemma ln_2_pos : 0 < ln 2.
Proof. pose proof ln_lt_2. lra. Qed.

Lemma INR_length_pos {A} (xs : list A) : xs <> [] -> 0 < INR (length xs).
Proof.
  destruct xs as [|x xs]; [congruence | intros _].
  apply lt_0_INR. simpl. lia.
Qed.


Lemma ltb_fin_false (x y : R) : y <= x -> ltb (fin x) (fin y) = false.
Proof. intros H. simpl. destruct (Rlt_dec x y); [lra | reflexivity]. Qed.



Lemma minimum_fin (x y : R) : minimum (fin x) (fin y) = fin (Rmin x y).
Proof.
  unfold minimum, Rmin. simpl.
  destruct (Rlt_dec y x), (Rle_dec x y); try reflexivity; f_equal; lra.
Qed.

Lemma maximum_fin (x y : R) : maximum (fin x) (fin y) = fin (Rmax x y).
Proof.
  unfold maximum, Rmax. simpl.
  destruct (Rlt_dec x y), (Rle_dec x y); try reflexivity; f_equal; lra.
Qed.

Lemma foldl_minimum_fin (x : R) (xs : list R) :
  foldl minimum (fin x) (map fin xs) = fin (foldl Rmin x xs).
Proof.
  revert x. induction xs as [|y xs IH]; intros x; simpl; [reflexivity|].
  rewrite <- IH. f_equal. apply minimum_fin.
Qed.

Lemma foldl_maximum_fin (x : R) (xs : list R) :
  foldl maximum (fin x) (map fin xs) = fin (foldl Rmax x xs).
Proof.
  revert x. induction xs as [|y xs IH]; intros x; simpl; [reflexivity|].
  rewrite <- IH. f_equal. apply maximum_fin.
Qed.


Lemma foldl_add_fin (a : R) (xs : list R) :
  foldl add (fin a) (map fin xs) = fin (a + Rsum xs).
Proof.
  revert a. induction xs as [|x xs IH]; intros a; simpl.
  - f_equal. lra.
  - rewrite IH. f_equal. lra.
Qed.

Lemma sum_fin (xs : list R) : sum (map fin xs) = fin (Rsum xs).
Proof. unfold sum. rewrite foldl_add_fin. f_equal. lra. Qed.

(** A NaN term makes the sum NaN. *)
Lemma add_nan_r (u : float64) : add u nan = nan.
Proof. by destruct u. Qed.

Lemma foldl_add_nan (xs : list float64) : foldl add nan xs = nan.
Proof. induction xs as [|x xs IH]; [reflexivity | exact IH]. Qed.

Lemma foldl_add_absorbs (x : float64) (xs : list float64) :
  In nan xs -> foldl add x xs = nan.
Proof.
  revert x. induction xs as [|y xs IH]; intros x; cbn [foldl]; [intros []|].
  intros [->|Hin]; [|by apply IH].
  rewrite add_nan_r. apply foldl_add_nan.
Qed.

(** [rint] on a real is an integer at distance at most 1/2. *)
Lemma nearest_even_nearest (x : R) : Rabs (IZR (nearest_even x) - x) <= 1 / 2.
Proof.
  unfold nearest_even.
  destruct (base_fp x) as [Hge Hlt]. unfold frac_part in *.
  destruct (Rlt_dec _ _) as [Hr|Hr].
  - apply Rabs_le. lra.
  - destruct (Rlt_dec _ _) as [Hr'|Hr'].
    + rewrite plus_IZR. apply Rabs_le. lra.
    + destruct (Z.even (Int_part x)); [|rewrite plus_IZR]; apply Rabs_le; lra.
Qed.

(** On a tie [rint] takes the even neighbour. *)
Lemma nearest_even_tie (x : R) :
  Rabs (IZR (nearest_even x) - x) = 1 / 2 -> Z.even (nearest_even x) = true.
Proof.
  unfold nearest_even.
  destruct (base_fp x) as [Hge Hlt]. unfold frac_part in *.
  destruct (Rlt_dec _ _) as [Hr|Hr].
  - intros Htie. rewrite Rabs_left1 in Htie by lra. lra.
  - destruct (Rlt_dec _ _) as [Hr'|Hr'].
    + rewrite plus_IZR. intros Htie. rewrite Rabs_right in Htie by lra. lra.
    + intros _. destruct (Z.even (Int_part x)) eqn:He; [exact He|].
      rewrite Z.add_1_r, Z.even_succ, <- Z.negb_even, He. reflexivity.
Qed.

Lemma rint_nearest (p : float64) : nearest_integer p (rint p).
Proof.
  destruct p as [x| | |]; cbn [nearest_integer rint]; try reflexivity.
  exists (nearest_even x).
  split; [reflexivity|]. split; [apply nearest_even_nearest|].
  apply nearest_even_tie.
Qed.

End finite_arithmetic.

(** ** Parameter dictionaries *)

Lemma getitem_pdo pdo odds sp : getitem (Some (pdo_odds_params pdo odds sp)) "pdo" = Ok pdo.
Proof. reflexivity. Qed.

Lemma getitem_odds pdo odds sp : getitem (Some (pdo_odds_params pdo odds sp)) "odds" = Ok odds.
Proof. reflexivity. Qed.

Lemma getitem_scorecard_points pdo odds sp :
  getitem (Some (pdo_odds_params pdo odds sp)) "scorecard_points" = Ok sp.
Proof. reflexivity. Qed.

Lemma getitem_min lo hi : getitem (Some (min_max_params lo hi)) "min" = Ok lo.
Proof. reflexivity. Qed.

Lemma getitem_max lo hi : getitem (Some (min_max_params lo hi)) "max" = Ok hi.
Proof. reflexivity. Qed.

(** ** Odds-based scaling *)

Section pdo_odds.
Local Open Scope R_scope.
Import NP.

(** The "pdo_odds" branch once the three parameters have been read. *)
Lemma pdo_odds_branch (points : list float64) (binning_tables : list (list row))
    (pdo odds scorecard_points intercept : float64) (reverse_scorecard : bool) :
  _compute_scorecard_points points binning_tables "pdo_odds"
    (Some (pdo_odds_params (PyNum pdo) (PyNum odds) (PyNum scorecard_points)))
    intercept reverse_scorecard
  = let n := of_nat (length binning_tables) in
    let sense := if reverse_scorecard then fin (-1) else fin 1 in
    let factor := div pdo (log (fin 2)) in
    let offset := sub scorecard_points (mul factor (log odds)) in
    Ok (map (fun p =>
               add (mul (neg (add (mul sense p) (div intercept n))) factor)
                   (div offset n)) points).
Proof.
  unfold _compute_scorecard_points.
  rewrite decide_True by reflexivity.
  by rewrite getitem_pdo, getitem_odds, getitem_scorecard_points.
Qed.

(** C5.  Under "pdo_odds" every raw point [p] becomes
    [-(sense * p + intercept / n) * factor + offset / n], with
    [factor = pdo / ln 2], [offset = scorecard_points - factor * ln odds],
    [n] the number of binning tables and [sense] -1 when the scorecard is
    reversed, +1 otherwise.  The reference odds are positive and there is
    at least one variable. *)
Theorem pdo_odds_points (points : list R) (binning_tables : list (list row))
    (pdo odds scorecard_points intercept : R) (reverse_scorecard : bool) :
  0 < odds ->
  binning_tables <> [] ->
  let n := INR (length binning_tables) in
  let sense := if reverse_scorecard then -1 else 1 in
  let factor := pdo / ln 2 in
  let offset := scorecard_points - factor * ln odds in
  _compute_scorecard_points (map fin points) binning_tables "pdo_odds"
    (Some (pdo_odds_params (PyNum (fin pdo)) (PyNum (fin odds))
             (PyNum (fin scorecard_points))))
    (fin intercept) reverse_scorecard
  = Ok (map (fun p => fin (- (sense * p + intercept / n) * factor + offset / n))
          points).
Proof.
  intros Hodds Hn n sense factor offset.
  pose proof ln_2_pos as Hln.
  pose proof (INR_length_pos _ Hn) as Hpos.
  rewrite pdo_odds_branch. cbv zeta.
  rewrite (log_fin 2) by lra. rewrite (log_fin odds) by assumption.
  rewrite (div_fin pdo) by lra.
  unfold of_nat. fold n.
  f_equal. rewrite map_map. apply map_ext. intros p.
  assert (Hn0 : n <> 0) by (subst n; lra).
  unfold sub. cbn [mul neg add].
  rewrite !div_fin by assumption.
  destruct reverse_scorecard; cbn [mul neg add]; f_equal;
    subst sense factor offset; unfold Rdiv; ring.
Qed.

End pdo_odds.

(** ** Reductions over real tables *)

Section real_tables.
Local Open Scope R_scope.
Import NP.

Lemma min_real (xs : list R) :
  xs <> [] -> min (map fin xs) = Ok (fin (Rmin_list xs)).
Proof.
  destruct xs as [|x xs]; [congruence | intros _].
  simpl. by rewrite foldl_minimum_fin.
Qed.

(** pandas' reductions on columns of real numbers. *)
Lemma filter_notna_fin (xs : list R) :
  List.filter notna (map fin xs) = map fin xs.
Proof. induction xs as [|x xs IH]; [reflexivity|]. cbn. by rewrite IH. Qed.

Lemma Series_min_real (xs : list R) :
  xs <> [] -> Series_min (map fin xs) = fin (Rmin_list xs).
Proof.
  unfold Series_min. rewrite filter_notna_fin.
  destruct xs as [|x xs]; [congruence | intros _].
  cbn [map]. apply foldl_minimum_fin.
Qed.

Lemma Series_max_real (xs : list R) :
  xs <> [] -> Series_max (map fin xs) = fin (Rmax_list xs).
Proof.
  unfold Series_max. rewrite filter_notna_fin.
  destruct xs as [|x xs]; [congruence | intros _].
  cbn [map]. apply foldl_maximum_fin.
Qed.

Lemma map_Series_min_real (tables : list (list R)) :
  Forall (fun t => t <> []) tables ->
  map Series_min (map (map fin) tables) = map fin (map Rmin_list tables).
Proof.
  induction 1 as [|t tables Ht _ IH]; cbn [map]; [reflexivity|].
  by rewrite Series_min_real, IH.
Qed.

Lemma map_Series_max_real (tables : list (list R)) :
  Forall (fun t => t <> []) tables ->
  map Series_max (map (map fin) tables) = map fin (map Rmax_list tables).
Proof.
  induction 1 as [|t tables Ht _ IH]; cbn [map]; [reflexivity|].
  by rewrite Series_max_real, IH.
Qed.

Lemma total_min_real (tables : list (list R)) :
  Forall (fun t => t <> []) tables ->
  total_min (map (map fin) tables) = Ok (fin (Rsum (map Rmin_list tables))).
Proof.
  intros H. unfold total_min. by rewrite map_Series_min_real, sum_fin.
Qed.

Lemma total_max_real (tables : list (list R)) :
  Forall (fun t => t <> []) tables ->
  total_max (map (map fin) tables) = Ok (fin (Rsum (map Rmax_list tables))).
Proof.
  intros H. unfold total_max. by rewrite map_Series_max_real, sum_fin.
Qed.

(** A total that is a real number has met no empty table: the minimum of an
    empty column is NaN, and so is every sum it enters. *)
Lemma total_min_nonempty (tables : list (list R)) (x : R) :
  total_min (map (map fin) tables) = Ok (fin x) ->
  Forall (fun t => t <> []) tables.
Proof.
  unfold total_min, sum. intros [= Hsum].
  apply Forall_forall. intros t Ht ->.
  rewrite foldl_add_absorbs in Hsum; [discriminate|].
  apply (in_map Series_min _ (map fin [])), in_map, list_elem_of_In, Ht.
Qed.

(** An increasing affine map commutes with minimum and maximum; a
    decreasing one exchanges them. *)
Lemma foldl_Rmin_increasing (d k x : R) (xs : list R) :
  0 <= k ->
  foldl Rmin (d + k * x) (map (fun p => d + k * p) xs) = d + k * foldl Rmin x xs.
Proof.
  intros Hk. revert x. induction xs as [|y xs IH]; intros x; simpl; [reflexivity|].
  rewrite <- IH. f_equal. unfold Rmin.
  destruct (Rle_dec (d + k * x) (d + k * y)), (Rle_dec x y); try reflexivity; nra.
Qed.

Lemma foldl_Rmax_increasing (d k x : R) (xs : list R) :
  0 <= k ->
  foldl Rmax (d + k * x) (map (fun p => d + k * p) xs) = d + k * foldl Rmax x xs.
Proof.
  intros Hk. revert x. induction xs as [|y xs IH]; intros x; simpl; [reflexivity|].
  rewrite <- IH. f_equal. unfold Rmax.
  destruct (Rle_dec (d + k * x) (d + k * y)), (Rle_dec x y); try reflexivity; nra.
Qed.

Lemma foldl_Rmin_decreasing (d k x : R) (xs : list R) :
  k <= 0 ->
  foldl Rmin (d + k * x) (map (fun p => d + k * p) xs) = d + k * foldl Rmax x xs.
Proof.
  intros Hk. revert x. induction xs as [|y xs IH]; intros x; simpl; [reflexivity|].
  rewrite <- IH. f_equal. unfold Rmin, Rmax.
  destruct (Rle_dec (d + k * x) (d + k * y)), (Rle_dec x y); try reflexivity; nra.
Qed.

Lemma foldl_Rmax_decreasing (d k x : R) (xs : list R) :
  k <= 0 ->
  foldl Rmax (d + k * x) (map (fun p => d + k * p) xs) = d + k * foldl Rmin x xs.
Proof.
  intros Hk. revert x. induction xs as [|y xs IH]; intros x; simpl; [reflexivity|].
  rewrite <- IH. f_equal. unfold Rmin, Rmax.
  destruct (Rle_dec (d + k * x) (d + k * y)), (Rle_dec x y); try reflexivity; nra.
Qed.

Lemma Rmin_list_increasing (d k : R) (xs : list R) :
  0 <= k -> xs <> [] ->
  Rmin_list (map (fun p => d + k * p) xs) = d + k * Rmin_list xs.
Proof. destruct xs; [congruence|]. intros. by apply foldl_Rmin_increasing. Qed.

Lemma Rmax_list_increasing (d k : R) (xs : list R) :
  0 <= k -> xs <> [] ->
  Rmax_list (map (fun p => d + k * p) xs) = d + k * Rmax_list xs.
Proof. destruct xs; [congruence|]. intros. by apply foldl_Rmax_increasing. Qed.

Lemma Rmin_list_decreasing (d k : R) (xs : list R) :
  k <= 0 -> xs <> [] ->
  Rmin_list (map (fun p => d + k * p) xs) = d + k * Rmax_list xs.
Proof. destruct xs; [congruence|]. intros. by apply foldl_Rmin_decreasing. Qed.

Lemma Rmax_list_decreasing (d k : R) (xs : list R) :
  k <= 0 -> xs <> [] ->
  Rmax_list (map (fun p => d + k * p) xs) = d + k * Rmin_list xs.
Proof. destruct xs; [congruence|]. intros. by apply foldl_Rmax_decreasing. Qed.

Lemma foldl_Rmin_le_Rmax (x y : R) (xs : list R) :
  x <= y -> foldl Rmin x xs <= foldl Rmax y xs.
Proof.
  revert x y. induction xs as [|z xs IH]; intros x y Hxy; simpl; [assumption|].
  apply IH. pose proof (Rmin_l x z). pose proof (Rmax_l y z). lra.
Qed.

Lemma Rmin_list_le_Rmax_list (xs : list R) : Rmin_list xs <= Rmax_list xs.
Proof. destruct xs; simpl; [lra|]. apply foldl_Rmin_le_Rmax. lra. Qed.

Lemma Rsum_min_le_max (tables : list (list R)) :
  Rsum (map Rmin_list tables) <= Rsum (map Rmax_list tables).
Proof.
  induction tables as [|t tables IH]; simpl; [lra|].
  pose proof (Rmin_list_le_Rmax_list t). lra.
Qed.

Lemma Rsum_affine (d k : R) (xs : list R) :
  Rsum (map (fun m => d + k * m) xs) = INR (length xs) * d + k * Rsum xs.
Proof.
  induction xs as [|x xs IH]; [simpl; lra|].
  cbn [map Rsum foldr length]. fold (Rsum (map (fun m => d + k * m) xs)).
  fold (Rsum xs). rewrite IH, S_INR. lra.
Qed.

(** The sums of the per-table minima and maxima after an affine map of
    every point. *)
Lemma Rsum_min_increasing (d k : R) (tables : list (list R)) :
  0 <= k -> Forall (fun t => t <> []) tables ->
  Rsum (map Rmin_list (map (map (fun p => d + k * p)) tables))
  = INR (length tables) * d + k * Rsum (map Rmin_list tables).
Proof.
  intros Hk Hne.
  transitivity (Rsum (map (fun m => d + k * m) (map Rmin_list tables))).
  - f_equal. rewrite !map_map. apply map_ext_Forall.
    eapply Forall_impl; [exact Hne|].
    intros t Ht. by apply Rmin_list_increasing.
  - by rewrite Rsum_affine, length_map.
Qed.

Lemma Rsum_max_increasing (d k : R) (tables : list (list R)) :
  0 <= k -> Forall (fun t => t <> []) tables ->
  Rsum (map Rmax_list (map (map (fun p => d + k * p)) tables))
  = INR (length tables) * d + k * Rsum (map Rmax_list tables).
Proof.
  intros Hk Hne.
  transitivity (Rsum (map (fun m => d + k * m) (map Rmax_list tables))).
  - f_equal. rewrite !map_map. apply map_ext_Forall.
    eapply Forall_impl; [exact Hne|].
    intros t Ht. by apply Rmax_list_increasing.
  - by rewrite Rsum_affine, length_map.
Qed.

Lemma Rsum_min_decreasing (d k : R) (tables : list (list R)) :
  k <= 0 -> Forall (fun t => t <> []) tables ->
  Rsum (map Rmin_list (map (map (fun p => d + k * p)) tables))
  = INR (length tables) * d + k * Rsum (map Rmax_list tables).
Proof.
  intros Hk Hne.
  transitivity (Rsum (map (fun m => d + k * m) (map Rmax_list tables))).
  - f_equal. rewrite !map_map. apply map_ext_Forall.
    eapply Forall_impl; [exact Hne|].
    intros t Ht. by apply Rmin_list_decreasing.
  - by rewrite Rsum_affine, length_map.
Qed.

Lemma Rsum_max_decreasing (d k : R) (tables : list (list R)) :
  k <= 0 -> Forall (fun t => t <> []) tables ->
  Rsum (map Rmax_list (map (map (fun p => d + k * p)) tables))
  = INR (length tables) * d + k * Rsum (map Rmin_list tables).
Proof.
  intros Hk Hne.
  transitivity (Rsum (map (fun m => d + k * m) (map Rmin_list tables))).
  - f_equal. rewrite !map_map. apply map_ext_Forall.
    eapply Forall_impl; [exact Hne|].
    intros t Ht. by apply Rmax_list_decreasing.
  - by rewrite Rsum_affine, length_map.
Qed.

(** A minimum is below, a maximum above, every entry. *)
Lemma foldl_Rmin_le_init (x : R) (xs : list R) : foldl Rmin x xs <= x.
Proof.
  revert x. induction xs as [|y xs IH]; intros x; simpl; [lra|].
  etransitivity; [apply IH|]. unfold Rmin. destruct (Rle_dec x y); lra.
Qed.

Lemma foldl_Rmin_le_elem (x p : R) (xs : list R) :
  In p xs -> foldl Rmin x xs <= p.
Proof.
  revert x. induction xs as [|y xs IH]; intros x; simpl; [intros []|].
  intros [->|Hin]; [|by apply IH].
  etransitivity; [apply foldl_Rmin_le_init|].
  unfold Rmin. destruct (Rle_dec x p); lra.
Qed.

Lemma foldl_Rmax_ge_init (x : R) (xs : list R) : x <= foldl Rmax x xs.
Proof.
  revert x. induction xs as [|y xs IH]; intros x; simpl; [lra|].
  etransitivity; [|apply IH]. unfold Rmax. destruct (Rle_dec x y); lra.
Qed.

Lemma foldl_Rmax_ge_elem (x p : R) (xs : list R) :
  In p xs -> p <= foldl Rmax x xs.
Proof.
  revert x. induction xs as [|y xs IH]; intros x; simpl; [intros []|].
  intros [->|Hin]; [|by apply IH].
  etransitivity; [|apply foldl_Rmax_ge_init].
  unfold Rmax. destruct (Rle_dec x p); lra.
Qed.

Lemma Rmin_list_le (p : R) (xs : list R) : In p xs -> Rmin_list xs <= p.
Proof.
  destruct xs as [|x xs]; [intros []|].
  intros [->|Hin]; [apply foldl_Rmin_le_init | by apply foldl_Rmin_le_elem].
Qed.

Lemma Rmax_list_ge (p : R) (xs : list R) : In p xs -> p <= Rmax_list xs.
Proof.
  destruct xs as [|x xs]; [intros []|].
  intros [->|Hin]; [apply foldl_Rmax_ge_init | by apply foldl_Rmax_ge_elem].
Qed.

(** The minimum of a column is one of its entries. *)
Lemma foldl_Rmin_In (x : R) (xs : list R) : In (foldl Rmin x xs) (x :: xs).
Proof.
  revert x. induction xs as [|y xs IH]; intros x; cbn [foldl]; [by left|].
  destruct (IH (Rmin x y)) as [E|Hin]; [|by right; right].
  rewrite <- E. unfold Rmin. destruct (Rle_dec x y); [by left | by right; left].
Qed.

Lemma Rmin_list_In (xs : list R) : xs <> [] -> In (Rmin_list xs) xs.
Proof. destruct xs as [|x xs]; [congruence|]. intros _. apply foldl_Rmin_In. Qed.

Lemma Forall_nonempty_map {A B} (f : A -> B) (tables : list (list A)) :
  Forall (fun t => t <> []) tables ->
  Forall (fun t => t <> []) (map (map f) tables).
Proof.
  intros H. rewrite Forall_map. eapply Forall_impl; [exact H|].
  intros [|x t] Ht; [congruence | discriminate].
Qed.

Lemma Points_real_df (t : list (string * R)) :
  map Points (real_df t) = map fin (map snd t).
Proof. unfold real_df. rewrite !map_map. reflexivity. Qed.

Lemma Points_real_tables (tables : list (list (string * R))) :
  map (map Points) (map real_df tables) = map (map fin) (map (map snd) tables).
Proof. rewrite !map_map. apply map_ext. intros t. apply Points_real_df. Qed.

Lemma Points_concat_real_tables (tables : list (list (string * R))) :
  map Points (concat (map real_df tables))
  = map fin (concat (map (map snd) tables)).
Proof.
  rewrite !concat_map, !map_map. f_equal. apply map_ext. intros t.
  apply Points_real_df.
Qed.

End real_tables.

(** ** Min/max scaling *)

Section min_max.
Local Open Scope R_scope.
Import NP.

Lemma total_min_inv (binning_tables : list (list row)) v :
  total_min (map (map Points) binning_tables) = Ok v ->
  sum (map (fun bt => Series_min (map Points bt)) binning_tables) = v.
Proof. unfold total_min. rewrite map_map. by intros [= <-]. Qed.

Lemma total_max_inv (binning_tables : list (list row)) v :
  total_max (map (map Points) binning_tables) = Ok v ->
  sum (map (fun bt => Series_max (map Points bt)) binning_tables) = v.
Proof. unfold total_max. rewrite map_map. by intros [= <-]. Qed.

(** The "min_max" branch on real inputs with a score range that is not a
    single point: an affine map of the raw points. *)
Lemma min_max_points_real (points : list R) (binning_tables : list (list row))
    (a b intercept : R) (reverse_scorecard : bool) (min_p max_p : R) :
  total_min (map (map Points) binning_tables) = Ok (fin min_p) ->
  total_max (map (map Points) binning_tables) = Ok (fin max_p) ->
  intercept + max_p <> intercept + min_p ->
  binning_tables <> [] ->
  let smin := intercept + min_p in
  let smax := intercept + max_p in
  let slope := min_max_slope reverse_scorecard a b smin smax in
  let base_points := min_max_base reverse_scorecard a b smin smax intercept in
  _compute_scorecard_points (map fin points) binning_tables "min_max"
    (Some (min_max_params (PyNum (fin a)) (PyNum (fin b))))
    (fin intercept) reverse_scorecard
  = Ok (map (fun p => fin (base_points / INR (length binning_tables) + slope * p))
          points).
Proof.
  intros Hmin Hmax Hrange Hn smin smax slope base_points.
  apply total_min_inv in Hmin as Hlo.
  apply total_max_inv in Hmax as Hhi.
  pose proof (INR_length_pos _ Hn) as Hpos.
  unfold _compute_scorecard_points.
  rewrite decide_False by discriminate. rewrite decide_True by reflexivity.
  rewrite getitem_min, getitem_max.
  cbn [mbind result_bind number]. rewrite Hlo, Hhi.
  unfold of_nat, sub.
  assert (Hd : smax + - smin <> 0) by (subst smin smax; lra).
  assert (Hslope :
    div (mul (if reverse_scorecard then fin (-1) else fin 1) (add (fin a) (neg (fin b))))
        (add (add (fin intercept) (fin max_p)) (neg (add (fin intercept) (fin min_p))))
    = fin slope).
  { destruct reverse_scorecard; cbn [mul neg add]; rewrite div_fin by exact Hd;
      f_equal; subst slope; unfold min_max_slope; fold smin smax;
      unfold Rdiv, Rminus; ring. }
  rewrite Hslope.
  f_equal. rewrite map_map. apply map_ext. intros p.
  destruct reverse_scorecard; cbn [mul neg add]; rewrite div_fin by lra;
    cbn [mul neg add]; f_equal; subst base_points; unfold min_max_base;
    fold smin smax slope; unfold Rdiv, Rminus; ring.
Qed.

(** The same branch on whole real tables: the scaled tables, and the
    facts about the score range that the later proofs need. *)
Lemma min_max_scaled_tables (tables : list (list (string * R)))
    (a b intercept : R) (reverse_scorecard : bool) (min_p max_p : R) :
  let binning_tables := map real_df tables in
  let pts := map (map snd) tables in
  total_min (map (map Points) binning_tables) = Ok (fin min_p) ->
  total_max (map (map Points) binning_tables) = Ok (fin max_p) ->
  intercept + max_p <> intercept + min_p ->
  let smin := intercept + min_p in
  let smax := intercept + max_p in
  let slope := min_max_slope reverse_scorecard a b smin smax in
  let d := min_max_base reverse_scorecard a b smin smax intercept
           / INR (length tables) in
  Forall (fun t => t <> []) pts
  /\ min_p = Rsum (map Rmin_list pts)
  /\ max_p = Rsum (map Rmax_list pts)
  /\ min_p < max_p
  /\ 0 < INR (length tables)
  /\ _compute_scorecard_points (map Points (concat binning_tables))
       binning_tables "min_max"
       (Some (min_max_params (PyNum (fin a)) (PyNum (fin b))))
       (fin intercept) reverse_scorecard
     = Ok (map fin (concat (map (map (fun p => d + slope * p)) pts))).
Proof.
  intros bts pts Hmin Hmax Hrange smin smax slope d.
  subst bts. pose proof Hmin as Hmin'. pose proof Hmax as Hmax'.
  rewrite Points_real_tables in Hmin', Hmax'. fold pts in Hmin', Hmax'.
  assert (Hne : Forall (fun t => t <> []) pts) by (by eapply total_min_nonempty).
  assert (Hlo : min_p = Rsum (map Rmin_list pts)).
  { rewrite total_min_real in Hmin' by assumption. congruence. }
  assert (Hhi : max_p = Rsum (map Rmax_list pts)).
  { rewrite total_max_real in Hmax' by assumption. congruence. }
  assert (Hlt : min_p < max_p).
  { pose proof (Rsum_min_le_max pts). lra. }
  assert (Htables : map real_df tables <> []).
  { destruct tables; [|discriminate]. simpl in Hlo, Hhi. lra. }
  assert (Hpos : 0 < INR (length tables)).
  { rewrite <- (length_map real_df). by apply INR_length_pos. }
  repeat split; try assumption.
  rewrite Points_concat_real_tables. fold pts.
  rewrite (min_max_points_real _ _ a b intercept reverse_scorecard min_p max_p)
    by assumption.
  rewrite length_map. fold smin smax slope d.
  f_equal. rewrite <- concat_map, map_map. reflexivity.
Qed.

(** C1 (amended).  Under "min_max" with configured bounds [a <= b] and a
    score range that is not a single point, the scaled tables have the
    sum of their per-variable minima equal to [a] and the sum of their
    per-variable maxima equal to [b], whether or not the scorecard is
    reversed. *)
Theorem min_max_total_range (tables : list (list (string * R)))
    (a b intercept : R) (reverse_scorecard : bool) (min_p max_p : R) :
  let binning_tables := map real_df tables in
  a <= b ->
  total_min (map (map Points) binning_tables) = Ok (fin min_p) ->
  total_max (map (map Points) binning_tables) = Ok (fin max_p) ->
  intercept + max_p <> intercept + min_p ->
  exists scaled : list (list R),
    _compute_scorecard_points (map Points (concat binning_tables))
      binning_tables "min_max"
      (Some (min_max_params (PyNum (fin a)) (PyNum (fin b))))
      (fin intercept) reverse_scorecard
    = Ok (map fin (concat scaled))
    /\ Forall2 (fun t s => length t = length s) tables scaled
    /\ total_min (map (map fin) scaled) = Ok (fin a)
    /\ total_max (map (map fin) scaled) = Ok (fin b).
Proof.
  intros bts Hab Hmin Hmax Hrange.
  destruct (min_max_scaled_tables tables a b intercept reverse_scorecard
              min_p max_p Hmin Hmax Hrange)
    as (Hne & Hlo & Hhi & Hlt & Hpos & Hres).
  set (pts := map (map snd) tables) in *.
  set (smin := intercept + min_p) in *.
  set (smax := intercept + max_p) in *.
  set (slope := min_max_slope reverse_scorecard a b smin smax) in *.
  set (d := min_max_base reverse_scorecard a b smin smax intercept
            / INR (length tables)) in *.
  exists (map (map (fun p => d + slope * p)) pts).
  split; [exact Hres|]. split.
  { subst pts. rewrite map_map. apply Forall2_fmap_r, Forall_Forall2_diag.
    apply Forall_forall. intros t _. unfold compose. by rewrite !length_map. }
  assert (Hlen : length pts = length tables) by (subst pts; by rewrite length_map).
  assert (Hd : smax - smin <> 0) by (subst smin smax; lra).
  pose proof (Forall_nonempty_map (fun p => d + slope * p) pts Hne) as Hne'.
  rewrite total_min_real, total_max_real by assumption.
  destruct reverse_scorecard.
  - assert (Hk : 0 <= slope).
    { subst slope. unfold min_max_slope.
      replace (-1 * (a - b) / (smax - smin)) with ((b - a) / (smax - smin))
        by (field; exact Hd).
      apply Rle_mult_inv_pos; subst smin smax; lra. }
    rewrite Rsum_min_increasing, Rsum_max_increasing by assumption.
    rewrite Hlen, <- Hlo, <- Hhi.
    split; do 2 f_equal; subst d slope; unfold min_max_base, min_max_slope;
      subst smin smax; field; lra.
  - assert (Hk : slope <= 0).
    { subst slope. unfold min_max_slope.
      replace (1 * (a - b) / (smax - smin)) with (- ((b - a) / (smax - smin)))
        by (field; exact Hd).
      apply Ropp_le_cancel. rewrite Ropp_involutive, Ropp_0.
      apply Rle_mult_inv_pos; subst smin smax; lra. }
    rewrite Rsum_min_decreasing, Rsum_max_decreasing by assumption.
    rewrite Hlen, <- Hlo, <- Hhi.
    split; do 2 f_equal; subst d slope; unfold min_max_base, min_max_slope;
      subst smin smax; field; lra.
Qed.

(** *** The degenerate score range *)

Lemma div_by_zero_not_finite (x y : R) :
  y = 0 -> is_finite (div (fin x) (fin y)) = false.
Proof.
  intros ->. simpl. destruct (Req_dec_T 0 0) as [_|H]; [|by destruct H].
  destruct (Req_dec_T x 0); [reflexivity|]. by destruct (Rlt_dec 0 x).
Qed.

Lemma mul_not_finite (u v : float64) :
  is_finite u = false -> is_finite (mul u v) = false.
Proof.
  destruct u, v; try discriminate; try reflexivity; intros _; simpl;
    unfold inf_times;
    destruct (Req_dec_T _ 0); try reflexivity; by destruct (Rlt_dec 0 _).
Qed.



Lemma add_not_finite_r (u v : float64) :
  is_finite v = false -> is_finite (add u v) = false.
Proof. by destruct u, v. Qed.


(** C2 (amended).  Under "min_max", when [smax = smin] the code raises
    nothing: the slope is the result of a division by zero, an infinity or
    NaN, and so is every point returned. *)
Theorem min_max_degenerate_not_finite (points : list R)
    (binning_tables : list (list row)) (a b intercept : R)
    (reverse_scorecard : bool) (min_p max_p : R) :
  total_min (map (map Points) binning_tables) = Ok (fin min_p) ->
  total_max (map (map Points) binning_tables) = Ok (fin max_p) ->
  intercept + max_p = intercept + min_p ->
  exists new_points,
    _compute_scorecard_points (map fin points) binning_tables "min_max"
      (Some (min_max_params (PyNum (fin a)) (PyNum (fin b))))
      (fin intercept) reverse_scorecard
    = Ok new_points
    /\ length new_points = length points
    /\ Forall (fun v => is_finite v = false) new_points.
Proof.
  intros Hmin Hmax Hrange.
  apply total_min_inv in Hmin as Hlo.
  apply total_max_inv in Hmax as Hhi.
  unfold _compute_scorecard_points.
  rewrite decide_False by discriminate. rewrite decide_True by reflexivity.
  rewrite getitem_min, getitem_max.
  cbn [mbind result_bind number]. rewrite Hlo, Hhi.
  set (sense := if reverse_scorecard then fin (-1) else fin 1).
  set (slope := div (mul sense (sub (fin a) (fin b)))
                    (sub (add (fin intercept) (fin max_p))
                         (add (fin intercept) (fin min_p)))).
  assert (Hslope : is_finite slope = false).
  { subst slope sense. destruct reverse_scorecard; unfold sub; cbn [mul neg add];
      apply div_by_zero_not_finite; lra. }
  eexists. split; [reflexivity|]. split; [by rewrite !length_map|].
  rewrite Forall_map, Forall_map. apply Forall_forall. intros p _.
  apply add_not_finite_r, mul_not_finite, Hslope.
Qed.

End min_max.

(** ** Direction of the transform *)

Section direction.
Local Open Scope R_scope.
Import NP.

(** C10 (amended).  In exact arithmetic, for valid, non-degenerate
    parameters the transform is an affine function [p |-> d + k * p] of the
    raw point with [k < 0]: of two raw points the smaller one gets strictly
    more scaled points.  With [reverse_scorecard] the slope is positive and
    the order is kept. *)
Theorem scaled_points_strictly_monotone (s : scaling)
    (binning_tables : list (list row)) (intercept : R)
    (reverse_scorecard : bool) :
  nondegenerate s binning_tables intercept ->
  exists d k : R,
    (forall points : list R,
       _compute_scorecard_points (map fin points) binning_tables
         (method_of s) (Some (params_of s)) (fin intercept) reverse_scorecard
       = Ok (map (fun p => fin (d + k * p)) points))
    /\ (if reverse_scorecard then 0 < k else k < 0)
    /\ (forall p1 p2 : R, p1 < p2 ->
          if reverse_scorecard then d + k * p1 < d + k * p2
          else d + k * p2 < d + k * p1).
Proof.
  destruct s as [pdo odds sp | a b]; simpl.
  - intros (Hpdo & Hodds & Hn).
    pose proof ln_2_pos as Hln.
    pose proof (INR_length_pos _ Hn) as Hpos.
    set (n := INR (length binning_tables)) in *.
    set (factor := pdo / ln 2).
    assert (Hfactor : 0 < factor) by (by apply Rdiv_lt_0_compat).
    exists (- (intercept / n) * factor + (sp - factor * ln odds) / n),
           (- (if reverse_scorecard then -1 else 1) * factor).
    split.
    { intros points. rewrite pdo_odds_branch. cbv zeta.
      rewrite (log_fin 2) by lra. rewrite (log_fin odds) by assumption.
      rewrite (div_fin pdo) by lra. unfold of_nat. fold n factor.
      f_equal. rewrite map_map. apply map_ext. intros p.
      unfold sub. cbn [mul neg add]. rewrite !div_fin by lra.
      destruct reverse_scorecard; cbn [mul neg add]; f_equal;
        unfold Rdiv; ring. }
    destruct reverse_scorecard; split; try lra; intros p1 p2 Hp; nra.
  - intros (Hab & min_p & max_p & Hmin & Hmax & Hrange).
    assert (Hn : binning_tables <> []).
    { intros ->. simpl in Hmin, Hmax. unfold total_min, total_max in *.
      simpl in *. unfold sum in *. simpl in *.
      injection Hmin as <-. injection Hmax as <-. lra. }
    set (smin := intercept + min_p) in *.
    set (smax := intercept + max_p) in *.
    exists (min_max_base reverse_scorecard a b smin smax intercept
            / INR (length binning_tables)),
           (min_max_slope reverse_scorecard a b smin smax).
    split.
    { intros points.
      by rewrite (min_max_points_real _ _ a b intercept reverse_scorecard
                    min_p max_p) by (assumption || (subst smin smax; lra)). }
    assert (Hinv : 0 < / (smax - smin)) by (apply Rinv_0_lt_compat; lra).
    assert (Hpos : 0 < (b - a) * / (smax - smin)) by (apply Rmult_lt_0_compat; lra).
    set (d := min_max_base reverse_scorecard a b smin smax intercept
              / INR (length binning_tables)).
    set (k := min_max_slope reverse_scorecard a b smin smax).
    assert (Hk : if reverse_scorecard then 0 < k else k < 0).
    { subst k. unfold min_max_slope, Rdiv. destruct reverse_scorecard.
      - replace (-1 * (a - b) * / (smax - smin))
          with ((b - a) * / (smax - smin)) by ring. exact Hpos.
      - replace (1 * (a - b) * / (smax - smin))
          with (- ((b - a) * / (smax - smin))) by ring. lra. }
    split; [exact Hk|].
    destruct reverse_scorecard; intros p1 p2 Hp; nra.
Qed.

End direction.

(** ** Intercept-based scorecard *)

Section masks.
Context {A : Type} (P : A -> Prop) `{!forall x, Decision (P x)}.

Lemma select_mask (xs : list A) :
  select (map (fun x => bool_decide (P x)) xs) xs = filter P xs.
Proof.
  induction xs as [|x xs IH]; [reflexivity|].
  cbn [map select]. rewrite filter_cons.
  destruct (decide (P x)) as [Hx|Hx].
  - rewrite bool_decide_eq_true_2 by assumption. by rewrite IH.
  - rewrite bool_decide_eq_false_2 by assumption. exact IH.
Qed.

(** A masked assignment of values computed row by row is a pointwise
    choice between the new value and the old one. *)
Lemma assign_mask {B} (g : A -> B) (xs : list A) (arr : list B) :
  length arr = length xs ->
  assign (map (fun x => bool_decide (P x)) xs) arr (map g (filter P xs))
  = zip_with (fun x old => if bool_decide (P x) then g x else old) xs arr.
Proof.
  revert arr. induction xs as [|x xs IH]; intros [|y arr] Hlen;
    try discriminate; [reflexivity|].
  injection Hlen as Hlen.
  cbn [map assign zip_with]. rewrite filter_cons.
  destruct (decide (P x)) as [Hx|Hx].
  - rewrite !bool_decide_eq_true_2 by assumption.
    cbn [map]. by rewrite IH.
  - rewrite !bool_decide_eq_false_2 by assumption. by rewrite IH.
Qed.

End masks.

Section list_facts.

Lemma elem_of_unique (x : string) (xs : list string) : x ∈ unique xs <-> x ∈ xs.
Proof.
  induction xs as [|y xs IH]; [reflexivity|].
  cbn [unique]. rewrite !elem_of_cons, list_elem_of_filter, IH.
  cbv beta. destruct (decide (x = y)); tauto.
Qed.

Lemma NoDup_unique (xs : list string) : NoDup (unique xs).
Proof.
  induction xs as [|y xs IH]; cbn [unique]; [constructor|].
  constructor.
  - rewrite list_elem_of_filter. intros [Hy _]. by apply Hy.
  - by apply NoDup_filter.
Qed.

Lemma zip_with_zip_with {X Y} (f g : X -> Y -> Y) (xs : list X) (ys : list Y) :
  zip_with f xs (zip_with g xs ys) = zip_with (fun x y => f x (g x y)) xs ys.
Proof.
  revert ys. induction xs as [|x xs IH]; intros [|y ys]; try reflexivity.
  cbn [zip_with]. by rewrite IH.
Qed.

Lemma zip_with_pointwise {X Y Z} (f g : X -> Y -> Z) (xs : list X) (ys : list Y) :
  (forall x y, x ∈ xs -> f x y = g x y) -> zip_with f xs ys = zip_with g xs ys.
Proof.
  revert ys. induction xs as [|x xs IH]; intros [|y ys] H; try reflexivity.
  cbn [zip_with]. rewrite H by left. f_equal. apply IH.
  intros x' y' Hx'. apply H. by right.
Qed.

Lemma zip_with_keep {X Y} (xs : list X) (ys : list Y) :
  length ys = length xs -> zip_with (fun _ y => y) xs ys = ys.
Proof.
  revert ys. induction xs as [|x xs IH]; intros [|y ys] H; try discriminate;
    [reflexivity|].
  cbn [zip_with]. f_equal. apply IH. by injection H.
Qed.

Lemma zip_with_replace {X Y} (f : X -> Y) (xs : list X) (ys : list Y) :
  length ys = length xs -> zip_with (fun x _ => f x) xs ys = map f xs.
Proof.
  revert ys. induction xs as [|x xs IH]; intros [|y ys] H; try discriminate;
    [reflexivity|].
  cbn [zip_with map]. f_equal. apply IH. by injection H.
Qed.

Lemma Forall2_map_self {X Y} (P : X -> Y -> Prop) (g : X -> Y) (xs : list X) :
  (forall x, P x (g x)) -> Forall2 P xs (map g xs).
Proof. intros H. induction xs; cbn [map]; constructor; auto. Qed.

Lemma Forall2_map_elem {X Y} (P : X -> Y -> Prop) (g : X -> Y) (xs : list X) :
  (forall x, x ∈ xs -> P x (g x)) -> Forall2 P xs (map g xs).
Proof.
  induction xs as [|x xs IH]; intros H; cbn [map]; constructor.
  - apply H. by left.
  - apply IH. intros x' Hx'. apply H. by right.
Qed.

End list_facts.

Section intercept_based.
Local Open Scope R_scope.
Import NP.

Lemma group_select (df : list row) (v : string) :
  map Points (select (map (fun r => bool_decide (Variable_ r = v)) df) df)
  = group df v.
Proof. unfold group. by rewrite (select_mask (fun r => Variable_ r = v)). Qed.

Lemma group_nonempty (df : list row) (v : string) :
  v ∈ map Variable_ df -> group df v <> [].
Proof.
  unfold group. induction df as [|r df IH]; cbn [map].
  - intros H. by apply elem_of_nil in H.
  - rewrite elem_of_cons, filter_cons. intros [->|H].
    + rewrite decide_True by reflexivity. discriminate.
    + destruct (decide (Variable_ r = v)); [discriminate | by apply IH].
Qed.

Lemma min_group (df : list row) (v : string) :
  v ∈ map Variable_ df -> min (group df v) = Ok (group_min df v).
Proof.
  intros H. apply group_nonempty in H. unfold group_min.
  by destruct (group df v).
Qed.

(** The loop, whatever the points: every row of a variable in the list
    gets its point minus the minimum of its variable, the other rows keep
    what the array held, and the minima visited are added up. *)
Lemma intercept_based_loop_spec (df : list row) (vs : list string)
    (scaled_points : list float64) (intercept : float64) :
  length scaled_points = length df ->
  (forall v, v ∈ vs -> v ∈ map Variable_ df) ->
  intercept_based_loop df vs scaled_points intercept
  = Ok (zip_with
          (fun r old =>
             if bool_decide (Variable_ r ∈ vs)
             then sub (Points r) (group_min df (Variable_ r)) else old)
          df scaled_points,
        foldl add intercept (map (group_min df) vs)).
Proof.
  revert scaled_points intercept.
  induction vs as [|v vs IH]; intros sp icpt Hlen Hvs.
  - cbn [intercept_based_loop map foldl]. do 2 f_equal.
    rewrite (zip_with_pointwise _ (fun _ old => old)).
    + symmetry. by apply zip_with_keep.
    + intros r old _. rewrite bool_decide_eq_false_2; [reflexivity|].
      apply not_elem_of_nil.
  - cbn [intercept_based_loop]. rewrite group_select.
    rewrite min_group by (apply Hvs; left).
    cbn [mbind result_bind]. set (m := group_min df v).
    unfold group. rewrite map_map.
    rewrite (assign_mask (fun r => Variable_ r = v)
               (fun r => sub (Points r) m)) by assumption.
    rewrite IH.
    + cbn [map foldl]. do 2 f_equal.
      rewrite zip_with_zip_with. apply zip_with_pointwise.
      intros r old _.
      destruct (decide (Variable_ r = v)) as [Hv|Hv].
      * rewrite (bool_decide_eq_true_2 (Variable_ r = v)) by assumption.
        rewrite (bool_decide_eq_true_2 (Variable_ r ∈ v :: vs))
          by (rewrite Hv; left).
        subst m. rewrite Hv. by destruct (bool_decide (v ∈ vs)).
      * rewrite (bool_decide_eq_false_2 (Variable_ r = v)) by assumption.
        destruct (decide (Variable_ r ∈ vs)) as [Hin|Hin].
        -- rewrite !bool_decide_eq_true_2; [reflexivity | by right | assumption].
        -- rewrite !bool_decide_eq_false_2; [reflexivity | | assumption].
           rewrite elem_of_cons. tauto.
    + rewrite length_zip_with_l_eq; [reflexivity | by symmetry].
    + intros v' Hv'. apply Hvs. by right.
Qed.

Lemma compute_intercept_based_spec (df : list row) :
  _compute_intercept_based df
  = Ok (map (fun r => sub (Points r) (group_min df (Variable_ r))) df,
        sum (map (group_min df) (unique (map Variable_ df)))).
Proof.
  unfold _compute_intercept_based.
  rewrite intercept_based_loop_spec.
  - do 2 f_equal.
    rewrite (zip_with_pointwise _
               (fun r _ => sub (Points r) (group_min df (Variable_ r)))).
    + apply zip_with_replace. apply length_replicate.
    + intros r old Hr. rewrite bool_decide_eq_true_2; [reflexivity|].
      apply elem_of_unique. apply list_elem_of_In, in_map, list_elem_of_In, Hr.
  - apply length_replicate.
  - intros v. apply elem_of_unique.
Qed.

Lemma group_real (t : list (string * R)) (v : string) :
  group (real_df t) v = map fin (real_group t v).
Proof.
  unfold group, real_group, real_df.
  induction t as [|r t IH]; [reflexivity|].
  cbn [map]. rewrite !filter_cons. cbn [real_row Variable_].
  destruct (decide (r.1 = v)); cbn [map]; by rewrite IH.
Qed.

Lemma Variable_real_df (t : list (string * R)) :
  map Variable_ (real_df t) = map fst t.
Proof. unfold real_df. rewrite map_map. reflexivity. Qed.

Lemma real_group_nonempty (t : list (string * R)) (v : string) :
  v ∈ map fst t -> real_group t v <> [].
Proof.
  intros H. rewrite <- Variable_real_df in H. apply group_nonempty in H.
  rewrite group_real in H. by destruct (real_group t v).
Qed.

Lemma group_min_real (t : list (string * R)) (v : string) :
  v ∈ map fst t -> group_min (real_df t) v = fin (real_group_min t v).
Proof.
  intros H. unfold group_min. rewrite group_real.
  by rewrite min_real by (by apply real_group_nonempty).
Qed.

(** On a real table: the new points and the intercept as real numbers. *)
Lemma compute_intercept_based_real (t : list (string * R)) :
  _compute_intercept_based (real_df t)
  = Ok (map fin (map (fun r => r.2 - real_group_min t r.1) t),
        fin (Rsum (map (real_group_min t) (unique (map fst t))))).
Proof.
  rewrite compute_intercept_based_spec. rewrite Variable_real_df. do 2 f_equal.
  - unfold real_df. rewrite !map_map. apply map_ext_in. intros r Hr.
    cbn [real_row Variable_ Points].
    rewrite group_min_real by (apply list_elem_of_In, in_map, Hr).
    reflexivity.
  - rewrite <- sum_fin, map_map. f_equal. apply map_ext_in. intros v Hv.
    apply group_min_real. by apply elem_of_unique, list_elem_of_In.
Qed.

Lemma Rsum_Permutation (xs ys : list R) : xs ≡ₚ ys -> Rsum xs = Rsum ys.
Proof.
  induction 1 as [|x xs ys _ IH|x y xs|xs ys zs _ IH1 _ IH2]; cbn [Rsum foldr].
  - reflexivity.
  - fold (Rsum xs) (Rsum ys). lra.
  - lra.
  - congruence.
Qed.

(** The rows of one variable after every point was moved by an amount
    that depends on the variable only. *)
Lemma real_group_shifted (t : list (string * R)) (shift : string -> R) (v : string) :
  real_group (zip (map fst t) (map (fun r => r.2 - shift r.1) t)) v
  = map (fun p => - shift v + 1 * p) (real_group t v).
Proof.
  unfold real_group. induction t as [|r t IH]; [reflexivity|].
  cbn [map zip zip_with]. rewrite !filter_cons. cbn [fst].
  destruct (decide (r.1 = v)) as [Hv|Hv]; cbn [map snd]; rewrite IH;
    [|reflexivity].
  f_equal. rewrite Hv. lra.
Qed.

Lemma elem_of_zip_map {X Y} (f : X -> Y) (xs : list X) (o : X * Y) :
  o ∈ zip xs (map f xs) -> o.2 = f o.1.
Proof.
  induction xs as [|x xs IH]; cbn [map zip zip_with].
  - intros H. by apply elem_of_nil in H.
  - rewrite elem_of_cons. intros [->|H]; [reflexivity | by apply IH].
Qed.

Lemma rebalanced_min_zero (t : list (string * R)) (v : string) :
  v ∈ map fst t ->
  min (group (real_df (zip (map fst t)
                         (map (fun r => r.2 - real_group_min t r.1) t))) v)
  = Ok (fin 0).
Proof.
  intros Hv. rewrite group_real, real_group_shifted.
  pose proof (real_group_nonempty t v Hv) as Hne.
  rewrite min_real by (by destruct (real_group t v)).
  rewrite Rmin_list_increasing by (lra || assumption).
  do 2 f_equal. unfold real_group_min. lra.
Qed.

(** C6.  On every real table the rebalancer subtracts from each row an
    amount that depends on the row's variable only; the points it returns
    are never negative and every variable has a row with 0 points, so the
    smallest point of each variable is exactly 0; the intercept returned is
    the sum of the amounts subtracted, one per variable; and for an
    observation (one row of each variable) the original points add up to
    the new points plus the intercept. *)
Theorem intercept_based_rebalances (t : list (string * R)) :
  exists (new_points : list R) (intercept : R) (removed : string -> R),
    _compute_intercept_based (real_df t) = Ok (map fin new_points, fin intercept)
    /\ Forall2 (fun r q => q = r.2 - removed r.1 /\ 0 <= q) t new_points
    /\ (forall v, v ∈ map fst t ->
          exists (i : nat) (p : R),
            t !! i = Some (v, p) /\ new_points !! i = Some 0)
    /\ (forall vs : list string,
          NoDup vs -> (forall v, v ∈ vs <-> v ∈ map fst t) ->
          intercept = Rsum (map removed vs))
    /\ (forall obs : list (string * R * R),
          Forall (fun o => o ∈ zip t new_points) obs ->
          NoDup (map (fun o => o.1.1) obs) ->
          (forall v, v ∈ map (fun o => o.1.1) obs <-> v ∈ map fst t) ->
          Rsum (map (fun o => o.1.2) obs) = Rsum (map snd obs) + intercept).
Proof.
  exists (map (fun r => r.2 - real_group_min t r.1) t),
         (Rsum (map (real_group_min t) (unique (map fst t)))),
         (real_group_min t).
  assert (Hperm : forall vs : list string,
            NoDup vs -> (forall v, v ∈ vs <-> v ∈ map fst t) ->
            vs ≡ₚ unique (map fst t)).
  { intros vs Hnd Hvs. apply NoDup_Permutation; [exact Hnd | apply NoDup_unique|].
    intros v. by rewrite elem_of_unique. }
  assert (Hmember : forall v p, (v, p) ∈ t -> In p (real_group t v)).
  { intros v p Hin. unfold real_group. apply (in_map snd _ (v, p)).
    apply list_elem_of_In, list_elem_of_filter. by split. }
  split; [apply compute_intercept_based_real|].
  split; [|split; [|split]].
  - apply Forall2_map_elem. intros [v p] Hin. cbn [fst snd].
    split; [reflexivity|].
    pose proof (Rmin_list_le p _ (Hmember v p Hin)). unfold real_group_min. lra.
  - intros v Hv. pose proof (real_group_nonempty t v Hv) as Hne.
    apply Rmin_list_In in Hne. fold (real_group_min t v) in Hne.
    unfold real_group in Hne. apply in_map_iff in Hne as ([v' p] & Hp & Hin).
    apply list_elem_of_In, list_elem_of_filter in Hin as [Hv' Hin].
    cbn [fst snd] in Hp, Hv'. subst v'.
    apply list_elem_of_lookup_1 in Hin as [i Hi].
    exists i, p. split; [exact Hi|].
    rewrite list_lookup_fmap, Hi. cbn [fmap option_fmap option_map fst snd].
    f_equal. lra.
  - intros vs Hnd Hvs.
    apply Rsum_Permutation, Permutation_map. symmetry. by apply Hperm.
  - intros obs Hobs Hnd Hvs.
    rewrite <- (Rsum_Permutation _ _
                  (Permutation_map (real_group_min t) (Hperm _ Hnd Hvs))).
    rewrite map_map. clear Hnd Hvs.
    induction Hobs as [|o obs Ho _ IH]; cbn [map Rsum foldr]; [lra|].
    fold (Rsum (map (fun o => o.1.2) obs)) (Rsum (map snd obs))
         (Rsum (map (fun o => real_group_min t o.1.1) obs)).
    apply elem_of_zip_map in Ho. rewrite Ho. lra.
Qed.

(** *** Idempotence *)

Lemma Rsum_zeros {X} (f : X -> R) (xs : list X) :
  (forall x, x ∈ xs -> f x = 0) -> Rsum (map f xs) = 0.
Proof.
  induction xs as [|x xs IH]; intros H; cbn [map Rsum foldr]; [reflexivity|].
  fold (Rsum (map f xs)). rewrite H by left. rewrite IH; [lra|].
  intros x' Hx'. apply H. by right.
Qed.

(** A table whose per-variable minima are all 0 is left as it is. *)
Lemma intercept_based_fixed (t : list (string * R)) :
  (forall v, v ∈ map fst t -> min (group (real_df t) v) = Ok (fin 0)) ->
  _compute_intercept_based (real_df t) = Ok (map Points (real_df t), fin 0).
Proof.
  intros Hzero.
  assert (Hmin : forall v, v ∈ map fst t -> real_group_min t v = 0).
  { intros v Hv. specialize (Hzero v Hv).
    rewrite min_group in Hzero by (by rewrite Variable_real_df).
    rewrite group_min_real in Hzero by assumption. congruence. }
  rewrite compute_intercept_based_real, Points_real_df. do 3 f_equal.
  - apply map_ext_in. intros r Hr. rewrite Hmin; [lra|].
    apply list_elem_of_In, in_map, Hr.
  - apply Rsum_zeros. intros v Hv. apply Hmin. by apply elem_of_unique.
Qed.

Lemma set_Points_real (t : list (string * R)) (new_points : list R) :
  length new_points = length t ->
  set_Points (real_df t) (map fin new_points)
  = Ok (real_df (zip (map fst t) new_points)).
Proof.
  intros Hlen. unfold set_Points, real_df.
  rewrite decide_True by (by rewrite !length_map).
  f_equal. revert new_points Hlen.
  induction t as [|r t IH]; intros [|p ps] Hlen; try discriminate;
    [reflexivity|].
  cbn [map zip zip_with]. f_equal. apply IH. by injection Hlen.
Qed.

Lemma fst_zip_map {X Y Z} (f : X -> Y) (g : X -> Z) (xs : list X) :
  map fst (zip (map f xs) (map g xs)) = map f xs.
Proof. induction xs as [|x xs IH]; [reflexivity|]. cbn. by rewrite IH. Qed.

Lemma snd_zip_map {X Y Z} (f : X -> Y) (g : X -> Z) (xs : list X) :
  map snd (zip (map f xs) (map g xs)) = map g xs.
Proof. induction xs as [|x xs IH]; [reflexivity|]. cbn. by rewrite IH. Qed.

(** C7.  The rebalancer is idempotent: a real table whose per-variable
    minima are all 0 comes back with its points unchanged and an intercept
    of 0; and on any real table, running it again on the table it
    produced returns the same points and an intercept of 0. *)
Theorem intercept_based_idempotent (t : list (string * R)) :
  ((forall v, v ∈ map fst t -> min (group (real_df t) v) = Ok (fin 0)) ->
   _compute_intercept_based (real_df t) = Ok (map Points (real_df t), fin 0))
  /\ (exists new_points intercept df_rebalanced,
        _compute_intercept_based (real_df t) = Ok (new_points, intercept)
        /\ set_Points (real_df t) new_points = Ok df_rebalanced
        /\ _compute_intercept_based df_rebalanced = Ok (new_points, fin 0)).
Proof.
  split; [apply intercept_based_fixed|].
  set (new := map (fun r => r.2 - real_group_min t r.1) t).
  exists (map fin new),
         (fin (Rsum (map (real_group_min t) (unique (map fst t))))),
         (real_df (zip (map fst t) new)).
  split; [apply compute_intercept_based_real|].
  split; [apply set_Points_real; apply length_map|].
  rewrite intercept_based_fixed.
  - subst new. by rewrite Points_real_df, snd_zip_map.
  - subst new. rewrite fst_zip_map. intros v Hv. by apply rebalanced_min_zero.
Qed.

End intercept_based.

(** ** Validation of the scaling options *)

Section validation.
Import NP.

Lemma check_parameters_tag (m : option string) (p : option dict) :
  _check_parameters m p = Ok tt ->
  forall s, m = Some s -> s ∈ ["pdo_odds"; "min_max"].
Proof.
  intros H s ->. unfold _check_parameters in H.
  destruct (decide (s ∉ ["pdo_odds"; "min_max"])) as [|Hs]; [discriminate|].
  by apply dec_stable.
Qed.

Lemma lookup_of_dom (d : dict) (ks : list string) (k : string) :
  ¬ dom d ≠ list_to_set ks -> k ∈ ks -> is_Some (d !! k).
Proof.
  intros Hd Hk. apply dec_stable in Hd.
  apply elem_of_dom. rewrite Hd. by apply elem_of_list_to_set.
Qed.

(** What a value of "pdo_odds" has to be, against what the code tests. *)
Lemma strictly_positive_leb (d : dict) (k : string) (x : float64) :
  d !! k = Some (PyNum x) -> x <> nan ->
  strictly_positive d k <-> leb x (fin 0) = false.
Proof.
  intros E Hx. unfold strictly_positive. rewrite E.
  destruct x as [r| | |]; cbn [leb].
  - destruct (Rle_dec r 0); split; intros; try reflexivity; try discriminate;
      lra.
  - split; [reflexivity | intros _; exact I].
  - split; [intros [] | discriminate].
  - congruence.
Qed.

Lemma rejected_not_positive (d : dict) (k : string) (x : float64) :
  d !! k = Some (PyNum x) -> leb x (fin 0) = true -> ~ strictly_positive d k.
Proof.
  intros E Hle Hpos. destruct x as [r| | |]; try discriminate.
  - apply (strictly_positive_leb d k (fin r) E) in Hpos; congruence.
  - unfold strictly_positive in Hpos. by rewrite E in Hpos.
Qed.

Lemma not_number_not_positive (d : dict) (k : string) (v : pyobj) :
  d !! k = Some v -> (forall x, v <> PyNum x) -> ~ strictly_positive d k.
Proof.
  intros E Hv. unfold strictly_positive. rewrite E.
  destruct v as [x| | |]; try tauto. by destruct (Hv x).
Qed.

Lemma real_values_number (d : dict) (k : string) (x : float64) :
  real_values d -> d !! k = Some (PyNum x) -> x <> nan.
Proof. intros Hreal E ->. by apply Hreal in E. Qed.

Lemma real_values_no_complex (d : dict) : real_values d -> ~ has_complex d.
Proof. intros Hreal (k & re & im & E). by apply Hreal in E. Qed.

Lemma complex_of_dom (d : dict) (ks : list string) :
  ¬ dom d ≠ list_to_set ks -> has_complex d ->
  exists k re im, k ∈ ks /\ d !! k = Some (PyComplex re im).
Proof.
  intros Hd (k & re & im & E). exists k, re, im. split; [|exact E].
  apply dec_stable in Hd. apply (elem_of_list_to_set (C := gset string)).
  rewrite <- Hd. apply elem_of_dom. by eexists.
Qed.

(** One value of "pdo_odds" in the loop of the validation: it is rejected,
    it cannot be compared, or the loop goes on. *)
Local Ltac pdo_value k v E Hclaimed :=
  let x := fresh "x" in
  let L := fresh "L" in
  destruct v as [x|?re ?im|?s|];
    cbn [is_number negb ordered mbind result_bind];
    [ destruct (leb x (fin 0)) eqn:L; cbn [mbind result_bind];
      [ left; split; [reflexivity|]; left;
        apply (Hclaimed k); [repeat constructor|];
        by eapply rejected_not_positive
      | ]
    | right; right; split; [reflexivity|]; split; [discriminate|];
      by eexists k, _, _
    | left; split; [reflexivity|]; left;
      apply (Hclaimed k); [repeat constructor|];
      eapply not_number_not_positive; [exact E | intros ?; discriminate]
    | left; split; [reflexivity|]; left;
      apply (Hclaimed k); [repeat constructor|];
      eapply not_number_not_positive; [exact E | intros ?; discriminate] ].

(** The three ways the validation ends on a dictionary, for a method tag
    that [_check_parameters] lets through, and what each says of the
    parameters. *)
Lemma check_scorecard_scaling_cases (m : option string) (d : dict)
    (target : string) :
  (forall s, m = Some s -> s ∈ ["pdo_odds"; "min_max"]) ->
  (_check_scorecard_scaling m (Some d) target = Raise ValueError
   /\ scaling_error m d target)
  \/ (_check_scorecard_scaling m (Some d) target = Ok tt
      /\ (m <> None -> ~ has_complex d)
      /\ (real_values d -> ~ scaling_error m d target))
  \/ (_check_scorecard_scaling m (Some d) target = Raise TypeError
      /\ m <> None /\ has_complex d).
Proof.
  intros Htag. destruct m as [s|].
  2:{ right; left. split; [reflexivity|]. split; [congruence|].
      intros _ [[]|[[=] _]]. }
  specialize (Htag s eq_refl).
  assert (Hs : s = "pdo_odds" \/ s = "min_max").
  { rewrite !elem_of_cons in Htag. destruct Htag as [|[|H]]; auto.
    by apply elem_of_nil in H. }
  unfold _check_scorecard_scaling, scaling_error.
  destruct Hs as [-> | ->].
  - rewrite !decide_True by reflexivity.
    destruct (decide (target ≠ "binary")) as [Ht|Ht].
    { left. split; [reflexivity|]. left. left. tauto. }
    cbn [mbind result_bind keys local].
    destruct (decide (dom d ≠ list_to_set ["pdo"; "odds"; "scorecard_points"]))
      as [Hd|Hd].
    { left. split; [reflexivity|]. left. left. tauto. }
    destruct (lookup_of_dom d _ "pdo" Hd) as [v1 E1]; [repeat constructor|].
    destruct (lookup_of_dom d _ "odds" Hd) as [v2 E2]; [repeat constructor|].
    destruct (lookup_of_dom d _ "scorecard_points" Hd) as [v3 E3];
      [repeat constructor|].
    cbn [for_each]. unfold getitem. rewrite E1, E2, E3.
    cbn [mbind result_bind]. rewrite decide_True by reflexivity.
    assert (Hclaimed : forall k, k ∈ ["pdo"; "odds"; "scorecard_points"] ->
              ~ strictly_positive d k ->
              claimed_scaling_error (Some "pdo_odds") d target).
    { intros k Hk Hnp. left. split; [reflexivity|]. rewrite !elem_of_cons in Hk.
      destruct Hk as [->|[->|[->|Hk]]]; [tauto..|by apply elem_of_nil in Hk]. }
    pdo_value "pdo" v1 E1 Hclaimed.
    pdo_value "odds" v2 E2 Hclaimed.
    pdo_value "scorecard_points" v3 E3 Hclaimed.
    right; left. split; [reflexivity|]. split.
    + intros _ Hc.
      destruct (complex_of_dom d _ Hd Hc) as (k & re & im & Hk & E).
      rewrite !elem_of_cons in Hk.
      destruct Hk as [->|[->|[->|Hk]]];
        [congruence..|by apply elem_of_nil in Hk].
    + intros Hreal [[[_ Hc]|[[=] _]]|[[=] _]].
      destruct Hc as [?|[?|[Hp|[Hp|Hp]]]]; [contradiction..| | |];
        apply Hp; eapply strictly_positive_leb;
        eauto using real_values_number.
  - rewrite !decide_False by discriminate. rewrite !decide_True by reflexivity.
    cbn [mbind result_bind keys local].
    destruct (decide (dom d ≠ list_to_set ["min"; "max"])) as [Hd|Hd].
    { left. split; [reflexivity|]. left. right. tauto. }
    destruct (lookup_of_dom d _ "min" Hd) as [v1 E1]; [repeat constructor|].
    destruct (lookup_of_dom d _ "max" Hd) as [v2 E2]; [repeat constructor|].
    cbn [for_each]. unfold getitem. rewrite E1, E2.
    cbn [mbind result_bind]. rewrite decide_False by discriminate.
    rewrite decide_True by reflexivity.
    assert (H1 : is_number v1 = false -> not_numeric d "min")
      by (intros Hn; unfold not_numeric; by rewrite E1, Hn).
    assert (H2 : is_number v2 = false -> not_numeric d "max")
      by (intros Hn; unfold not_numeric; by rewrite E2, Hn).
    destruct (is_number v1) eqn:N1; cbn [mbind result_bind];
      [|left; split; [reflexivity|]; right; split; [reflexivity|]; left; auto].
    destruct (is_number v2) eqn:N2; cbn [mbind result_bind];
      [|left; split; [reflexivity|]; right; split; [reflexivity|]; right;
        auto].
    destruct v1 as [x1|re1 im1|s1|]; try discriminate;
      cbn [ordered mbind result_bind];
      [|right; right; split; [reflexivity|]; split; [discriminate|];
        by exists "min", re1, im1].
    destruct v2 as [x2|re2 im2|s2|]; try discriminate;
      cbn [ordered mbind result_bind];
      [|right; right; split; [reflexivity|]; split; [discriminate|];
        by exists "max", re2, im2].
    destruct (ltb x2 x1) eqn:L.
    + left. split; [reflexivity|]. left. right. split; [reflexivity|]. right.
      unfold min_above_max. by rewrite E1, E2, L.
    + right; left. split; [reflexivity|]. split.
      * intros _ Hc.
        destruct (complex_of_dom d _ Hd Hc) as (k & re & im & Hk & E).
        rewrite !elem_of_cons in Hk.
        destruct Hk as [->|[->|Hk]]; [congruence..|by apply elem_of_nil in Hk].
      * intros _ [[[[=] _]|[_ [Hc|Hc]]]|[_ [Hc|Hc]]].
        -- contradiction.
        -- unfold min_above_max in Hc. by rewrite E1, E2, L in Hc.
        -- unfold not_numeric in Hc. by rewrite E1 in Hc.
        -- unfold not_numeric in Hc. by rewrite E2 in Hc.
Qed.

(** C8 (amended).  For a method tag that [_check_parameters] lets through
    and parameter values that are real numbers other than NaN, or not
    numbers at all, the validation raises [ValueError] exactly when: the
    method is "pdo_odds" and the target is not binary; the parameter keys
    are not exactly those of the method; one of [pdo], [odds],
    [scorecard_points] is not a strictly positive number; [min] or [max] is
    not a number; or [min > max].  Otherwise it returns.  A parameter that
    is a complex number never passes: the validation raises [ValueError] or,
    from the comparison, [TypeError], which it raises in no other case. *)
Theorem check_scorecard_scaling_raises (m : option string) (d : dict)
    (target : string) :
  (forall s, m = Some s -> s ∈ ["pdo_odds"; "min_max"]) ->
  (real_values d ->
   (scaling_error m d target ->
    _check_scorecard_scaling m (Some d) target = Raise ValueError)
   /\ (~ scaling_error m d target ->
       _check_scorecard_scaling m (Some d) target = Ok tt))
  /\ (m <> None -> has_complex d ->
      _check_scorecard_scaling m (Some d) target = Raise ValueError
      \/ _check_scorecard_scaling m (Some d) target = Raise TypeError)
  /\ (_check_scorecard_scaling m (Some d) target = Raise TypeError ->
      has_complex d).
Proof.
  intros Htag.
  destruct (check_scorecard_scaling_cases m d target Htag)
    as [[Hv Herr]|[(Hok & Hreal_only & Hnone)|(Ht & Hm & Hc)]].
  - rewrite Hv. split; [|split].
    + intros _. split; [reflexivity | intros Hn; by destruct Hn].
    + intros _ _. by left.
    + discriminate.
  - rewrite Hok. split; [|split].
    + intros Hreal. split; [intros Herr; by destruct (Hnone Hreal) | reflexivity].
    + intros Hm Hc. by destruct (Hreal_only Hm).
    + discriminate.
  - rewrite Ht. split; [|split].
    + intros Hreal. by destruct (real_values_no_complex d Hreal).
    + intros _ _. by right.
    + intros _. exact Hc.
Qed.

(** Real bounds in order pass the validation. *)
Lemma check_scorecard_scaling_min_max (a b : R) (target : string) :
  (a <= b)%R ->
  _check_scorecard_scaling (Some "min_max")
    (Some (min_max_params (PyNum (fin a)) (PyNum (fin b)))) target
  = Ok tt.
Proof.
  intros Hab. unfold _check_scorecard_scaling.
  rewrite !decide_False by discriminate. rewrite !decide_True by reflexivity.
  cbn [mbind result_bind keys local].
  rewrite decide_False by (intros Hd; by apply Hd).
  rewrite decide_False by discriminate. rewrite decide_True by reflexivity.
  cbn [for_each]. rewrite getitem_min, getitem_max.
  cbn [mbind result_bind is_number ordered].
  by rewrite ltb_fin_false.
Qed.

(** A bound that is a complex number cannot be compared. *)
Lemma check_scorecard_scaling_min_complex (re im : R) (hi : float64)
    (target : string) :
  _check_scorecard_scaling (Some "min_max")
    (Some (min_max_params (PyComplex re im) (PyNum hi))) target
  = Raise TypeError.
Proof.
  unfold _check_scorecard_scaling.
  rewrite !decide_False by discriminate. rewrite !decide_True by reflexivity.
  cbn [mbind result_bind keys local].
  rewrite decide_False by (intros Hd; by apply Hd).
  rewrite decide_False by discriminate. rewrite decide_True by reflexivity.
  cbn [for_each]. by rewrite getitem_min, getitem_max.
Qed.

(** A bound that is not a number is rejected. *)
Lemma check_scorecard_scaling_min_not_numeric (s : string) (hi : pyobj)
    (target : string) :
  _check_scorecard_scaling (Some "min_max")
    (Some (min_max_params (PyStr s) hi)) target
  = Raise ValueError.
Proof.
  unfold _check_scorecard_scaling.
  rewrite !decide_False by discriminate. rewrite !decide_True by reflexivity.
  cbn [mbind result_bind keys local].
  rewrite decide_False by (intros Hd; by apply Hd).
  rewrite decide_False by discriminate. rewrite decide_True by reflexivity.
  cbn [for_each]. by rewrite getitem_min.
Qed.

End validation.

(** ** The fit pipeline *)

Section fit.
Context `{RoundingMIP}.
Import NP.

Lemma set_Points_columns (df df' : list row) (values : list float64) :
  set_Points df values = Ok df' ->
  map Points df' = values /\ map Variable_ df' = map Variable_ df.
Proof.
  unfold set_Points. destruct (decide (length values = length df)) as [Hlen|];
    [|discriminate].
  intros [= <-]. revert values Hlen.
  induction df as [|r df IH]; intros [|v values] Hlen; try discriminate;
    [done|].
  injection Hlen as Hlen. destruct (IH values Hlen) as [IH1 IH2].
  cbn [zip_with map Points Variable_]. by rewrite IH1, IH2.
Qed.

Lemma set_Points_same_length (df : list row) (values : list float64) :
  length values = length df ->
  set_Points df values
  = Ok (zip_with (fun r p => Row (Variable_ r) p) df values).
Proof. intros Hlen. unfold set_Points. by rewrite decide_True. Qed.

(** A failed validation ends [_fit] whatever the data: nothing is computed
    before the options have been accepted. *)
Lemma fit_stops_at_validation (self : Scorecard) (intercept_0 : float64) (target : string)
    (selected_variables : list (string * list float64))
    (coef_ : option (list float64)) (estimator_intercept_ : option float64)
    (e : exn) :
  _check_scorecard_scaling (scaling_method self) (scaling_method_params self)
    target = Raise e ->
  exists e', _fit self intercept_0 target selected_variables coef_ estimator_intercept_
             = Raise e'.
Proof.
  intros Hcheck. unfold _fit, _fit_scorecard_table.
  destruct (_check_parameters _ _); cbn [mbind result_bind]; [|by eexists].
  destruct (decide (target ∉ ["binary"; "continuous"]));
    cbn [mbind result_bind]; [by eexists|].
  rewrite Hcheck. by eexists.
Qed.

(** Under "pdo_odds" the rounding step is [np.rint] on every point and
    cannot fail. *)
Lemma pdo_odds_rounding_rounds (self : Scorecard) (df : list row) :
  scaling_method self = Some "pdo_odds" ->
  rounding self = true ->
  exists df_rounded,
    _fit_rounding self df = Ok df_rounded
    /\ map Points df_rounded = map rint (map Points df)
    /\ map Variable_ df_rounded = map Variable_ df.
Proof.
  intros Hm Hr. unfold _fit_rounding. rewrite Hr, Hm.
  rewrite decide_True by reflexivity. cbn [local mbind result_bind].
  rewrite set_Points_same_length by (by rewrite !length_map).
  eexists. split; [reflexivity|].
  apply set_Points_columns, set_Points_same_length. by rewrite !length_map.
Qed.

(** C3.  With rounding enabled and no scaling method, the rounding step
    reads [round_points], which neither branch has assigned: once the
    scorecard table is built, [_fit] raises [UnboundLocalError] where the
    documentation promises points rounded to the nearest integer. *)
Theorem rounding_without_scaling_raises (self : Scorecard) (intercept_0 : float64) (target : string)
    (selected_variables : list (string * list float64))
    (coef_ : option (list float64)) (estimator_intercept_ : option float64)
    (df : list row) (c : float64) :
  scaling_method self = None ->
  rounding self = true ->
  _fit_scorecard_table self intercept_0 target selected_variables coef_
    estimator_intercept_ = Ok (df, c) ->
  _fit self intercept_0 target selected_variables coef_ estimator_intercept_
  = Raise UnboundLocalError.
Proof.
  intros Hm Hr Htable. unfold _fit. rewrite Htable.
  cbn [mbind result_bind]. unfold _fit_rounding. rewrite Hr, Hm.
  reflexivity.
Qed.

(** C4.  Under "min_max" with rounding enabled, when the optimiser
    returns a status other than "OPTIMAL" or "FEASIBLE", [_fit] does not
    fail: every row keeps its variable and gets its scaled point rounded to
    the nearest integer, a tie going to the even integer; the intercept is
    that of the scaled scorecard. *)
Theorem min_max_rounding_falls_back (self : Scorecard) (intercept_0 : float64)
    (target : string)
    (selected_variables : list (string * list float64))
    (coef_ : option (list float64)) (estimator_intercept_ : option float64)
    (df : list row) (c : float64) :
  scaling_method self = Some "min_max" ->
  rounding self = true ->
  _fit_scorecard_table self intercept_0 target selected_variables coef_
    estimator_intercept_ = Ok (df, c) ->
  (solve (build_model df)).1 ∉ ["OPTIMAL"; "FEASIBLE"] ->
  exists df_rounded,
    _fit self intercept_0 target selected_variables coef_ estimator_intercept_
    = Ok {| _df_scorecard := df_rounded; intercept_ := c |}
    /\ Forall2 (fun r r' =>
                  Variable_ r' = Variable_ r
                  /\ nearest_integer (Points r) (Points r'))
         df df_rounded.
Proof.
  intros Hm Hr Htable Hstatus. unfold _fit. rewrite Htable.
  cbn [mbind result_bind]. unfold _fit_rounding. rewrite Hr, Hm.
  rewrite decide_False by discriminate. rewrite decide_True by reflexivity.
  destruct (solve (build_model df)) as [status round_points].
  cbn [fst] in Hstatus. rewrite decide_True by assumption.
  cbn [local mbind result_bind].
  rewrite set_Points_same_length by (by rewrite !length_map).
  cbn [mbind result_bind]. eexists. split; [reflexivity|].
  clear. induction df as [|r df IH]; cbn [map zip_with]; constructor;
    [|exact IH].
  cbn [Variable_ Points]. split; [reflexivity | apply rint_nearest].
Qed.

End fit.

(** ** Concrete scorecards *)

Section concrete.
Local Open Scope R_scope.
Import NP.

(** Decide the comparisons of concrete reals met in a goal. *)
Local Ltac real_cases :=
  repeat match goal with
    | |- context [Req_dec_T ?x ?y] =>
        destruct (Req_dec_T x y); try (exfalso; lra)
    | |- context [Rlt_dec ?x ?y] =>
        destruct (Rlt_dec x y); try (exfalso; lra)
    | |- context [Rle_dec ?x ?y] =>
        destruct (Rle_dec x y); try (exfalso; lra)
    end.

Local Ltac real_value :=
  unfold min_max_base, min_max_slope, Rmin, Rmax;
  cbn [Rsum foldr foldl map Rmin_list Rmax_list length INR fst snd];
  unfold Rmin, Rmax; real_cases; lra.

Local Ltac fin_values :=
  lazymatch goal with
  | |- Ok _ = Ok _ => f_equal; fin_values
  | |- _ :: _ = _ :: _ => f_equal; fin_values
  | |- fin _ = fin _ => f_equal; real_value
  | |- _ => reflexivity
  end.

Local Ltac nonempty_tables :=
  repeat first [ apply List.Forall_nil
               | apply List.Forall_cons; [discriminate|] ].

Local Ltac not_in_list :=
  let H := fresh in
  intros H;
  repeat (apply elem_of_cons in H as [H|H]; [discriminate|]);
  by apply elem_of_nil in H.

Lemma total_min_real_df (tables : list (list (string * R))) (min_p : R) :
  Forall (fun t => t <> []) tables ->
  Rsum (map Rmin_list (map (map snd) tables)) = min_p ->
  total_min (map (map Points) (map real_df tables)) = Ok (fin min_p).
Proof.
  intros Hne <-. rewrite Points_real_tables.
  apply total_min_real. by apply Forall_nonempty_map.
Qed.

Lemma total_max_real_df (tables : list (list (string * R))) (max_p : R) :
  Forall (fun t => t <> []) tables ->
  Rsum (map Rmax_list (map (map snd) tables)) = max_p ->
  total_max (map (map Points) (map real_df tables)) = Ok (fin max_p).
Proof.
  intros Hne <-. rewrite Points_real_tables.
  apply total_max_real. by apply Forall_nonempty_map.
Qed.

(** One variable with raw points 0 and 1, bounds 0 and 100. *)
Lemma two_bins_total_min :
  total_min (map (map Points) (map real_df [[("x", 0); ("x", 1)]])) = Ok (fin 0).
Proof.
  apply total_min_real_df; [nonempty_tables | real_value].
Qed.

Lemma two_bins_total_max :
  total_max (map (map Points) (map real_df [[("x", 0); ("x", 1)]])) = Ok (fin 1).
Proof.
  apply total_max_real_df; [nonempty_tables | real_value].
Qed.

Lemma two_bins_scaled (reverse_scorecard : bool) :
  _compute_scorecard_points [fin 0; fin 1] (map real_df [[("x", 0); ("x", 1)]])
    "min_max" (Some (min_max_params (PyNum (fin 0)) (PyNum (fin 100))))
    (fin 0) reverse_scorecard
  = Ok (if reverse_scorecard then [fin 0; fin 100] else [fin 100; fin 0]).
Proof.
  change [fin 0; fin 1] with (map fin [0; 1]).
  rewrite (min_max_points_real _ _ 0 100 0 reverse_scorecard 0 1).
  - destruct reverse_scorecard; cbn [map]; fin_values.
  - apply two_bins_total_min.
  - apply two_bins_total_max.
  - lra.
  - discriminate.
Qed.

(** C1, as stated, fails: with [reverse_scorecard] the smallest total of the
    scaled points is the configured minimum 0, not the configured maximum
    100. *)
Lemma min_max_reversed_minimum_is_min :
  let binning_tables := map real_df [[("x", 0); ("x", 1)]] in
  0 <= 100
  /\ total_min (map (map Points) binning_tables) = Ok (fin 0)
  /\ total_max (map (map Points) binning_tables) = Ok (fin 1)
  /\ 0 + 1 <> 0 + 0
  /\ _compute_scorecard_points (map Points (concat binning_tables))
       binning_tables "min_max"
       (Some (min_max_params (PyNum (fin 0)) (PyNum (fin 100)))) (fin 0) true
     = Ok [fin 0; fin 100]
  /\ total_min [[fin 0; fin 100]] = Ok (fin 0)
  /\ total_min [[fin 0; fin 100]] <> Ok (fin 100).
Proof.
  assert (Hmin : total_min [[fin 0; fin 100]] = Ok (fin 0)).
  { change [[fin 0; fin 100]] with (map (map fin) [[0; 100]]).
    rewrite total_min_real by nonempty_tables. fin_values. }
  repeat split.
  - lra.
  - apply two_bins_total_min.
  - apply two_bins_total_max.
  - lra.
  - apply (two_bins_scaled true).
  - exact Hmin.
  - rewrite Hmin. intros [= E]. lra.
Qed.

Lemma min_max_total_range_witness :
  let tables := [[("x", 0); ("x", 1)]] in
  let binning_tables := map real_df tables in
  0 <= 100
  /\ total_min (map (map Points) binning_tables) = Ok (fin 0)
  /\ total_max (map (map Points) binning_tables) = Ok (fin 1)
  /\ 0 + 1 <> 0 + 0
  /\ exists scaled : list (list R),
       _compute_scorecard_points (map Points (concat binning_tables))
         binning_tables "min_max"
         (Some (min_max_params (PyNum (fin 0)) (PyNum (fin 100)))) (fin 0) true
       = Ok (map fin (concat scaled))
       /\ Forall2 (fun t s => length t = length s) tables scaled
       /\ total_min (map (map fin) scaled) = Ok (fin 0)
       /\ total_max (map (map fin) scaled) = Ok (fin 100).
Proof.
  assert (H1 : 0 <= 100) by lra.
  assert (H2 : 0 + 1 <> 0 + 0) by lra.
  split; [exact H1|]. split; [apply two_bins_total_min|].
  split; [apply two_bins_total_max|]. split; [exact H2|].
  exact (min_max_total_range [[("x", 0); ("x", 1)]] 0 100 0 true 0 1 H1
           two_bins_total_min two_bins_total_max H2).
Defined.

(** The sample of the specification: two variables with one bin each, raw
    points 1 and 3, intercept 1/2, bounds 0 and 100. *)
Lemma one_bin_total_min :
  total_min (map (map Points) [[Row "x" (fin 1)]; [Row "y" (fin 3)]])
  = Ok (fin 4).
Proof.
  change [[Row "x" (fin 1)]; [Row "y" (fin 3)]]
    with (map real_df [[("x", 1)]; [("y", 3)]]).
  apply total_min_real_df; [nonempty_tables | real_value].
Qed.

Lemma one_bin_total_max :
  total_max (map (map Points) [[Row "x" (fin 1)]; [Row "y" (fin 3)]])
  = Ok (fin 4).
Proof.
  change [[Row "x" (fin 1)]; [Row "y" (fin 3)]]
    with (map real_df [[("x", 1)]; [("y", 3)]]).
  apply total_max_real_df; [nonempty_tables | real_value].
Qed.

(** C2, as stated, fails: on a degenerate score range the code raises
    nothing and returns NaN for every point. *)
Lemma min_max_degenerate_returns_nan :
  let binning_tables := [[Row "x" (fin 1)]; [Row "y" (fin 3)]] in
  total_min (map (map Points) binning_tables) = Ok (fin 4)
  /\ total_max (map (map Points) binning_tables) = Ok (fin 4)
  /\ _compute_scorecard_points [fin 1; fin 3] binning_tables "min_max"
       (Some (min_max_params (PyNum (fin 0)) (PyNum (fin 100))))
       (fin (1 / 2)) false
     = Ok [nan; nan].
Proof.
  split; [apply one_bin_total_min|]. split; [apply one_bin_total_max|].
  unfold _compute_scorecard_points.
  rewrite decide_False by discriminate. rewrite decide_True by reflexivity.
  rewrite getitem_min, getitem_max.
  unfold Series_min, Series_max.
  repeat (cbn [mbind result_bind map Points List.filter notna foldl
               number sum add sub neg mul div inf negb length INR];
          unfold inf_times, of_nat;
          real_cases).
  reflexivity.
Qed.

Lemma min_max_degenerate_not_finite_witness :
  let binning_tables := [[Row "x" (fin 1)]; [Row "y" (fin 3)]] in
  total_min (map (map Points) binning_tables) = Ok (fin 4)
  /\ total_max (map (map Points) binning_tables) = Ok (fin 4)
  /\ 1 / 2 + 4 = 1 / 2 + 4
  /\ exists new_points,
       _compute_scorecard_points (map fin [1; 3]) binning_tables "min_max"
         (Some (min_max_params (PyNum (fin 0)) (PyNum (fin 100))))
         (fin (1 / 2)) false
       = Ok new_points
       /\ length new_points = length [1; 3]
       /\ Forall (fun v => is_finite v = false) new_points.
Proof.
  split; [apply one_bin_total_min|]. split; [apply one_bin_total_max|].
  split; [reflexivity|].
  exact (min_max_degenerate_not_finite [1; 3] _ 0 100 (1 / 2) false 4 4
           one_bin_total_min one_bin_total_max eq_refl).
Defined.

(** *** Fits without a scaling method *)

Lemma raw_rounded_table :
  _fit_scorecard_table raw_rounded new_intercept_ "binary" [("x", [fin 1; fin 3])]
    (Some [fin 1]) None
  = Ok ([Row "x" (fin (1 * 1)); Row "x" (fin (3 * 1))], fin 0).
Proof. reflexivity. Qed.

Lemma rounding_without_scaling_raises_witness :
  scaling_method raw_rounded = None
  /\ rounding raw_rounded = true
  /\ _fit_scorecard_table raw_rounded new_intercept_ "binary" [("x", [fin 1; fin 3])]
       (Some [fin 1]) None
     = Ok ([Row "x" (fin (1 * 1)); Row "x" (fin (3 * 1))], fin 0)
  /\ @_fit failing_mip raw_rounded new_intercept_ "binary" [("x", [fin 1; fin 3])]
       (Some [fin 1]) None
     = Raise UnboundLocalError.
Proof.
  split; [reflexivity|]. split; [reflexivity|].
  split; [apply raw_rounded_table|].
  exact (@rounding_without_scaling_raises failing_mip raw_rounded
           new_intercept_ "binary" [("x", [fin 1; fin 3])] (Some [fin 1]) None
           _ _ eq_refl eq_refl raw_rounded_table).
Defined.

(** *** A fit with min/max scaling and a failing optimiser *)

(** One variable with statistic values 0, 1 and 3 and coefficient 1: the
    scaled points are 100, 200/3 and 0. *)
Lemma three_bins_total_min :
  total_min (map (map Points) (map real_df [[("x", 0); ("x", 1); ("x", 3)]]))
  = Ok (fin 0).
Proof.
  apply total_min_real_df; [nonempty_tables|].
  cbn [Rsum foldr foldl map Rmin_list snd].
  rewrite (Rmin_left 0 1), (Rmin_left 0 3) by lra. lra.
Qed.

Lemma three_bins_total_max :
  total_max (map (map Points) (map real_df [[("x", 0); ("x", 1); ("x", 3)]]))
  = Ok (fin 3).
Proof.
  apply total_max_real_df; [nonempty_tables|].
  cbn [Rsum foldr foldl map Rmax_list snd].
  rewrite (Rmax_right 0 1), (Rmax_right 1 3) by lra. lra.
Qed.

Lemma three_bins_scaled :
  _compute_scorecard_points [fin 0; fin 1; fin 3]
    (map real_df [[("x", 0); ("x", 1); ("x", 3)]])
    "min_max" (Some (min_max_params (PyNum (fin 0)) (PyNum (fin 100))))
    (fin 0) false
  = Ok [fin 100; fin (200 / 3); fin 0].
Proof.
  change [fin 0; fin 1; fin 3] with (map fin [0; 1; 3]).
  rewrite (min_max_points_real _ _ 0 100 0 false 0 3).
  - cbn [map]; fin_values.
  - apply three_bins_total_min.
  - apply three_bins_total_max.
  - lra.
  - discriminate.
Qed.

Lemma min_max_rounded_table :
  _fit_scorecard_table min_max_rounded new_intercept_ "continuous"
    [("x", [fin 0; fin 1; fin 3])] (Some [fin 1]) None
  = Ok ([Row "x" (fin 100); Row "x" (fin (200 / 3)); Row "x" (fin 0)], fin 0).
Proof.
  unfold _fit_scorecard_table, min_max_rounded.
  cbn [scaling_method scaling_method_params].
  rewrite check_scorecard_scaling_min_max by lra.
  change (_check_parameters _ _) with (Ok tt).
  rewrite decide_False by (intros Hn; apply Hn; repeat constructor).
  cbn [mbind result_bind default].
  change (build_binning_tables 0 [("x", [fin 0; fin 1; fin 3])] [fin 1])
    with (Ok [[Row "x" (fin (0 * 1)); Row "x" (fin (1 * 1));
               Row "x" (fin (3 * 1))]]).
  cbn [mbind result_bind pd_concat concat app].
  replace (0 * 1) with 0 by lra. replace (1 * 1) with 1 by lra.
  replace (3 * 1) with 3 by lra.
  unfold _fit_apply_score_points.
  cbn [scaling_method scaling_method_params reverse_scorecard intercept_based
       map Points].
  change [[Row "x" (fin 0); Row "x" (fin 1); Row "x" (fin 3)]]
    with (map real_df [[("x", 0); ("x", 1); ("x", 3)]]).
  rewrite three_bins_scaled. reflexivity.
Qed.

Lemma min_max_rounding_falls_back_witness :
  let df := [Row "x" (fin 100); Row "x" (fin (200 / 3)); Row "x" (fin 0)] in
  scaling_method min_max_rounded = Some "min_max"
  /\ rounding min_max_rounded = true
  /\ _fit_scorecard_table min_max_rounded new_intercept_ "continuous"
       [("x", [fin 0; fin 1; fin 3])] (Some [fin 1]) None
     = Ok (df, fin 0)
  /\ (fst (@solve failing_mip (@build_model failing_mip df))
      ∉ ["OPTIMAL"; "FEASIBLE"])
  /\ exists df_rounded,
       @_fit failing_mip min_max_rounded new_intercept_ "continuous"
         [("x", [fin 0; fin 1; fin 3])] (Some [fin 1]) None
       = Ok {| _df_scorecard := df_rounded; intercept_ := fin 0 |}
       /\ Forall2 (fun r r' =>
                     Variable_ r' = Variable_ r
                     /\ nearest_integer (Points r) (Points r'))
            df df_rounded.
Proof.
  intros df.
  assert (Hstatus :
    fst (@solve failing_mip (@build_model failing_mip df))
    ∉ ["OPTIMAL"; "FEASIBLE"]) by not_in_list.
  split; [reflexivity|]. split; [reflexivity|].
  split; [apply min_max_rounded_table|]. split; [exact Hstatus|].
  exact (@min_max_rounding_falls_back failing_mip min_max_rounded
           new_intercept_ "continuous" [("x", [fin 0; fin 1; fin 3])]
           (Some [fin 1]) None df (fin 0)
           eq_refl eq_refl min_max_rounded_table Hstatus).
Defined.

(** *** Odds-based scaling of one point *)

Lemma pdo_odds_points_witness :
  0 < 50
  /\ [[Row "x" (fin 1)]] <> []
  /\ _compute_scorecard_points (map fin [1]) [[Row "x" (fin 1)]] "pdo_odds"
       (Some (pdo_odds_params (PyNum (fin 20)) (PyNum (fin 50))
                (PyNum (fin 600))))
       (fin 0) false
     = Ok (map (fun p =>
                  fin (- (1 * p + 0 / INR (length [[Row "x" (fin 1)]]))
                       * (20 / ln 2)
                       + (600 - 20 / ln 2 * ln 50)
                         / INR (length [[Row "x" (fin 1)]])))
             [1]).
Proof.
  assert (H1 : 0 < 50) by lra.
  assert (H2 : [[Row "x" (fin 1)]] <> []) by discriminate.
  split; [exact H1|]. split; [exact H2|].
  exact (pdo_odds_points [1] [[Row "x" (fin 1)]] 20 50 600 0 false H1 H2).
Defined.

Lemma scaled_points_strictly_monotone_witness :
  nondegenerate (MinMax 0 100) (map real_df [[("x", 0); ("x", 1)]]) 0
  /\ exists d k : R,
       (forall points : list R,
          _compute_scorecard_points (map fin points)
            (map real_df [[("x", 0); ("x", 1)]])
            (method_of (MinMax 0 100)) (Some (params_of (MinMax 0 100)))
            (fin 0) false
          = Ok (map (fun p => fin (d + k * p)) points))
       /\ k < 0
       /\ (forall p1 p2 : R, p1 < p2 -> d + k * p2 < d + k * p1).
Proof.
  assert (Hnd : nondegenerate (MinMax 0 100)
                  (map real_df [[("x", 0); ("x", 1)]]) 0).
  { split; [lra|]. exists 0, 1.
    split; [apply two_bins_total_min|]. split; [apply two_bins_total_max|].
    lra. }
  split; [exact Hnd|].
  exact (scaled_points_strictly_monotone (MinMax 0 100) _ 0 false Hnd).
Defined.

(** *** A table that is already rebalanced *)

Lemma rebalanced_table_minima (v : string) :
  v ∈ map fst [("x", 0); ("x", 2); ("y", 0)] ->
  min (group (real_df [("x", 0); ("x", 2); ("y", 0)]) v) = Ok (fin 0).
Proof.
  cbn [map fst]. intros Hv. rewrite group_real.
  repeat (apply elem_of_cons in Hv as [->|Hv]).
  - change (real_group [("x", 0); ("x", 2); ("y", 0)] "x") with [0; 2].
    rewrite min_real by discriminate. fin_values.
  - change (real_group [("x", 0); ("x", 2); ("y", 0)] "x") with [0; 2].
    rewrite min_real by discriminate. fin_values.
  - change (real_group [("x", 0); ("x", 2); ("y", 0)] "y") with [0].
    rewrite min_real by discriminate. fin_values.
  - by apply elem_of_nil in Hv.
Qed.

Lemma intercept_based_idempotent_witness :
  (forall v, v ∈ map fst [("x", 0); ("x", 2); ("y", 0)] ->
     min (group (real_df [("x", 0); ("x", 2); ("y", 0)]) v) = Ok (fin 0))
  /\ _compute_intercept_based (real_df [("x", 0); ("x", 2); ("y", 0)])
     = Ok (map Points (real_df [("x", 0); ("x", 2); ("y", 0)]), fin 0).
Proof.
  split; [exact rebalanced_table_minima|].
  exact (proj1 (intercept_based_idempotent [("x", 0); ("x", 2); ("y", 0)])
           rebalanced_table_minima).
Defined.

(** *** Validation *)

(** C8, as stated, fails: a bound that is not a number is rejected although
    none of the listed conditions holds, and a bound that is a complex
    number ends the validation with [TypeError]. *)
Lemma min_max_non_numeric_bound_rejected :
  let d := min_max_params (PyStr "low") (PyNum (fin 1)) in
  let d' := min_max_params (PyComplex 0 1) (PyNum (fin 2)) in
  _check_scorecard_scaling (Some "min_max") (Some d) "continuous"
  = Raise ValueError
  /\ ~ claimed_scaling_error (Some "min_max") d "continuous"
  /\ _check_scorecard_scaling (Some "min_max") (Some d') "continuous"
     = Raise TypeError
  /\ ~ claimed_scaling_error (Some "min_max") d' "continuous".
Proof.
  split; [apply check_scorecard_scaling_min_not_numeric|].
  split; [intros [[E _]|[_ [Hd|Hgt]]];
            [discriminate | by apply Hd | exact Hgt]|].
  split; [apply check_scorecard_scaling_min_complex|].
  intros [[E _]|[_ [Hd|Hgt]]]; [discriminate | by apply Hd | exact Hgt].
Qed.

Lemma check_scorecard_scaling_raises_witness :
  let d := min_max_params (PyNum (fin 0)) (PyNum (fin 100)) in
  let checked := _check_scorecard_scaling (Some "min_max") (Some d)
                   "continuous" in
  (forall s, Some "min_max" = Some s -> s ∈ ["pdo_odds"; "min_max"])
  /\ (real_values d ->
      (scaling_error (Some "min_max") d "continuous" ->
       checked = Raise ValueError)
      /\ (~ scaling_error (Some "min_max") d "continuous" ->
          checked = Ok tt))
  /\ (Some "min_max" <> None -> has_complex d ->
      checked = Raise ValueError \/ checked = Raise TypeError)
  /\ (checked = Raise TypeError -> has_complex d).
Proof.
  assert (Htag : forall s, Some "min_max" = Some s -> s ∈ ["pdo_odds"; "min_max"]).
  { intros s [= <-]. repeat constructor. }
  split; [exact Htag|].
  exact (check_scorecard_scaling_raises (Some "min_max")
           (min_max_params (PyNum (fin 0)) (PyNum (fin 100))) "continuous"
           Htag).
Defined.

End concrete.

(** * Further properties *)

(** ** What the scaling does to scores *)

Section scaling_scores.
Local Open Scope R_scope.
Import NP.




(** The "min_max" branch on real inputs, with the intercept cancelled: the
    slope and the constant depend on the bounds and on the sums of the
    per-variable minima and maxima only. *)
Lemma min_max_affine (points : list R) (binning_tables : list (list row))
    (a b intercept : R) (reverse_scorecard : bool) (min_p max_p : R) :
  total_min (map (map Points) binning_tables) = Ok (fin min_p) ->
  total_max (map (map Points) binning_tables) = Ok (fin max_p) ->
  max_p <> min_p ->
  let n := INR (length binning_tables) in
  let k := (if reverse_scorecard then -1 else 1) * (a - b) / (max_p - min_p) in
  let d := ((if reverse_scorecard then a else b) - k * min_p) / n in
  0 < n
  /\ _compute_scorecard_points (map fin points) binning_tables "min_max"
       (Some (min_max_params (PyNum (fin a)) (PyNum (fin b))))
       (fin intercept) reverse_scorecard
     = Ok (map fin (map (fun p => d + k * p) points)).
Proof.
  intros Hmin Hmax Hrange n k d.
  assert (Hn : binning_tables <> []).
  { intros ->. unfold total_min, total_max in *. simpl in Hmin, Hmax.
    unfold sum in *. simpl in *.
    injection Hmin as <-. injection Hmax as <-. by apply Hrange. }
  pose proof (INR_length_pos _ Hn) as Hpos. fold n in Hpos.
  split; [exact Hpos|].
  rewrite (min_max_points_real _ _ a b intercept reverse_scorecard min_p max_p)
    by (assumption || lra).
  f_equal. rewrite map_map. apply map_ext. intros p. f_equal.
  unfold min_max_base, min_max_slope. fold n. subst d k.
  assert (Hn0 : n <> 0) by (intros E; rewrite E in Hpos; lra).
  destruct reverse_scorecard; field; split; (exact Hn0 || lra).
Qed.

(** X4.  In exact arithmetic, under "min_max" the scaled points do not
    depend on the model intercept: it cancels between the slope and the
    constant. *)
Theorem min_max_ignores_intercept (points : list R)
    (binning_tables : list (list row)) (a b : R) (reverse_scorecard : bool)
    (min_p max_p intercept intercept' : R) :
  total_min (map (map Points) binning_tables) = Ok (fin min_p) ->
  total_max (map (map Points) binning_tables) = Ok (fin max_p) ->
  max_p <> min_p ->
  _compute_scorecard_points (map fin points) binning_tables "min_max"
    (Some (min_max_params (PyNum (fin a)) (PyNum (fin b))))
    (fin intercept) reverse_scorecard
  = _compute_scorecard_points (map fin points) binning_tables "min_max"
      (Some (min_max_params (PyNum (fin a)) (PyNum (fin b))))
      (fin intercept') reverse_scorecard.
Proof.
  intros Hmin Hmax Hrange.
  destruct (min_max_affine points _ a b intercept reverse_scorecard _ _
              Hmin Hmax Hrange) as [_ ->].
  destruct (min_max_affine points _ a b intercept' reverse_scorecard _ _
              Hmin Hmax Hrange) as [_ ->].
  reflexivity.
Qed.

(** X5.  In exact arithmetic, under "min_max" both directions of the
    scorecard are affine maps of the raw point, and reversing the scorecard
    mirrors every point in the configured range: where the direct scorecard
    gives [d + k * p], the reversed one gives [(a + b) / n - (d + k * p)]. *)
Theorem min_max_reverse_mirrors (binning_tables : list (list row))
    (a b intercept : R) (min_p max_p : R) :
  total_min (map (map Points) binning_tables) = Ok (fin min_p) ->
  total_max (map (map Points) binning_tables) = Ok (fin max_p) ->
  max_p <> min_p ->
  exists d k : R,
    forall points : list R,
      _compute_scorecard_points (map fin points) binning_tables "min_max"
        (Some (min_max_params (PyNum (fin a)) (PyNum (fin b))))
        (fin intercept) false
      = Ok (map (fun p => fin (d + k * p)) points)
      /\ _compute_scorecard_points (map fin points) binning_tables "min_max"
           (Some (min_max_params (PyNum (fin a)) (PyNum (fin b))))
           (fin intercept) true
         = Ok (map (fun p =>
                      fin ((a + b) / INR (length binning_tables) - (d + k * p)))
                 points).
Proof.
  intros Hmin Hmax Hrange.
  exists ((b - 1 * (a - b) / (max_p - min_p) * min_p)
          / INR (length binning_tables)),
         (1 * (a - b) / (max_p - min_p)).
  intros points.
  destruct (min_max_affine points _ a b intercept false _ _ Hmin Hmax Hrange)
    as [Hpos Hdirect].
  destruct (min_max_affine points _ a b intercept true _ _ Hmin Hmax Hrange)
    as [_ Hreversed].
  rewrite Hdirect, Hreversed, !map_map. split; [reflexivity|].
  f_equal. apply map_ext. intros p. f_equal. field. split; lra.
Qed.

(** The raw total of an observation lies between the sums of the minima and
    of the maxima. *)
Lemma observation_bounds (tables : list (list R)) (observation : list R) :
  Forall2 (fun t p => In p t) tables observation ->
  length observation = length tables
  /\ Rsum (map Rmin_list tables) <= Rsum observation
     <= Rsum (map Rmax_list tables).
Proof.
  induction 1 as [|t p tables obs Hp _ [IHlen IH]]; cbn [map Rsum foldr length].
  - split; [reflexivity | lra].
  - fold (Rsum (map Rmin_list tables)) (Rsum (map Rmax_list tables)) (Rsum obs).
    pose proof (Rmin_list_le p t Hp). pose proof (Rmax_list_ge p t Hp).
    split; [by rewrite IHlen | lra].
Qed.

(** X6.  In exact arithmetic, under "min_max" with bounds [a <= b] every
    observation scores inside the configured range: for one raw point taken
    from each table, the scaled points add up to a total between [a] and
    [b], in either sense. *)
Theorem min_max_observation_in_range (tables : list (list (string * R)))
    (observation : list R) (a b intercept : R) (reverse_scorecard : bool)
    (min_p max_p : R) :
  let binning_tables := map real_df tables in
  a <= b ->
  total_min (map (map Points) binning_tables) = Ok (fin min_p) ->
  total_max (map (map Points) binning_tables) = Ok (fin max_p) ->
  max_p <> min_p ->
  Forall2 (fun t p => In p (map snd t)) tables observation ->
  exists scaled : list R,
    _compute_scorecard_points (map fin observation) binning_tables "min_max"
      (Some (min_max_params (PyNum (fin a)) (PyNum (fin b))))
      (fin intercept) reverse_scorecard
    = Ok (map fin scaled)
    /\ a <= Rsum scaled <= b.
Proof.
  intros bts Hab Hmin Hmax Hrange Hobs.
  destruct (min_max_affine observation _ a b intercept reverse_scorecard _ _
              Hmin Hmax Hrange) as [Hpos Hres].
  eexists. split; [exact Hres|].
  subst bts. rewrite Points_real_tables in Hmin, Hmax.
  set (pts := map (map snd) tables) in *.
  assert (Hne : Forall (fun t => t <> []) pts) by (by eapply total_min_nonempty).
  rewrite total_min_real in Hmin by assumption.
  rewrite total_max_real in Hmax by assumption.
  injection Hmin as Hlo. injection Hmax as Hhi.
  assert (Hobs' : Forall2 (fun t p => In p t) pts observation).
  { subst pts. clear -Hobs.
    induction Hobs; cbn [map]; constructor; assumption. }
  destruct (observation_bounds _ _ Hobs') as [Hlen Hbounds].
  rewrite Rsum_affine, Hlen. subst pts. rewrite !length_map in *.
  rewrite Hlo, Hhi in Hbounds.
  set (n := INR (length tables)) in *.
  set (S := Rsum observation) in *.
  assert (Hn0 : n <> 0) by (intros E; rewrite E in Hpos; lra).
  assert (Hinv : 0 < / (max_p - min_p)) by (apply Rinv_0_lt_compat; lra).
  destruct reverse_scorecard.
  - replace (n * ((a - -1 * (a - b) / (max_p - min_p) * min_p) / n)
             + -1 * (a - b) / (max_p - min_p) * S)
      with (a + (b - a) * ((S - min_p) * / (max_p - min_p)))
      by (field; split; first [exact Hn0 | lra]).
    assert (0 <= (S - min_p) * / (max_p - min_p) <= 1).
    { split; [apply Rmult_le_pos; lra|].
      apply (Rmult_le_reg_r (max_p - min_p)); [lra|].
      rewrite Rmult_assoc, Rinv_l by lra. lra. }
    nra.
  - replace (n * ((b - 1 * (a - b) / (max_p - min_p) * min_p) / n)
             + 1 * (a - b) / (max_p - min_p) * S)
      with (b - (b - a) * ((S - min_p) * / (max_p - min_p)))
      by (field; split; first [exact Hn0 | lra]).
    assert (0 <= (S - min_p) * / (max_p - min_p) <= 1).
    { split; [apply Rmult_le_pos; lra|].
      apply (Rmult_le_reg_r (max_p - min_p)); [lra|].
      rewrite Rmult_assoc, Rinv_l by lra. lra. }
    nra.
Qed.

End scaling_scores.

(** ** Errors of the scaling *)

Section scaling_errors.
Import NP.

(** X7.  A parameter key that is missing makes the scaling raise
    [KeyError], whatever the points, the tables and the other values: the
    dictionary is read before anything is computed. *)
Theorem scaling_missing_key (points : list float64)
    (binning_tables : list (list row)) (method : string) (d : dict)
    (intercept : float64) (reverse_scorecard : bool) (k : string) :
  (method = "pdo_odds" /\ k ∈ ["pdo"; "odds"; "scorecard_points"])
  \/ (method = "min_max" /\ k ∈ ["min"; "max"]) ->
  d !! k = None ->
  _compute_scorecard_points points binning_tables method (Some d) intercept
    reverse_scorecard = Raise KeyError.
Proof.
  intros [[-> Hk]|[-> Hk]] Hnone; unfold _compute_scorecard_points, getitem.
  - rewrite decide_True by reflexivity.
    repeat (apply elem_of_cons in Hk as [->|Hk]);
      [| | |by apply elem_of_nil in Hk].
    + by rewrite Hnone.
    + destruct (d !! "pdo"); cbn [mbind result_bind]; [|reflexivity].
      by rewrite Hnone.
    + destruct (d !! "pdo"); cbn [mbind result_bind]; [|reflexivity].
      destruct (d !! "odds"); cbn [mbind result_bind]; [|reflexivity].
      by rewrite Hnone.
  - rewrite decide_False by discriminate. rewrite decide_True by reflexivity.
    repeat (apply elem_of_cons in Hk as [->|Hk]);
      [| |by apply elem_of_nil in Hk].
    + by rewrite Hnone.
    + destruct (d !! "min"); cbn [mbind result_bind]; [|reflexivity].
      by rewrite Hnone.
Qed.

End scaling_errors.

(** ** More on the intercept-based form *)

Section intercept_based_more.
Import NP.

(** X8.  The rebalancer never raises and returns one point per row, on
    every table: the minimum is only ever taken over the rows of a variable
    that occurs, so never over an empty column. *)
Theorem intercept_based_total (df : list row) :
  exists new_points intercept,
    _compute_intercept_based df = Ok (new_points, intercept)
    /\ length new_points = length df
    /\ exists df_rebalanced, set_Points df new_points = Ok df_rebalanced.
Proof.
  do 2 eexists. split; [apply compute_intercept_based_spec|].
  split; [apply length_map|].
  unfold set_Points. rewrite decide_True by apply length_map. by eexists.
Qed.

Lemma minimum_nan_r (u : float64) : minimum u nan = nan.
Proof. by destruct u. Qed.

Lemma foldl_minimum_nan (xs : list float64) : foldl minimum nan xs = nan.
Proof. induction xs as [|x xs IH]; [reflexivity | exact IH]. Qed.

Lemma foldl_minimum_absorbs (x : float64) (xs : list float64) :
  x = nan \/ In nan xs -> foldl minimum x xs = nan.
Proof.
  revert x. induction xs as [|y xs IH]; intros x [->|Hin]; cbn [foldl].
  - reflexivity.
  - destruct Hin.
  - apply foldl_minimum_nan.
  - destruct Hin as [->|Hin].
    + rewrite minimum_nan_r. apply foldl_minimum_nan.
    + apply IH. by right.
Qed.

Lemma group_min_nan (df : list row) (r : row) :
  r ∈ df -> Points r = nan -> group_min df (Variable_ r) = nan.
Proof.
  intros Hr Hnan. unfold group_min.
  assert (Hin : In nan (group df (Variable_ r))).
  { unfold group. rewrite <- Hnan. apply in_map, list_elem_of_In.
    apply list_elem_of_filter. by split. }
  destruct (group df (Variable_ r)) as [|x xs]; [destruct Hin|].
  cbn [min]. apply foldl_minimum_absorbs.
  destruct Hin as [->|Hin]; [by left | by right].
Qed.

(** X9.  One NaN point spreads: the rebalancer returns NaN for every row
    of the variable the NaN belongs to, and NaN as the intercept. *)
Theorem intercept_based_nan (df : list row) (r : row) :
  r ∈ df ->
  Points r = nan ->
  exists new_points,
    _compute_intercept_based df = Ok (new_points, nan)
    /\ Forall2 (fun r' p => Variable_ r' = Variable_ r -> p = nan)
         df new_points.
Proof.
  intros Hr Hnan. pose proof (group_min_nan df r Hr Hnan) as Hmin.
  eexists. split.
  - rewrite compute_intercept_based_spec. do 2 f_equal.
    apply foldl_add_absorbs. rewrite <- Hmin. apply in_map, list_elem_of_In.
    apply elem_of_unique. apply list_elem_of_In, in_map, list_elem_of_In, Hr.
  - apply Forall2_map_self. intros r' ->.
    rewrite Hmin. unfold sub. cbn [neg]. apply add_nan_r.
Qed.

End intercept_based_more.

(** ** Errors of the fit *)

Section fit_errors.
Context `{RoundingMIP}.
Import NP.

Lemma check_parameters_outcome (m : option string) (p : option dict) :
  _check_parameters m p = Ok tt \/ _check_parameters m p = Raise ValueError.
Proof.
  unfold _check_parameters. destruct m as [s|]; [|by left].
  destruct (decide _); [by right|]. destruct p; [by left | by right].
Qed.

(** X10.  The two validations fit together: once [_check_parameters] has
    accepted the options, [_check_scorecard_scaling] returns, raises
    [ValueError], or raises [TypeError] on a parameter that is a complex
    number; the unassigned [default_keys], a missing dictionary or a missing
    key cannot be met. *)
Theorem validation_outcomes (m : option string) (p : option dict)
    (target : string) :
  _check_parameters m p = Ok tt ->
  _check_scorecard_scaling m p target = Ok tt
  \/ _check_scorecard_scaling m p target = Raise ValueError
  \/ (_check_scorecard_scaling m p target = Raise TypeError
      /\ exists d, p = Some d /\ has_complex d).
Proof.
  intros Hcheck. destruct m as [s|]; [|by left].
  pose proof (check_parameters_tag _ _ Hcheck) as Htag.
  unfold _check_parameters in Hcheck.
  destruct (decide _); [discriminate|]. destruct p as [d|]; [|discriminate].
  destruct (check_scorecard_scaling_cases (Some s) d target Htag)
    as [[Hv _]|[[Hok _]|(Ht & _ & Hc)]].
  - right. by left.
  - by left.
  - right. right. split; [exact Ht|]. by exists d.
Qed.

(** X11.  Options that cannot be used end [_fit] with [ValueError],
    whatever the data and the estimator: a method tag other than the two
    supported ones, a method without its parameters, or a target that is
    neither binary nor continuous. *)
Theorem fit_rejects_options (self : Scorecard) (intercept_0 : float64) (target : string)
    (selected_variables : list (string * list float64))
    (coef_ : option (list float64)) (estimator_intercept_ : option float64) :
  (exists m, scaling_method self = Some m
             /\ (m ∉ ["pdo_odds"; "min_max"]
                 \/ scaling_method_params self = None))
  \/ target ∉ ["binary"; "continuous"] ->
  _fit self intercept_0 target selected_variables coef_ estimator_intercept_
  = Raise ValueError.
Proof.
  intros Hbad. unfold _fit, _fit_scorecard_table.
  destruct Hbad as [(m & Hm & Hbad) | Htarget].
  - rewrite Hm. unfold _check_parameters.
    destruct (decide (m ∉ ["pdo_odds"; "min_max"])) as [|Hin]; [reflexivity|].
    destruct Hbad as [Hbad | ->]; [contradiction | reflexivity].
  - destruct (check_parameters_outcome (scaling_method self)
                (scaling_method_params self)) as [-> | ->];
      cbn [mbind result_bind]; [|reflexivity].
    by rewrite decide_True.
Qed.

Lemma build_binning_tables_short (i : nat)
    (selected_variables : list (string * list float64)) (coefs : list float64) :
  i <= length coefs < i + length selected_variables ->
  build_binning_tables i selected_variables coefs = Raise IndexError.
Proof.
  revert i. induction selected_variables as [|[variable bt] rest IH];
    intros i Hlen; cbn [length] in Hlen; [lia|].
  cbn [build_binning_tables].
  destruct (coefs !! i) as [c|] eqn:Hc; cbn [mbind result_bind]; [|reflexivity].
  apply lookup_lt_Some in Hc.
  rewrite IH; [reflexivity|]. lia.
Qed.

(** X12.  An estimator with fewer coefficients than there are selected
    variables makes [_fit] raise [IndexError], once the options have passed
    the validation. *)
Theorem fit_too_few_coefficients (self : Scorecard) (intercept_0 : float64) (target : string)
    (selected_variables : list (string * list float64))
    (coefs : list float64) (estimator_intercept_ : option float64) :
  _check_parameters (scaling_method self) (scaling_method_params self) = Ok tt ->
  target ∈ ["binary"; "continuous"] ->
  _check_scorecard_scaling (scaling_method self) (scaling_method_params self)
    target = Ok tt ->
  length coefs < length selected_variables ->
  _fit self intercept_0 target selected_variables (Some coefs) estimator_intercept_
  = Raise IndexError.
Proof.
  intros Hp Ht Hs Hlen. unfold _fit, _fit_scorecard_table.
  rewrite Hp, Hs. rewrite decide_False by (intros Hn; by apply Hn).
  cbn [mbind result_bind]. rewrite build_binning_tables_short; [reflexivity|].
  lia.
Qed.

(** X13.  With no selected variable there is no table to concatenate and
    [_fit] raises [ValueError], once the options have passed the
    validation. *)
Theorem fit_no_selected_variable (self : Scorecard) (intercept_0 : float64) (target : string)
    (coefs : list float64) (estimator_intercept_ : option float64) :
  _check_parameters (scaling_method self) (scaling_method_params self) = Ok tt ->
  target ∈ ["binary"; "continuous"] ->
  _check_scorecard_scaling (scaling_method self) (scaling_method_params self)
    target = Ok tt ->
  _fit self intercept_0 target [] (Some coefs) estimator_intercept_ = Raise ValueError.
Proof.
  intros Hp Ht Hs. unfold _fit, _fit_scorecard_table.
  rewrite Hp, Hs. rewrite decide_False by (intros Hn; by apply Hn).
  reflexivity.
Qed.

Lemma rint_real_near (t : list (string * R)) :
  exists zs : list Z,
    map rint (map Points (real_df t)) = map fin (map IZR zs)
    /\ Forall2 (fun r z => (Rabs (IZR z - r.2) <= 1 / 2)%R) t zs.
Proof.
  exists (map (fun r => nearest_even r.2) t). split.
  - unfold real_df. rewrite !map_map. reflexivity.
  - apply Forall2_map_self. intros r. apply nearest_even_nearest.
Qed.

(** X14.  Nearest-integer rounding moves no point by more than 1/2: under
    "pdo_odds", and under "min_max" when the optimiser fails, the rounding
    step on real points returns integers, each at distance at most 1/2 from
    the point it replaces. *)
Theorem rounding_moves_half_at_most (self : Scorecard) (t : list (string * R)) :
  rounding self = true ->
  scaling_method self = Some "pdo_odds"
  \/ (scaling_method self = Some "min_max"
      /\ (solve (build_model (real_df t))).1 ∉ ["OPTIMAL"; "FEASIBLE"]) ->
  exists zs : list Z,
    _fit_rounding self (real_df t) = Ok (real_df (zip (map fst t) (map IZR zs)))
    /\ Forall2 (fun r z => (Rabs (IZR z - r.2) <= 1 / 2)%R) t zs.
Proof.
  intros Hr Hm. destruct (rint_real_near t) as (zs & Hrint & Hnear).
  exists zs. split; [|exact Hnear].
  assert (Hlen : length zs = length t) by (symmetry; by eapply Forall2_length).
  assert (Hround :
    set_Points (real_df t) (map rint (map Points (real_df t)))
    = Ok (real_df (zip (map fst t) (map IZR zs)))).
  { rewrite Hrint. apply set_Points_real. by rewrite length_map. }
  unfold _fit_rounding. rewrite Hr.
  destruct Hm as [-> | [-> Hstatus]].
  - rewrite decide_True by reflexivity. exact Hround.
  - rewrite decide_False by discriminate. rewrite decide_True by reflexivity.
    destruct (solve (build_model (real_df t))) as [status round_points].
    cbn [fst] in Hstatus. rewrite decide_True by assumption. exact Hround.
Qed.

End fit_errors.

(** ** Scores *)

Section scores.
Local Open Scope R_scope.
Import NP.

Lemma result_map_comprehension {X Y Z} (f : X -> result Y) (g : X -> result Z)
    (h : Z -> Y) (xs : list X) :
  (forall x, f x = result_map h (g x)) ->
  comprehension f xs = result_map (map h) (comprehension g xs).
Proof.
  intros Hfg. induction xs as [|x xs IH]; [reflexivity|].
  cbn [comprehension]. rewrite Hfg, IH.
  destruct (g x); [|reflexivity]. cbn [result_map mbind result_bind].
  by destruct (comprehension g xs).
Qed.

Lemma take_one_map {X Y} (h : X -> Y) (xs : list X) (k : nat) :
  map h xs !! k = option_map h (xs !! k).
Proof.
  revert k. induction xs as [|x xs IH]; intros [|k]; try reflexivity.
  cbn [map]. apply IH.
Qed.

Lemma take_one_fin (points : list R) (i : Z) :
  take_one (map fin points) i = result_map fin (take_one_real points i).
Proof.
  unfold take_one, take_one_real. rewrite length_map.
  destruct (decide _); [|reflexivity].
  rewrite take_one_map. by destruct (points !! _).
Qed.

Lemma take_one_real_map (h : R -> R) (points : list R) (i : Z) :
  take_one_real (map h points) i = result_map h (take_one_real points i).
Proof.
  unfold take_one_real. rewrite length_map.
  destruct (decide _); [|reflexivity].
  rewrite take_one_map. by destruct (points !! _).
Qed.

Lemma length_comprehension {X Y} (f : X -> result Y) (xs : list X) (ys : list Y) :
  comprehension f xs = Ok ys -> length ys = length xs.
Proof.
  revert ys. induction xs as [|x xs IH]; intros ys; cbn [comprehension].
  - by intros [= <-].
  - destruct (f x); [|discriminate]. cbn [mbind result_bind].
    destruct (comprehension f xs) as [ys'|]; [|discriminate].
    intros [= <-]. cbn [length]. f_equal. by apply IH.
Qed.

Lemma zip_with_map_map {X Y Z X' Y'} (f : X -> Y -> Z) (g : X' -> X)
    (h : Y' -> Y) (xs : list X') (ys : list Y') :
  zip_with f (map g xs) (map h ys) = zip_with (fun x y => f (g x) (h y)) xs ys.
Proof.
  revert ys. induction xs as [|x xs IH]; intros [|y ys]; try reflexivity.
  cbn [map zip_with]. by rewrite IH.
Qed.

Lemma map_zip_with {X Y Z W} (g : Z -> W) (f : X -> Y -> Z) (xs : list X)
    (ys : list Y) :
  map g (zip_with f xs ys) = zip_with (fun x y => g (f x y)) xs ys.
Proof.
  revert ys. induction xs as [|x xs IH]; intros [|y ys]; try reflexivity.
  cbn [map zip_with]. by rewrite IH.
Qed.

Lemma iadd_fin (score_ values : list R) :
  iadd (map fin score_) (map fin values)
  = result_map (map fin) (iadd_real score_ values).
Proof.
  unfold iadd, iadd_real. rewrite !length_map.
  destruct values as [|v [|v' values]]; cbn [map].
  - destruct (decide _) as [E|]; [|reflexivity].
    by destruct score_.
  - cbn [result_map]. by rewrite !map_map.
  - destruct (decide _); [|reflexivity]. cbn [result_map]. f_equal.
    change (fin v :: fin v' :: map fin values) with (map fin (v :: v' :: values)).
    by rewrite zip_with_map_map, map_zip_with.
Qed.

(** The loop of [score] on a real scorecard. *)
Lemma score_loop_real_spec (t : list (string * R)) (vs : list string)
    (df_t : indices_frame) (score_ : list R) :
  score_loop (real_df t) vs df_t (map fin score_)
  = result_map (map fin) (score_loop_real t vs df_t score_).
Proof.
  revert score_. induction vs as [|v vs IH]; intros score_; [reflexivity|].
  cbn [score_loop score_loop_real]. rewrite group_select, group_real.
  destruct (columns df_t !! v) as [c|]; [|reflexivity].
  cbn [mbind result_bind]. unfold take.
  rewrite (result_map_comprehension _ (take_one_real (real_group t v)) fin)
    by apply take_one_fin.
  destruct (comprehension _ c) as [values|]; [|reflexivity].
  cbn [result_map mbind result_bind]. rewrite iadd_fin.
  destruct (iadd_real score_ values) as [score_'|]; [|reflexivity].
  cbn [result_map mbind result_bind]. apply IH.
Qed.

Lemma iadd_real_shift (M m : R) (score_ values : list R) :
  iadd_real (map (fun x => x - M) score_) (map (fun p => - m + 1 * p) values)
  = result_map (map (fun x => x - (M + m))) (iadd_real score_ values).
Proof.
  unfold iadd_real. rewrite !length_map.
  destruct values as [|v [|v' values]]; cbn [map].
  - destruct (decide _); [|reflexivity]. cbn [result_map].
    by destruct score_.
  - cbn [result_map]. f_equal. rewrite !map_map. apply map_ext. intros x. lra.
  - destruct (decide _); [|reflexivity]. cbn [result_map]. f_equal.
    change (- m + 1 * v :: - m + 1 * v' :: map (fun p => - m + 1 * p) values)
      with (map (fun p => - m + 1 * p) (v :: v' :: values)).
    rewrite zip_with_map_map, map_zip_with.
    apply zip_with_pointwise. intros x y _. lra.
Qed.

(** Moving the points of every variable by an amount of its own moves each
    score by the sum of the amounts over the variables visited. *)
Lemma score_loop_real_shift (t : list (string * R)) (shift : string -> R)
    (vs : list string) (df_t : indices_frame) (M : R) (score_ : list R) :
  score_loop_real (zip (map fst t) (map (fun r => r.2 - shift r.1) t)) vs df_t
    (map (fun x => x - M) score_)
  = result_map (map (fun x => x - (M + Rsum (map shift vs))))
      (score_loop_real t vs df_t score_).
Proof.
  revert M score_. induction vs as [|v vs IH]; intros M score_.
  - cbn [score_loop_real result_map map Rsum foldr]. f_equal.
    apply map_ext. intros x. lra.
  - cbn [score_loop_real]. rewrite real_group_shifted.
    destruct (columns df_t !! v) as [c|]; [|reflexivity].
    cbn [mbind result_bind].
    rewrite (result_map_comprehension _ (take_one_real (real_group t v))
               (fun p => - shift v + 1 * p))
      by apply take_one_real_map.
    destruct (comprehension _ c) as [values|]; [|reflexivity].
    cbn [result_map mbind result_bind]. rewrite iadd_real_shift.
    destruct (iadd_real score_ values) as [score_'|]; [|reflexivity].
    cbn [result_map mbind result_bind]. rewrite IH.
    destruct (score_loop_real t vs df_t score_'); [|reflexivity].
    cbn [result_map map Rsum foldr]. f_equal. apply map_ext. intros x.
    fold (Rsum (map shift vs)). lra.
Qed.

Lemma replicate_fin (n : nat) (x : R) :
  replicate n (fin x) = map fin (replicate n x).
Proof. induction n as [|n IH]; [reflexivity|]. cbn. by rewrite IH. Qed.

(** The scores of the rebalanced real scorecard, with the sum of the
    removed minima as intercept, are the scores of the original one. *)
Lemma score_rebalanced_real (t : list (string * R))
    (selected_variables : list string) (df_t : indices_frame) :
  selected_variables ≡ₚ unique (map fst t) ->
  score (Some {| _df_scorecard :=
                   real_df (zip (map fst t)
                              (map (fun r => r.2 - real_group_min t r.1) t));
                 intercept_ :=
                   fin (Rsum (map (real_group_min t) (unique (map fst t)))) |})
    selected_variables df_t
  = score (Some {| _df_scorecard := real_df t; intercept_ := fin 0 |})
      selected_variables df_t.
Proof.
  intros Hperm.
  unfold score, when_fitted. cbn [_df_scorecard intercept_].
  rewrite replicate_fin, !score_loop_real_spec.
  replace (replicate (shape0 df_t) 0)
    with (map (fun x => x - 0) (replicate (shape0 df_t) 0)) at 1
    by (rewrite <- (map_id (replicate _ _)) at 2; apply map_ext; intros; lra).
  rewrite score_loop_real_shift.
  rewrite (Rsum_Permutation _ _ (Permutation_map (real_group_min t) Hperm)).
  destruct (score_loop_real t selected_variables df_t _) as [scores|];
    [|reflexivity].
  cbn [result_map mbind result_bind]. apply f_equal.
  rewrite !map_map. apply map_ext. intros x. cbn [add]. f_equal. lra.
Qed.


(** *** Bounds of a score *)

Lemma take_one_real_In (points : list R) (i : Z) (p : R) :
  take_one_real points i = Ok p -> In p points.
Proof.
  unfold take_one_real. destruct (decide _); [|discriminate].
  destruct (points !! _) as [q|] eqn:Hq; [|discriminate].
  intros [= <-]. apply list_elem_of_In. by eapply list_elem_of_lookup_2.
Qed.

Lemma comprehension_Forall {X Y} (f : X -> result Y) (P : Y -> Prop)
    (xs : list X) (ys : list Y) :
  (forall x y, f x = Ok y -> P y) ->
  comprehension f xs = Ok ys -> Forall P ys.
Proof.
  intros Hf. revert ys. induction xs as [|x xs IH]; intros ys; cbn [comprehension].
  - intros [= <-]. constructor.
  - destruct (f x) as [y|] eqn:Hy; [|discriminate]. cbn [mbind result_bind].
    destruct (comprehension f xs) as [ys'|]; [|discriminate].
    intros [= <-]. constructor; [by eapply Hf | by apply IH].
Qed.

Lemma iadd_real_bounds (lo hi lo' hi' : R) (score_ values out : list R) :
  Forall (fun x => lo <= x <= hi) score_ ->
  Forall (fun p => lo' <= p <= hi') values ->
  iadd_real score_ values = Ok out ->
  Forall (fun x => lo + lo' <= x <= hi + hi') out.
Proof.
  intros Hs Hv. unfold iadd_real.
  assert (Hzip : forall vs, Forall (fun p => lo' <= p <= hi') vs ->
            Forall (fun x => lo + lo' <= x <= hi + hi') (zip_with Rplus score_ vs)).
  { clear Hv. induction Hs as [|x xs Hx _ IH]; intros [|v vs] Hvs;
      cbn [zip_with]; try constructor.
    - apply Forall_cons in Hvs as [Hv _]. lra.
    - apply Forall_cons in Hvs as [_ Hvs]. by apply IH. }
  destruct values as [|v [|v' values]].
  - destruct (decide _); [|discriminate]. intros [= <-]. by apply Hzip.
  - intros [= <-]. apply Forall_cons in Hv as [Hv _].
    apply Forall_map. eapply Forall_impl; [exact Hs|]. intros x Hx. cbv beta. lra.
  - destruct (decide _); [|discriminate]. intros [= <-]. by apply Hzip.
Qed.

(** Along the loop every partial score stays between the sum of the least
    and the sum of the largest points of the variables visited. *)
Lemma score_loop_real_bounds (t : list (string * R)) (vs : list string)
    (df_t : indices_frame) (lo hi : R) (score_ out : list R) :
  Forall (fun x => lo <= x <= hi) score_ ->
  score_loop_real t vs df_t score_ = Ok out ->
  Forall (fun x => lo + Rsum (map (real_group_min t) vs) <= x
                   <= hi + Rsum (map (real_group_max t) vs)) out.
Proof.
  revert lo hi score_. induction vs as [|v vs IH]; intros lo hi score_ Hs.
  - cbn [score_loop_real map Rsum foldr]. intros [= <-].
    eapply Forall_impl; [exact Hs|]. intros x Hx. cbv beta. lra.
  - cbn [score_loop_real].
    destruct (columns df_t !! v) as [c|]; [|discriminate].
    cbn [mbind result_bind].
    destruct (comprehension _ c) as [values|] eqn:Hvalues; [|discriminate].
    cbn [mbind result_bind].
    destruct (iadd_real score_ values) as [score_'|] eqn:Hadd; [|discriminate].
    cbn [mbind result_bind]. intros Hout.
    assert (Hv : Forall (fun p => real_group_min t v <= p <= real_group_max t v)
                   values).
    { eapply comprehension_Forall; [|exact Hvalues].
      intros i p Hp. apply take_one_real_In in Hp.
      split; [by apply Rmin_list_le | by apply Rmax_list_ge]. }
    pose proof (iadd_real_bounds _ _ _ _ _ _ _ Hs Hv Hadd) as Hs'.
    specialize (IH _ _ _ Hs' Hout).
    eapply Forall_impl; [exact IH|]. intros x Hx. cbv beta in *.
    cbn [map Rsum foldr].
    fold (Rsum (map (real_group_min t) vs)) (Rsum (map (real_group_max t) vs)).
    lra.
Qed.

Lemma Forall_replicate_zero (n : nat) :
  Forall (fun x => 0 <= x <= 0) (replicate n 0).
Proof. induction n; cbn; constructor; [lra | assumption]. Qed.

(** X16.  On a real scorecard every score [score] returns lies between the
    sum of the least points and the sum of the largest points of the
    selected variables, each plus the intercept. *)
Theorem score_between_extremes (t : list (string * R)) (c : R)
    (selected_variables : list string) (df_t : indices_frame)
    (out : list float64) :
  score (Some {| _df_scorecard := real_df t; intercept_ := fin c |})
    selected_variables df_t = Returned out ->
  exists scores : list R,
    out = map fin scores
    /\ Forall (fun x =>
                 Rsum (map (real_group_min t) selected_variables) + c <= x
                 <= Rsum (map (real_group_max t) selected_variables) + c)
         scores.
Proof.
  unfold score, when_fitted. cbn [_df_scorecard intercept_].
  rewrite replicate_fin, score_loop_real_spec.
  destruct (score_loop_real t selected_variables df_t _) as [scores|] eqn:Hloop;
    [|discriminate].
  cbn [result_map mbind result_bind]. intros [= <-].
  exists (map (fun x => x + c) scores). split.
  - rewrite !map_map. reflexivity.
  - pose proof (score_loop_real_bounds _ _ _ 0 0 _ _
                  (Forall_replicate_zero _) Hloop) as Hb.
    apply Forall_map. eapply Forall_impl; [exact Hb|].
    intros x Hx. cbv beta in *. lra.
Qed.

End scores.

(** ** Tables stacked by variable *)

Section stacked_tables.
Local Open Scope R_scope.
Import NP.

Lemma real_group_app (t1 t2 : list (string * R)) (v : string) :
  real_group (t1 ++ t2) v = (real_group t1 v ++ real_group t2 v)%list.
Proof. unfold real_group. by rewrite filter_app, map_app. Qed.

Lemma real_group_variable_rows (v0 v : string) (ps : list R) :
  real_group (variable_rows (v0, ps)) v = if decide (v0 = v) then ps else [].
Proof.
  unfold real_group, variable_rows. cbn [fst snd].
  induction ps as [|p ps IH]; cbn [map].
  - by destruct (decide (v0 = v)).
  - rewrite filter_cons. cbn [fst]. destruct (decide (v0 = v)); cbn [map snd].
    + by rewrite IH.
    + exact IH.
Qed.

Lemma real_group_stacked_other (named : list (string * list R)) (v : string) :
  ~ In v (map fst named) -> real_group (stacked named) v = [].
Proof.
  unfold stacked. induction named as [|[v0 ps] named IH]; cbn [map concat fst];
    intros Hv; [reflexivity|].
  rewrite real_group_app, real_group_variable_rows.
  rewrite decide_False by (intros ->; apply Hv; by left).
  apply IH. intros Hin. apply Hv. by right.
Qed.

(** With distinct names, the rows of a variable in the stacked table are
    the rows of its own table. *)
Lemma real_group_stacked (named : list (string * list R)) (v : string)
    (ps : list R) :
  List.NoDup (map fst named) -> In (v, ps) named ->
  real_group (stacked named) v = ps.
Proof.
  unfold stacked. induction named as [|[v0 ps0] named IH]; cbn [map concat fst];
    intros Hnd Hin; [destruct Hin|].
  apply List.NoDup_cons_iff in Hnd as [Hv0 Hnd].
  rewrite real_group_app, real_group_variable_rows.
  destruct Hin as [[= -> ->]|Hin].
  - rewrite decide_True by reflexivity.
    fold (stacked named). rewrite real_group_stacked_other by assumption.
    apply app_nil_r.
  - rewrite decide_False.
    + by apply IH.
    + intros ->. apply Hv0. by apply (in_map fst _ (v, ps)).
Qed.

Lemma map_real_group_stacked (h : list R -> R) (named : list (string * list R)) :
  List.NoDup (map fst named) ->
  map (fun v => h (real_group (stacked named) v)) (map fst named)
  = map h (map snd named).
Proof.
  intros Hnd. rewrite !map_map. apply map_ext_in. intros [v ps] Hin.
  cbn [fst snd]. by rewrite (real_group_stacked named v ps).
Qed.

Lemma In_fst_stacked (named : list (string * list R)) (v : string) :
  Forall (fun vt => vt.2 <> []) named ->
  In v (map fst (stacked named)) <-> In v (map fst named).
Proof.
  unfold stacked. induction 1 as [|[v0 ps] named Hps _ IH]; cbn [map concat fst];
    [reflexivity|].
  rewrite map_app, in_app_iff, IH. cbn [snd] in Hps.
  unfold variable_rows. cbn [fst snd]. rewrite map_map. cbn [fst].
  destruct ps as [|p ps]; [congruence|]. cbn [map In].
  split; [|tauto]. intros [[->|Hin]|Hin]; auto.
  apply in_map_iff in Hin as (? & -> & _). by left.
Qed.

Lemma names_unique_stacked (named : list (string * list R)) :
  List.NoDup (map fst named) ->
  Forall (fun vt => vt.2 <> []) named ->
  map fst named ≡ₚ unique (map fst (stacked named)).
Proof.
  intros Hnd Hne. apply NoDup_Permutation.
  - by apply NoDup_ListNoDup.
  - apply NoDup_unique.
  - intros v. rewrite elem_of_unique, !list_elem_of_In.
    symmetry. by apply In_fst_stacked.
Qed.

Lemma concat_real_df (tables : list (list (string * R))) :
  concat (map real_df tables) = real_df (concat tables).
Proof. unfold real_df. by rewrite concat_map. Qed.

(** Writing back a column computed table by table. *)
Lemma zip_stacked (f : R -> R) (named : list (string * list R)) :
  zip (map fst (stacked named))
      (concat (map (map f) (map (map snd) (map variable_rows named))))
  = stacked (map (fun vt => (vt.1, map f vt.2)) named).
Proof.
  unfold stacked. induction named as [|[v ps] named IH]; [reflexivity|].
  cbn [map concat fst snd]. rewrite map_app.
  rewrite zip_with_app.
  - f_equal; [|exact IH].
    unfold variable_rows. cbn [fst snd].
    induction ps as [|p ps IHps]; [reflexivity|].
    cbn [map zip_with fst snd]. f_equal. exact IHps.
  - unfold variable_rows. by rewrite !length_map.
Qed.

Lemma snd_variable_rows (named : list (string * list R)) :
  map (map snd) (map variable_rows named) = map snd named.
Proof.
  rewrite map_map. apply map_ext. intros [v ps]. unfold variable_rows.
  cbn [fst snd]. rewrite map_map. cbn [snd]. apply map_id.
Qed.

End stacked_tables.

(** ** Fits with min/max scaling *)

Section fit_min_max.
Context `{RoundingMIP}.
Local Open Scope R_scope.
Import NP.

(** After the affine map of "min_max" the per-table minima add up to [a]
    and the maxima to [b]. *)
Lemma min_max_scaled_extremes (pts : list (list R)) (a b intercept : R)
    (reverse_scorecard : bool) (min_p max_p : R) :
  a <= b ->
  Forall (fun t => t <> []) pts ->
  min_p = Rsum (map Rmin_list pts) ->
  max_p = Rsum (map Rmax_list pts) ->
  min_p < max_p ->
  0 < INR (length pts) ->
  let smin := intercept + min_p in
  let smax := intercept + max_p in
  let slope := min_max_slope reverse_scorecard a b smin smax in
  let d := min_max_base reverse_scorecard a b smin smax intercept
           / INR (length pts) in
  Rsum (map Rmin_list (map (map (fun p => d + slope * p)) pts)) = a
  /\ Rsum (map Rmax_list (map (map (fun p => d + slope * p)) pts)) = b.
Proof.
  intros Hab Hne Hlo Hhi Hlt Hpos smin smax slope d.
  assert (Hd : smax - smin <> 0) by (subst smin smax; lra).
  destruct reverse_scorecard.
  - assert (Hk : 0 <= slope).
    { subst slope. unfold min_max_slope.
      replace (-1 * (a - b) / (smax - smin)) with ((b - a) / (smax - smin))
        by (field; exact Hd).
      apply Rle_mult_inv_pos; subst smin smax; lra. }
    rewrite Rsum_min_increasing, Rsum_max_increasing by assumption.
    rewrite <- Hlo, <- Hhi.
    split; subst d slope; unfold min_max_base, min_max_slope;
      subst smin smax; field; lra.
  - assert (Hk : slope <= 0).
    { subst slope. unfold min_max_slope.
      replace (1 * (a - b) / (smax - smin)) with (- ((b - a) / (smax - smin)))
        by (field; exact Hd).
      apply Ropp_le_cancel. rewrite Ropp_involutive, Ropp_0.
      apply Rle_mult_inv_pos; subst smin smax; lra. }
    rewrite Rsum_min_decreasing, Rsum_max_decreasing by assumption.
    rewrite <- Hlo, <- Hhi.
    split; subst d slope; unfold min_max_base, min_max_slope;
      subst smin smax; field; lra.
Qed.

Lemma pd_concat_nonempty (tables : list (list row)) :
  tables <> [] -> pd_concat tables = Ok (concat tables).
Proof. by destruct tables. Qed.

(** [_fit] up to the scaled scorecard, for real tables under "min_max" with a
    score range that is not a single point. *)
Lemma fit_min_max_scaled (self : Scorecard) (intercept_0 : float64) (target : string)
    (selected_variables : list (string * list float64))
    (coefs : list float64) (estimator_intercept_ : option float64)
    (named : list (string * list R)) (a b c min_p max_p : R) :
  scaling_method self = Some "min_max" ->
  scaling_method_params self
  = Some (min_max_params (PyNum (fin a)) (PyNum (fin b))) ->
  a <= b ->
  target ∈ ["binary"; "continuous"] ->
  build_binning_tables 0 selected_variables coefs
  = Ok (map real_df (map variable_rows named)) ->
  default (fin 0) estimator_intercept_ = fin c ->
  total_min (map (map Points) (map real_df (map variable_rows named)))
  = Ok (fin min_p) ->
  total_max (map (map Points) (map real_df (map variable_rows named)))
  = Ok (fin max_p) ->
  c + max_p <> c + min_p ->
  exists f : R -> R,
    let scaled := stacked (map (fun vt => (vt.1, map f vt.2)) named) in
    Rsum (map Rmin_list (map (map f) (map snd named))) = a
    /\ Rsum (map Rmax_list (map (map f) (map snd named))) = b
    /\ Forall (fun vt => vt.2 <> []) named
    /\ _fit_scorecard_table self intercept_0 target selected_variables (Some coefs)
         estimator_intercept_
       = if intercept_based self
         then Ok (real_df (zip (map fst scaled)
                             (map (fun r => r.2 - real_group_min scaled r.1)
                                scaled)),
                  fin (Rsum (map (real_group_min scaled)
                               (unique (map fst scaled)))))
         else Ok (real_df scaled, intercept_0).
Proof.
  intros Hm Hp Hab Htarget Hbuild Hc Hmin Hmax Hrange.
  destruct (min_max_scaled_tables (map variable_rows named) a b c
              (reverse_scorecard self) min_p max_p Hmin Hmax Hrange)
    as (Hne & Hlo & Hhi & Hlt & Hpos & Hres).
  rewrite snd_variable_rows in Hne, Hlo, Hhi, Hres.
  rewrite length_map in Hpos, Hres.
  set (slope := min_max_slope (reverse_scorecard self) a b (c + min_p)
                  (c + max_p)) in *.
  set (d := min_max_base (reverse_scorecard self) a b (c + min_p) (c + max_p) c
            / INR (length named)) in *.
  exists (fun p => d + slope * p). cbv zeta.
  rewrite <- (length_map snd) in Hpos.
  destruct (min_max_scaled_extremes (map snd named) a b c
              (reverse_scorecard self) min_p max_p Hab Hne Hlo Hhi Hlt Hpos)
    as [Hmins Hmaxs].
  rewrite (length_map snd) in Hmins, Hmaxs. fold slope d in Hmins, Hmaxs.
  split; [exact Hmins|]. split; [exact Hmaxs|].
  assert (Hne' : Forall (fun vt => vt.2 <> []) named).
  { rewrite Forall_map in Hne. exact Hne. }
  split; [exact Hne'|].
  unfold _fit_scorecard_table. rewrite Hm, Hp.
  change (_check_parameters _ _) with (Ok tt).
  rewrite check_scorecard_scaling_min_max by assumption.
  rewrite decide_False by (intros Hn; by apply Hn).
  cbn [mbind result_bind]. rewrite Hbuild, Hc. cbn [mbind result_bind].
  assert (Hnamed : named <> []).
  { intros ->. cbn in Hlo, Hhi. lra. }
  rewrite pd_concat_nonempty by (by destruct named).
  cbn [mbind result_bind]. unfold _fit_apply_score_points. rewrite Hm, Hp.
  rewrite Hres. cbn [mbind result_bind].
  rewrite concat_real_df. fold (stacked named).
  rewrite set_Points_real.
  2:{ rewrite <- (snd_variable_rows named), <- !concat_map, !length_map.
      reflexivity. }
  rewrite <- (snd_variable_rows named) at 1. rewrite zip_stacked.
  cbn [mbind result_bind].
  destruct (intercept_based self); [|reflexivity].
  rewrite compute_intercept_based_real. cbn [mbind result_bind].
  by rewrite set_Points_real by apply length_map.
Qed.

End fit_min_max.

(** ** Fits on real inputs, end to end *)

Section fit_scores.
Context `{RoundingMIP}.
Local Open Scope R_scope.
Import NP.

Lemma build_binning_tables_real (metrics : list (string * list R))
    (ks : list R) (i : nat) :
  (i + length metrics <= length ks)%nat ->
  build_binning_tables i (real_variables metrics) (map fin ks)
  = Ok (map real_df (map variable_rows (weighted metrics (drop i ks)))).
Proof.
  revert i. induction metrics as [|[v ss] metrics IH]; intros i Hlen;
    [reflexivity|].
  cbn [length] in Hlen.
  destruct (lookup_lt_is_Some_2 ks i ltac:(lia)) as [k Hk].
  unfold real_variables. cbn [map build_binning_tables fst snd].
  fold (real_variables metrics).
  rewrite list_lookup_fmap, Hk. cbn [fmap option_fmap option_map mbind result_bind].
  rewrite IH by lia. cbn [mbind result_bind].
  rewrite (drop_S _ _ _ Hk). unfold weighted. cbn [zip_with map fst snd].
  do 2 f_equal. unfold real_df, variable_rows. cbn [fst snd].
  rewrite !map_map. apply map_ext. intros s. reflexivity.
Qed.

Lemma fst_weighted (metrics : list (string * list R)) (ks : list R) :
  (length metrics <= length ks)%nat ->
  map fst (weighted metrics ks) = map fst metrics.
Proof.
  unfold weighted. revert ks.
  induction metrics as [|vt metrics IH]; intros [|k ks] Hlen; cbn in *;
    try reflexivity; try lia.
  f_equal. apply IH. lia.
Qed.

Lemma weighted_nonempty (metrics : list (string * list R)) (ks : list R) :
  Forall (fun vt => vt.2 <> []) metrics ->
  Forall (fun vt => vt.2 <> []) (weighted metrics ks).
Proof.
  unfold weighted. intros Hne. revert ks.
  induction Hne as [|[v ss] metrics Hss _ IH]; intros [|k ks]; cbn;
    constructor; [|apply IH].
  cbn [snd] in *. by destruct ss.
Qed.

Lemma variable_rows_nonempty (named : list (string * list R)) :
  Forall (fun vt => vt.2 <> []) named ->
  Forall (fun t => t <> []) (map variable_rows named).
Proof.
  intros Hne. rewrite Forall_map. eapply Forall_impl; [exact Hne|].
  intros [v [|p ps]] Hps; [by cbn in Hps | discriminate].
Qed.

Lemma fst_scaled (f : R -> R) (named : list (string * list R)) :
  map fst (map (fun vt => (vt.1, map f vt.2)) named) = map fst named.
Proof. rewrite map_map. reflexivity. Qed.

Lemma snd_scaled (f : R -> R) (named : list (string * list R)) :
  map snd (map (fun vt => (vt.1, map f vt.2)) named)
  = map (map f) (map snd named).
Proof. by rewrite !map_map. Qed.

Lemma scaled_nonempty (f : R -> R) (named : list (string * list R)) :
  Forall (fun vt => vt.2 <> []) named ->
  Forall (fun vt => vt.2 <> []) (map (fun vt => (vt.1, map f vt.2)) named).
Proof.
  intros Hne. rewrite Forall_map. eapply Forall_impl; [exact Hne|].
  intros [v [|p ps]] Hps; [by cbn in Hps | discriminate].
Qed.

(** The sums of the per-variable extremes of a stacked table are those of
    the tables it was stacked from. *)
Lemma stacked_minima (named : list (string * list R)) :
  List.NoDup (map fst named) ->
  Rsum (map (real_group_min (stacked named)) (map fst named))
  = Rsum (map Rmin_list (map snd named)).
Proof.
  intros Hnd. f_equal. exact (map_real_group_stacked Rmin_list named Hnd).
Qed.

Lemma stacked_maxima (named : list (string * list R)) :
  List.NoDup (map fst named) ->
  Rsum (map (real_group_max (stacked named)) (map fst named))
  = Rsum (map Rmax_list (map snd named)).
Proof.
  intros Hnd. f_equal. exact (map_real_group_stacked Rmax_list named Hnd).
Qed.

(** The points left by the intercept-based form are not negative. *)
Lemma rebalanced_points_nonneg (t : list (string * R)) :
  Forall (fun r => exists x, Points r = fin x /\ 0 <= x)
    (real_df (zip (map fst t) (map (fun r => r.2 - real_group_min t r.1) t))).
Proof.
  assert (Hzip : forall (g : string * R -> R) (u : list (string * R)),
            zip (map fst u) (map g u) = map (fun r => (r.1, g r)) u).
  { intros g u. induction u as [|r u IH]; [reflexivity|].
    cbn [map zip zip_with]. by rewrite <- IH. }
  rewrite Hzip. unfold real_df. rewrite map_map. apply Forall_map.
  apply List.Forall_forall. intros [v p] Hin. cbn [real_row Points fst snd].
  eexists. split; [reflexivity|].
  assert (Hle : real_group_min t v <= p); [|lra].
  apply Rmin_list_le. unfold real_group.
  apply (in_map snd _ (v, p)). apply list_elem_of_In, list_elem_of_filter.
  split; [reflexivity | by apply list_elem_of_In].
Qed.

(** The scores of a stacked table lie between the sums of the minima and of
    the maxima of its tables, each plus the intercept. *)
Lemma score_stacked_bounds (named : list (string * list R)) (c : R)
    (df_t : indices_frame) (out : list float64) :
  List.NoDup (map fst named) ->
  score (Some {| _df_scorecard := real_df (stacked named);
                 intercept_ := fin c |}) (map fst named) df_t
  = Returned out ->
  exists scores : list R,
    out = map fin scores
    /\ Forall (fun x => Rsum (map Rmin_list (map snd named)) + c <= x
                        <= Rsum (map Rmax_list (map snd named)) + c) scores.
Proof.
  intros Hnd. unfold score, when_fitted. cbn [_df_scorecard intercept_].
  rewrite replicate_fin, score_loop_real_spec.
  destruct (score_loop_real _ _ df_t _) as [scores|] eqn:Hloop; [|discriminate].
  cbn [result_map mbind result_bind]. intros [= <-].
  exists (map (fun x => x + c) scores). split.
  - rewrite !map_map. reflexivity.
  - pose proof (score_loop_real_bounds _ _ _ 0 0 _ _
                  (Forall_replicate_zero _) Hloop) as Hb.
    rewrite stacked_minima, stacked_maxima in Hb by assumption.
    apply Forall_map. eapply Forall_impl; [exact Hb|].
    intros x Hx. cbv beta in *. lra.
Qed.

(** C9.  The intercept-based form is computed inside the branch of the
    scaling.  With no scaling method (rounding off) [_fit] returns the raw
    points, statistic times coefficient, and leaves [intercept_] as it found
    it, whether or not [intercept_based] is set: the smallest point of a
    variable is its smallest raw point and nothing is moved into the
    intercept, where the documentation of [intercept_based] promises the
    smallest point of each variable set to zero and the intercept
    updated. *)
Theorem intercept_based_needs_scaling (self : Scorecard)
    (intercept_0 : float64) (target : string)
    (metrics : list (string * list R)) (ks : list R)
    (estimator_intercept_ : option float64) :
  scaling_method self = None ->
  rounding self = false ->
  target ∈ ["binary"; "continuous"] ->
  metrics <> [] ->
  (length metrics <= length ks)%nat ->
  List.NoDup (map fst metrics) ->
  Forall (fun vt => vt.2 <> []) metrics ->
  exists f : fitted,
    _fit self intercept_0 target (real_variables metrics) (Some (map fin ks))
      estimator_intercept_ = Ok f
    /\ intercept_ f = intercept_0
    /\ _df_scorecard f = real_df (stacked (weighted metrics ks))
    /\ forall vt, vt ∈ weighted metrics ks ->
         min (group (_df_scorecard f) vt.1) = Ok (fin (Rmin_list vt.2)).
Proof.
  intros Hm Hround Htarget Hmetrics Hlen Hnd Hne.
  set (named := weighted metrics ks) in *.
  assert (Hnames : map fst named = map fst metrics) by (by apply fst_weighted).
  assert (Hne' : Forall (fun vt => vt.2 <> []) named)
    by (by apply weighted_nonempty).
  pose proof (build_binning_tables_real metrics ks 0 Hlen) as Hbuild.
  rewrite drop_0 in Hbuild. fold named in Hbuild.
  assert (Hnamed : named <> []).
  { intros E. apply (f_equal (map fst)) in E. rewrite Hnames in E.
    by destruct metrics. }
  eexists. split; [|split; [|split]].
  - unfold _fit, _fit_scorecard_table. rewrite Hm.
    cbn [_check_parameters _check_scorecard_scaling mbind result_bind].
    rewrite decide_False by (intros Hn; by apply Hn).
    cbn [mbind result_bind]. rewrite Hbuild. cbn [mbind result_bind].
    rewrite pd_concat_nonempty by (by destruct named).
    cbn [mbind result_bind]. unfold _fit_apply_score_points. rewrite Hm.
    cbn [mbind result_bind]. unfold _fit_rounding. rewrite Hround.
    cbn [mbind result_bind]. reflexivity.
  - reflexivity.
  - cbn [_df_scorecard]. apply concat_real_df.
  - intros [v ps] Hin. cbn [_df_scorecard fst snd].
    rewrite concat_real_df. fold (stacked named).
    rewrite group_real.
    rewrite (real_group_stacked named v ps);
      [|by rewrite Hnames|by apply list_elem_of_In].
    apply min_real. rewrite Forall_forall in Hne'. exact (Hne' _ Hin).
Qed.

(** X17.  In exact arithmetic: a fit with "min_max" scaling and no
    rounding, on real statistic columns with distinct variable names, real
    coefficients and a score range that is not a single point, succeeds.
    With the intercept-based form every score the fitted scorecard then
    gives lies between the configured [min] and [max]; without it, between
    [min] and [max] each plus the value [intercept_] had before the fit,
    which [_fit] leaves in place (0 on a new object).  This holds in both
    directions of the scorecard. *)
Theorem min_max_fit_scores_in_range (self : Scorecard) (intercept_0 : float64)
    (target : string) (metrics : list (string * list R)) (ks : list R)
    (estimator_intercept_ : option float64) (a b c c0 : R) :
  rounding self = false ->
  scaling_method self = Some "min_max" ->
  scaling_method_params self
  = Some (min_max_params (PyNum (fin a)) (PyNum (fin b))) ->
  a <= b ->
  target ∈ ["binary"; "continuous"] ->
  (length metrics <= length ks)%nat ->
  List.NoDup (map fst metrics) ->
  Forall (fun vt => vt.2 <> []) metrics ->
  default (fin 0) estimator_intercept_ = fin c ->
  intercept_0 = fin c0 ->
  Rsum (map Rmin_list (map snd (weighted metrics ks)))
  <> Rsum (map Rmax_list (map snd (weighted metrics ks))) ->
  let kept := if intercept_based self then 0 else c0 in
  exists f : fitted,
    _fit self intercept_0 target (real_variables metrics) (Some (map fin ks))
      estimator_intercept_ = Ok f
    /\ forall (df_t : indices_frame) (out : list float64),
         score (Some f) (map fst metrics) df_t = Returned out ->
         exists scores : list R,
           out = map fin scores
           /\ Forall (fun x => a + kept <= x <= b + kept) scores.
Proof.
  intros Hround Hm Hp Hab Htarget Hlen Hnd Hne Hc Hc0 Hrange kept.
  set (named := weighted metrics ks) in *.
  assert (Hnames : map fst named = map fst metrics) by (by apply fst_weighted).
  assert (Hne' : Forall (fun vt => vt.2 <> []) named)
    by (by apply weighted_nonempty).
  pose proof (build_binning_tables_real metrics ks 0 Hlen) as Hbuild.
  rewrite drop_0 in Hbuild. fold named in Hbuild.
  pose proof (total_min_real_df (map variable_rows named) _
                (variable_rows_nonempty _ Hne') eq_refl) as Hmin.
  pose proof (total_max_real_df (map variable_rows named) _
                (variable_rows_nonempty _ Hne') eq_refl) as Hmax.
  rewrite snd_variable_rows in Hmin, Hmax.
  destruct (fit_min_max_scaled self intercept_0 target (real_variables metrics)
              (map fin ks) estimator_intercept_ named a b c _ _
              Hm Hp Hab Htarget Hbuild Hc Hmin Hmax ltac:(lra))
    as (f & Hmins & Hmaxs & _ & Hfit).
  cbv zeta in Hfit. unfold _fit. rewrite Hfit.
  set (scaled := map (fun vt => (vt.1, map f vt.2)) named) in *.
  assert (Hnd' : List.NoDup (map fst scaled)).
  { unfold scaled. by rewrite fst_scaled, Hnames. }
  assert (Hbounds : forall shift df_t out,
            score (Some {| _df_scorecard := real_df (stacked scaled);
                           intercept_ := fin shift |}) (map fst metrics) df_t
            = Returned out ->
            exists scores : list R,
              out = map fin scores
              /\ Forall (fun x => a + shift <= x <= b + shift) scores).
  { intros shift df_t out Hout.
    replace (map fst metrics) with (map fst scaled) in Hout
      by (unfold scaled; by rewrite fst_scaled).
    destruct (score_stacked_bounds scaled shift df_t out Hnd' Hout)
      as (scores & -> & Hb).
    exists scores. split; [reflexivity|].
    unfold scaled in Hb. rewrite snd_scaled, Hmins, Hmaxs in Hb. exact Hb. }
  subst kept. destruct (intercept_based self).
  - cbn [mbind result_bind]. unfold _fit_rounding. rewrite Hround.
    cbn [mbind result_bind]. eexists. split; [reflexivity|].
    intros df_t out. rewrite score_rebalanced_real; [apply Hbounds|].
    rewrite <- Hnames, <- (fst_scaled f named). fold scaled.
    apply names_unique_stacked; [exact Hnd' | by apply scaled_nonempty].
  - cbn [mbind result_bind]. unfold _fit_rounding. rewrite Hround.
    cbn [mbind result_bind]. eexists. split; [reflexivity|].
    rewrite Hc0. apply Hbounds.
Qed.

(** X18.  In exact arithmetic and under the same conditions, with the
    intercept-based form the fitted intercept is the configured [min]
    itself, whatever [intercept_] was before, and no row of the scorecard has
    negative points. *)
Theorem min_max_intercept_based_fit (self : Scorecard) (intercept_0 : float64)
    (target : string)
    (metrics : list (string * list R)) (ks : list R)
    (estimator_intercept_ : option float64) (a b c : R) :
  rounding self = false ->
  intercept_based self = true ->
  scaling_method self = Some "min_max" ->
  scaling_method_params self
  = Some (min_max_params (PyNum (fin a)) (PyNum (fin b))) ->
  a <= b ->
  target ∈ ["binary"; "continuous"] ->
  (length metrics <= length ks)%nat ->
  List.NoDup (map fst metrics) ->
  Forall (fun vt => vt.2 <> []) metrics ->
  default (fin 0) estimator_intercept_ = fin c ->
  Rsum (map Rmin_list (map snd (weighted metrics ks)))
  <> Rsum (map Rmax_list (map snd (weighted metrics ks))) ->
  exists df_scorecard : list row,
    _fit self intercept_0 target (real_variables metrics) (Some (map fin ks))
      estimator_intercept_
    = Ok {| _df_scorecard := df_scorecard; intercept_ := fin a |}
    /\ Forall (fun r => exists x, Points r = fin x /\ 0 <= x) df_scorecard.
Proof.
  intros Hround Hib Hm Hp Hab Htarget Hlen Hnd Hne Hc Hrange.
  set (named := weighted metrics ks) in *.
  assert (Hnames : map fst named = map fst metrics) by (by apply fst_weighted).
  assert (Hne' : Forall (fun vt => vt.2 <> []) named)
    by (by apply weighted_nonempty).
  pose proof (build_binning_tables_real metrics ks 0 Hlen) as Hbuild.
  rewrite drop_0 in Hbuild. fold named in Hbuild.
  pose proof (total_min_real_df (map variable_rows named) _
                (variable_rows_nonempty _ Hne') eq_refl) as Hmin.
  pose proof (total_max_real_df (map variable_rows named) _
                (variable_rows_nonempty _ Hne') eq_refl) as Hmax.
  rewrite snd_variable_rows in Hmin, Hmax.
  destruct (fit_min_max_scaled self intercept_0 target (real_variables metrics)
              (map fin ks) estimator_intercept_ named a b c _ _
              Hm Hp Hab Htarget Hbuild Hc Hmin Hmax ltac:(lra))
    as (f & Hmins & _ & _ & Hfit).
  cbv zeta in Hfit. rewrite Hib in Hfit. unfold _fit. rewrite Hfit.
  set (scaled := map (fun vt => (vt.1, map f vt.2)) named) in *.
  assert (Hnd' : List.NoDup (map fst scaled)).
  { unfold scaled. by rewrite fst_scaled, Hnames. }
  assert (Hsum : Rsum (map (real_group_min (stacked scaled))
                         (unique (map fst (stacked scaled)))) = a).
  { rewrite <- (Rsum_Permutation
                  (map (real_group_min (stacked scaled)) (map fst scaled))).
    - rewrite stacked_minima by assumption.
      unfold scaled. by rewrite snd_scaled.
    - apply Permutation_map, names_unique_stacked;
        [exact Hnd' | by apply scaled_nonempty]. }
  rewrite Hsum. cbn [mbind result_bind]. unfold _fit_rounding. rewrite Hround.
  cbn [mbind result_bind]. eexists. split; [reflexivity|].
  apply rebalanced_points_nonneg.
Qed.

(** X19.  Without a scaling method the estimator's intercept plays no part
    in the fit: whatever it is, [_fit] gives the same outcome. *)
Theorem raw_fit_ignores_estimator_intercept (self : Scorecard) (intercept_0 : float64)
    (target : string) (selected_variables : list (string * list float64))
    (coef_ : option (list float64)) (i1 i2 : option float64) :
  scaling_method self = None ->
  _fit self intercept_0 target selected_variables coef_ i1
  = _fit self intercept_0 target selected_variables coef_ i2.
Proof.
  intros Hm. unfold _fit.
  assert (Htable : _fit_scorecard_table self intercept_0 target selected_variables coef_ i1
                   = _fit_scorecard_table self intercept_0 target selected_variables coef_
                       i2); [|by rewrite Htable].
  unfold _fit_scorecard_table.
  destruct (_check_parameters _ _); [|reflexivity].
  destruct (decide (target ∉ _)); [reflexivity|].
  destruct (_check_scorecard_scaling _ _ _); [|reflexivity].
  destruct coef_ as [coefs|]; [|reflexivity].
  cbn [mbind result_bind].
  destruct (build_binning_tables 0 selected_variables coefs) as [bts|];
    [|reflexivity].
  cbn [mbind result_bind].
  destruct (pd_concat bts) as [df|]; [|reflexivity].
  cbn [mbind result_bind]. unfold _fit_apply_score_points. by rewrite Hm.
Qed.

End fit_scores.

(** ** What [score] computes *)

Section score_samples.
Local Open Scope R_scope.
Import NP.

Lemma take_one_cases (points : list float64) (i : Z) :
  (index_ok (length points) i /\ exists p, take_one points i = Ok p)
  \/ (~ index_ok (length points) i /\ take_one points i = Raise IndexError).
Proof.
  unfold take_one, index_ok. destruct (decide _) as [Hi|Hi]; [left|right].
  - split; [exact Hi|].
    destruct (lookup_lt_is_Some_2 points
                (Z.to_nat (if decide (i < 0)%Z
                           then (i + Z.of_nat (length points))%Z else i)))
      as [p Hp].
    + destruct (decide (i < 0)%Z); lia.
    + rewrite Hp. by exists p.
  - split; [exact Hi | reflexivity].
Qed.

Lemma take_cases (points : list float64) (column : list Z) :
  (Forall (index_ok (length points)) column
   /\ exists values, take points column = Ok values
                     /\ length values = length column)
  \/ (Exists (fun i => ~ index_ok (length points) i) column
      /\ take points column = Raise IndexError).
Proof.
  unfold take. induction column as [|i column IH].
  - left. split; [constructor|]. by exists [].
  - cbn [comprehension].
    destruct (take_one_cases points i) as [[Hi [p ->]]|[Hi ->]].
    + cbn [mbind result_bind].
      destruct IH as [[Hall (values & -> & Hlen)]|[Hex ->]].
      * left. split; [by constructor|]. exists (p :: values).
        split; [reflexivity|]. cbn [length]. by rewrite Hlen.
      * right. split; [by apply Exists_cons_tl | reflexivity].
    + right. split; [by apply Exists_cons_hd | reflexivity].
Qed.

Lemma iadd_same_length (score_ values : list float64) :
  length values = length score_ ->
  iadd score_ values = Ok (zip_with add score_ values).
Proof.
  intros Hlen. unfold iadd.
  destruct values as [|v [|v' values]].
  - by rewrite decide_True.
  - destruct score_ as [|s [|s' score_]]; try discriminate. reflexivity.
  - by rewrite decide_True.
Qed.

Lemma score_loop_cases (df_scorecard : list row) (vs : list string)
    (df_t : indices_frame) (score_ : list float64) :
  frame_wf df_t ->
  length score_ = shape0 df_t ->
  Forall (fun v => is_Some (columns df_t !! v)) vs ->
  (Forall (indices_ok df_scorecard df_t) vs
   /\ exists out, score_loop df_scorecard vs df_t score_ = Ok out
                  /\ length out = shape0 df_t)
  \/ (~ Forall (indices_ok df_scorecard df_t) vs
      /\ score_loop df_scorecard vs df_t score_ = Raise IndexError).
Proof.
  intros Hwf Hlen Hcols. revert score_ Hlen.
  induction Hcols as [|v vs [column Hcol] _ IH]; intros score_ Hlen.
  - left. split; [constructor|]. by exists score_.
  - cbn [score_loop]. rewrite group_select, Hcol. cbn [mbind result_bind].
    destruct (take_cases (group df_scorecard v) column)
      as [[Hall (values & -> & Hvalues)]|[Hex ->]].
    + cbn [mbind result_bind].
      pose proof (Hwf _ _ Hcol) as Hshape.
      rewrite iadd_same_length by congruence. cbn [mbind result_bind].
      destruct (IH (zip_with add score_ values)) as [[Hok Hout]|[Hbad Hout]].
      * rewrite length_zip_with. lia.
      * left. split; [|exact Hout]. constructor; [|exact Hok].
        by exists column.
      * right. split; [|exact Hout]. intros Hall'. apply Hbad.
        by inversion Hall'.
    + right. split; [|reflexivity]. intros Hall. inversion Hall as [|? ? Hv _].
      destruct Hv as (column' & Hcol' & Hok). rewrite Hcol in Hcol'.
      injection Hcol' as <-. apply Exists_exists in Hex.
      destruct Hex as (i & Hi & Hbad). rewrite Forall_forall in Hok.
      by apply Hbad, Hok.
Qed.

(** X20.  On a fitted scorecard, when every column of the transformed
    frame has one entry per sample and every index of a selected variable
    fits the rows the scorecard has for it, [score] returns one score per
    sample. *)
Theorem score_returns (f : fitted) (selected_variables : list string)
    (df_t : indices_frame) :
  frame_wf df_t ->
  Forall (indices_ok (_df_scorecard f) df_t) selected_variables ->
  exists out,
    score (Some f) selected_variables df_t = Returned out
    /\ length out = shape0 df_t.
Proof.
  intros Hwf Hok. unfold score, when_fitted.
  destruct (score_loop_cases (_df_scorecard f) selected_variables df_t
              (replicate (shape0 df_t) (fin 0)) Hwf)
    as [[_ (out & -> & Hlen)]|[Hbad _]].
  - apply length_replicate.
  - eapply Forall_impl; [exact Hok|]. intros v (column & -> & _). by eexists.
  - cbn [mbind result_bind]. eexists. split; [reflexivity|].
    by rewrite length_map.
  - by destruct Hbad.
Qed.

(** X21.  With the same frame, when every selected variable is a column
    but some index does not fit the rows of its variable, [score] raises
    [IndexError]. *)
Theorem score_index_error (f : fitted) (selected_variables : list string)
    (df_t : indices_frame) :
  frame_wf df_t ->
  Forall (fun v => is_Some (columns df_t !! v)) selected_variables ->
  ~ Forall (indices_ok (_df_scorecard f) df_t) selected_variables ->
  score (Some f) selected_variables df_t = Failed IndexError.
Proof.
  intros Hwf Hcols Hbad. unfold score, when_fitted.
  destruct (score_loop_cases (_df_scorecard f) selected_variables df_t
              (replicate (shape0 df_t) (fin 0)) Hwf)
    as [[Hok _]|[_ ->]].
  - apply length_replicate.
  - exact Hcols.
  - by destruct Hbad.
  - reflexivity.
Qed.

Lemma comprehension_lookup {X Y} (f : X -> result Y) (xs : list X)
    (ys : list Y) (j : nat) (x : X) :
  comprehension f xs = Ok ys -> xs !! j = Some x ->
  exists y, ys !! j = Some y /\ f x = Ok y.
Proof.
  revert ys j. induction xs as [|x' xs IH]; intros ys j; [by intros _ ?|].
  cbn [comprehension]. destruct (f x') as [y'|] eqn:Hy'; [|discriminate].
  cbn [mbind result_bind].
  destruct (comprehension f xs) as [ys'|]; [|discriminate].
  intros [= <-]. destruct j as [|j]; cbn [lookup list_lookup].
  - intros [= <-]. by exists y'.
  - intros Hx. by apply IH.
Qed.

Lemma iadd_real_same_length (score_ values : list R) :
  length values = length score_ ->
  iadd_real score_ values = Ok (zip_with Rplus score_ values).
Proof.
  intros Hlen. unfold iadd_real.
  destruct values as [|v [|v' values]].
  - by rewrite decide_True.
  - destruct score_ as [|s [|s' score_]]; try discriminate. reflexivity.
  - by rewrite decide_True.
Qed.

Lemma score_loop_real_samples (t : list (string * R)) (vs : list string)
    (df_t : indices_frame) (score_ out : list R) :
  frame_wf df_t ->
  length score_ = shape0 df_t ->
  score_loop_real t vs df_t score_ = Ok out ->
  forall (j : nat) (s : R), score_ !! j = Some s ->
    exists ps, Forall2 (fun v p => sample_points t df_t j v = Some p) vs ps
               /\ out !! j = Some (s + Rsum ps).
Proof.
  intros Hwf. revert score_. induction vs as [|v vs IH];
    intros score_ Hlen Hloop j s Hs.
  - injection Hloop as <-. exists []. split; [constructor|].
    rewrite Hs. f_equal. cbn. lra.
  - cbn [score_loop_real] in Hloop.
    destruct (columns df_t !! v) as [column|] eqn:Hcol; [|discriminate].
    cbn [mbind result_bind] in Hloop.
    destruct (comprehension _ column) as [values|] eqn:Hvalues; [|discriminate].
    cbn [mbind result_bind] in Hloop.
    pose proof (length_comprehension _ _ _ Hvalues) as Hlv.
    pose proof (Hwf _ _ Hcol) as Hshape.
    rewrite iadd_real_same_length in Hloop by congruence.
    cbn [mbind result_bind] in Hloop.
    destruct (lookup_lt_is_Some_2 column j) as [i Hi].
    { apply lookup_lt_Some in Hs. lia. }
    destruct (comprehension_lookup _ _ _ _ _ Hvalues Hi) as (p & Hp & Htake).
    destruct (IH (zip_with Rplus score_ values)
                ltac:(rewrite length_zip_with; lia) Hloop j (s + p))
      as (ps & Hps & Hout).
    { rewrite lookup_zip_with, Hs. cbn. by rewrite Hp. }
    exists (p :: ps). split.
    + constructor; [|exact Hps]. unfold sample_points.
      by rewrite Hcol, Hi, Htake.
    + rewrite Hout. change (Rsum (p :: ps)) with (p + Rsum ps).
      apply f_equal. lra.
Qed.

(** X22.  On a real scorecard and a frame with one entry per sample in
    every column, the score of each sample is the intercept plus the sum,
    over the selected variables, of the points the scorecard has at the
    sample's index for the variable. *)
Theorem score_of_sample (t : list (string * R)) (c : R)
    (selected_variables : list string) (df_t : indices_frame)
    (out : list float64) :
  frame_wf df_t ->
  score (Some {| _df_scorecard := real_df t; intercept_ := fin c |})
    selected_variables df_t = Returned out ->
  forall j : nat, (j < shape0 df_t)%nat ->
    exists ps,
      Forall2 (fun v p => sample_points t df_t j v = Some p)
        selected_variables ps
      /\ out !! j = Some (fin (Rsum ps + c)).
Proof.
  intros Hwf. unfold score, when_fitted. cbn [_df_scorecard intercept_].
  rewrite replicate_fin, score_loop_real_spec.
  destruct (score_loop_real t selected_variables df_t _) as [scores|] eqn:Hloop;
    [|discriminate].
  cbn [result_map mbind result_bind]. intros [= <-] j Hj.
  destruct (score_loop_real_samples t selected_variables df_t _ scores Hwf
              (length_replicate _ _) Hloop j 0) as (ps & Hps & Hout).
  { by apply lookup_replicate_2. }
  exists ps. split; [exact Hps|].
  rewrite map_map, list_lookup_fmap, Hout. cbn. do 2 f_equal. lra.
Qed.

End score_samples.

(** ** The detailed table *)

Section table_columns.

(** X23.  For a fitted scorecard whose columns are distinct and include
    "Variable", "Bin id" and "Bin", the detailed table has these three
    columns first and then all the others in their original order: no column
    is lost and none is repeated. *)
Theorem table_detailed_reorders (f : fitted) (df_columns : list string) :
  NoDup df_columns ->
  "Variable" ∈ df_columns -> "Bin id" ∈ df_columns -> "Bin" ∈ df_columns ->
  exists rest_columns,
    table (Some f) df_columns "detailed"
    = Returned (["Variable"; "Bin id"; "Bin"] ++ rest_columns)%list
    /\ (["Variable"; "Bin id"; "Bin"] ++ rest_columns)%list ≡ₚ df_columns
    /\ rest_columns `sublist_of` df_columns.
Proof.
  intros Hnd Hv Hid Hbin.
  set (main_columns := ["Variable"; "Bin id"; "Bin"]).
  exists (filter (fun col => col ∉ main_columns) df_columns).
  split; [|split].
  - unfold table, when_fitted.
    rewrite (decide_False (P := "detailed" ∉ _))
      by (intros Hn; apply Hn; repeat constructor).
    rewrite (decide_False (P := "detailed" = "summary")) by discriminate.
    cbv zeta. fold main_columns. rewrite decide_True; [reflexivity|].
    apply Forall_app. split.
    + repeat constructor; assumption.
    + apply Forall_forall. intros col Hcol.
      by apply list_elem_of_filter in Hcol as [_ Hcol].
  - apply NoDup_Permutation.
    + apply NoDup_app. split; [|split].
      * unfold main_columns. repeat constructor; rewrite ?elem_of_cons;
          rewrite ?elem_of_nil; intuition discriminate.
      * intros col Hmain Hrest.
        by apply list_elem_of_filter in Hrest as [Hnot _].
      * by apply NoDup_filter.
    + exact Hnd.
    + intros col. rewrite elem_of_app, list_elem_of_filter.
      split.
      * intros [Hmain|[_ Hcol]]; [|exact Hcol].
        unfold main_columns in Hmain. rewrite !elem_of_cons in Hmain.
        rewrite elem_of_nil in Hmain.
        destruct Hmain as [->|[->|[->|[]]]]; assumption.
      * intros Hcol. destruct (decide (col ∈ main_columns)); [by left|].
        right. by split.
  - apply sublist_filter.
Qed.

End table_columns.

(** ** The further properties on concrete inputs *)

Section further_concrete.
Local Open Scope R_scope.
Import NP.

Local Ltac real_cases :=
  repeat match goal with
    | |- context [Req_dec_T ?x ?y] =>
        destruct (Req_dec_T x y); try (exfalso; lra)
    | |- context [Rlt_dec ?x ?y] =>
        destruct (Rlt_dec x y); try (exfalso; lra)
    | |- context [Rle_dec ?x ?y] =>
        destruct (Rle_dec x y); try (exfalso; lra)
    end.

Local Ltac not_in_list :=
  let H := fresh in
  intros H;
  repeat (apply elem_of_cons in H as [H|H]; [discriminate|]);
  by apply elem_of_nil in H.



Lemma min_max_ignores_intercept_witness :
  let binning_tables := map real_df [[("x", 0); ("x", 1)]] in
  total_min (map (map Points) binning_tables) = Ok (fin 0)
  /\ total_max (map (map Points) binning_tables) = Ok (fin 1)
  /\ 1 <> 0
  /\ _compute_scorecard_points (map fin [0; 1]) binning_tables "min_max"
       (Some (min_max_params (PyNum (fin 0)) (PyNum (fin 100))))
       (fin 0) false
     = _compute_scorecard_points (map fin [0; 1]) binning_tables "min_max"
         (Some (min_max_params (PyNum (fin 0)) (PyNum (fin 100))))
         (fin 5) false.
Proof.
  assert (H3 : 1 <> 0) by lra.
  split; [apply two_bins_total_min|]. split; [apply two_bins_total_max|].
  split; [exact H3|].
  exact (min_max_ignores_intercept [0; 1] _ 0 100 false 0 1 0 5
           two_bins_total_min two_bins_total_max H3).
Defined.

Lemma min_max_reverse_mirrors_witness :
  let binning_tables := map real_df [[("x", 0); ("x", 1)]] in
  total_min (map (map Points) binning_tables) = Ok (fin 0)
  /\ total_max (map (map Points) binning_tables) = Ok (fin 1)
  /\ 1 <> 0
  /\ exists d k : R,
       forall points : list R,
         _compute_scorecard_points (map fin points) binning_tables "min_max"
           (Some (min_max_params (PyNum (fin 0)) (PyNum (fin 100))))
           (fin 0) false
         = Ok (map (fun p => fin (d + k * p)) points)
         /\ _compute_scorecard_points (map fin points) binning_tables
              "min_max"
              (Some (min_max_params (PyNum (fin 0)) (PyNum (fin 100))))
              (fin 0) true
            = Ok (map (fun p =>
                         fin ((0 + 100) / INR (length binning_tables)
                              - (d + k * p)))
                    points).
Proof.
  assert (H3 : 1 <> 0) by lra.
  split; [apply two_bins_total_min|]. split; [apply two_bins_total_max|].
  split; [exact H3|].
  exact (min_max_reverse_mirrors _ 0 100 0 0 1
           two_bins_total_min two_bins_total_max H3).
Defined.

Lemma min_max_observation_in_range_witness :
  let tables := [[("x", 0); ("x", 1)]] in
  let binning_tables := map real_df tables in
  0 <= 100
  /\ total_min (map (map Points) binning_tables) = Ok (fin 0)
  /\ total_max (map (map Points) binning_tables) = Ok (fin 1)
  /\ 1 <> 0
  /\ Forall2 (fun t p => In p (map snd t)) tables [1]
  /\ exists scaled : list R,
       _compute_scorecard_points (map fin [1]) binning_tables "min_max"
         (Some (min_max_params (PyNum (fin 0)) (PyNum (fin 100))))
         (fin 0) false
       = Ok (map fin scaled)
       /\ 0 <= Rsum scaled <= 100.
Proof.
  assert (H1 : 0 <= 100) by lra.
  assert (H4 : 1 <> 0) by lra.
  assert (H5 : Forall2 (fun (t : list (string * R)) p => In p (map snd t))
                 [[("x", 0); ("x", 1)]] [1]).
  { constructor; [right; left; reflexivity | constructor]. }
  split; [exact H1|]. split; [apply two_bins_total_min|].
  split; [apply two_bins_total_max|]. split; [exact H4|]. split; [exact H5|].
  exact (min_max_observation_in_range [[("x", 0); ("x", 1)]] [1] 0 100 0 false
           0 1 H1 two_bins_total_min two_bins_total_max H4 H5).
Defined.

Lemma scaling_missing_key_witness :
  (("min_max" = "pdo_odds" /\ "min" ∈ ["pdo"; "odds"; "scorecard_points"])
   \/ ("min_max" = "min_max" /\ "min" ∈ ["min"; "max"]))
  /\ (∅ : dict) !! "min" = None
  /\ _compute_scorecard_points [fin 1] [[Row "x" (fin 1)]] "min_max" (Some ∅)
       (fin 0) false
     = Raise KeyError.
Proof.
  assert (H1 : ("min_max" = "pdo_odds"
                /\ "min" ∈ ["pdo"; "odds"; "scorecard_points"])
               \/ ("min_max" = "min_max" /\ "min" ∈ ["min"; "max"])).
  { right. split; [reflexivity | apply list_elem_of_here]. }
  split; [exact H1|]. split; [apply lookup_empty|].
  exact (scaling_missing_key [fin 1] [[Row "x" (fin 1)]] "min_max" ∅ (fin 0)
           false "min" H1 (lookup_empty _)).
Defined.

Lemma intercept_based_nan_witness :
  Row "x" nan ∈ [Row "x" nan; Row "x" (fin 1)]
  /\ Points (Row "x" nan) = nan
  /\ exists new_points,
       _compute_intercept_based [Row "x" nan; Row "x" (fin 1)]
       = Ok (new_points, nan)
       /\ Forall2 (fun r' p => Variable_ r' = Variable_ (Row "x" nan) -> p = nan)
            [Row "x" nan; Row "x" (fin 1)] new_points.
Proof.
  assert (H1 : Row "x" nan ∈ [Row "x" nan; Row "x" (fin 1)])
    by apply list_elem_of_here.
  split; [exact H1|]. split; [reflexivity|].
  exact (intercept_based_nan _ _ H1 eq_refl).
Defined.

Lemma validation_outcomes_witness :
  let p := Some (min_max_params (PyComplex 0 1) (PyNum (fin 2))) in
  _check_parameters (Some "min_max") p = Ok tt
  /\ (_check_scorecard_scaling (Some "min_max") p "binary" = Ok tt
      \/ _check_scorecard_scaling (Some "min_max") p "binary"
         = Raise ValueError
      \/ (_check_scorecard_scaling (Some "min_max") p "binary"
          = Raise TypeError
          /\ exists d, p = Some d /\ has_complex d)).
Proof.
  split; [reflexivity|].
  exact (validation_outcomes (Some "min_max")
           (Some (min_max_params (PyComplex 0 1) (PyNum (fin 2)))) "binary"
           eq_refl).
Defined.

Lemma fit_rejects_options_witness :
  ((exists m, scaling_method raw_rounded = Some m
              /\ (m ∉ ["pdo_odds"; "min_max"]
                  \/ scaling_method_params raw_rounded = None))
   \/ "multiclass" ∉ ["binary"; "continuous"])
  /\ @_fit failing_mip raw_rounded new_intercept_ "multiclass" [("x", [fin 1; fin 3])]
       (Some [fin 1]) None
     = Raise ValueError.
Proof.
  assert (H1 : (exists m, scaling_method raw_rounded = Some m
                          /\ (m ∉ ["pdo_odds"; "min_max"]
                              \/ scaling_method_params raw_rounded = None))
               \/ "multiclass" ∉ ["binary"; "continuous"]).
  { right. not_in_list. }
  split; [exact H1|].
  exact (@fit_rejects_options failing_mip raw_rounded new_intercept_
           "multiclass" _ _ None H1).
Defined.

Lemma fit_too_few_coefficients_witness :
  _check_parameters (scaling_method raw_intercept_based)
    (scaling_method_params raw_intercept_based) = Ok tt
  /\ "binary" ∈ ["binary"; "continuous"]
  /\ _check_scorecard_scaling (scaling_method raw_intercept_based)
       (scaling_method_params raw_intercept_based) "binary" = Ok tt
  /\ (length [fin 1] < length [("x", [fin 1]); ("y", [fin 3])])%nat
  /\ @_fit failing_mip raw_intercept_based new_intercept_ "binary"
       [("x", [fin 1]); ("y", [fin 3])] (Some [fin 1]) None
     = Raise IndexError.
Proof.
  assert (H2 : "binary" ∈ ["binary"; "continuous"]) by apply list_elem_of_here.
  assert (H4 : (length [fin 1]
                < length [("x", [fin 1]); ("y", [fin 3])])%nat)
    by (cbn; lia).
  split; [reflexivity|]. split; [exact H2|]. split; [reflexivity|].
  split; [exact H4|].
  exact (@fit_too_few_coefficients failing_mip raw_intercept_based
           new_intercept_ "binary" [("x", [fin 1]); ("y", [fin 3])] [fin 1]
           None eq_refl H2 eq_refl H4).
Defined.

Lemma fit_no_selected_variable_witness :
  _check_parameters (scaling_method raw_intercept_based)
    (scaling_method_params raw_intercept_based) = Ok tt
  /\ "binary" ∈ ["binary"; "continuous"]
  /\ _check_scorecard_scaling (scaling_method raw_intercept_based)
       (scaling_method_params raw_intercept_based) "binary" = Ok tt
  /\ @_fit failing_mip raw_intercept_based new_intercept_ "binary" [] (Some [fin 1]) None
     = Raise ValueError.
Proof.
  assert (H2 : "binary" ∈ ["binary"; "continuous"]) by apply list_elem_of_here.
  split; [reflexivity|]. split; [exact H2|]. split; [reflexivity|].
  exact (@fit_no_selected_variable failing_mip raw_intercept_based
           new_intercept_ "binary" [fin 1] None eq_refl H2 eq_refl).
Defined.

Lemma rounding_moves_half_at_most_witness :
  let t := [("x", 100); ("x", 0)] in
  rounding min_max_rounded = true
  /\ (scaling_method min_max_rounded = Some "pdo_odds"
      \/ (scaling_method min_max_rounded = Some "min_max"
          /\ (@solve failing_mip (@build_model failing_mip (real_df t))).1
             ∉ ["OPTIMAL"; "FEASIBLE"]))
  /\ exists zs : list Z,
       @_fit_rounding failing_mip min_max_rounded (real_df t)
       = Ok (real_df (zip (map fst t) (map IZR zs)))
       /\ Forall2 (fun r z => Rabs (IZR z - r.2) <= 1 / 2) t zs.
Proof.
  assert (H2 : scaling_method min_max_rounded = Some "pdo_odds"
               \/ (scaling_method min_max_rounded = Some "min_max"
                   /\ (@solve failing_mip
                         (@build_model failing_mip
                            (real_df [("x", 100); ("x", 0)]))).1
                      ∉ ["OPTIMAL"; "FEASIBLE"])).
  { right. split; [reflexivity | not_in_list]. }
  split; [reflexivity|]. split; [exact H2|].
  exact (@rounding_moves_half_at_most failing_mip min_max_rounded
           [("x", 100); ("x", 0)] eq_refl H2).
Defined.


Lemma one_sample_wf (variable : string) (i : Z) :
  frame_wf (one_sample variable i).
Proof.
  intros v c Hc. unfold one_sample in Hc. cbn [columns] in Hc.
  apply lookup_singleton_Some in Hc as [_ <-]. reflexivity.
Qed.

(** One variable with points 1 and 3, and a sample in the second bin. *)
Lemma second_bin_score :
  score (Some {| _df_scorecard := real_df [("x", 1); ("x", 3)];
                 intercept_ := fin 10 |}) ["x"] (one_sample "x" 1)
  = Returned [fin (0 + 3 + 10)].
Proof.
  unfold score, when_fitted, one_sample.
  cbn [_df_scorecard intercept_ shape0 columns replicate score_loop].
  rewrite lookup_singleton. reflexivity.
Qed.

Lemma score_between_extremes_witness :
  let t := [("x", 1); ("x", 3)] in
  score (Some {| _df_scorecard := real_df t; intercept_ := fin 10 |}) ["x"]
    (one_sample "x" 1)
  = Returned [fin (0 + 3 + 10)]
  /\ exists scores : list R,
       [fin (0 + 3 + 10)] = map fin scores
       /\ Forall (fun x => Rsum (map (real_group_min t) ["x"]) + 10 <= x
                           <= Rsum (map (real_group_max t) ["x"]) + 10)
            scores.
Proof.
  split; [exact second_bin_score|].
  exact (score_between_extremes [("x", 1); ("x", 3)] 10 ["x"]
           (one_sample "x" 1) _ second_bin_score).
Defined.

(** One variable with statistic values 0 and 1 and coefficient 1. *)
Lemma unit_metrics_range :
  Rsum (map Rmin_list (map snd (weighted [("x", [0; 1])] [1])))
  <> Rsum (map Rmax_list (map snd (weighted [("x", [0; 1])] [1]))).
Proof.
  unfold weighted.
  cbn [zip_with map fst snd Rsum foldr foldl Rmin_list Rmax_list].
  unfold Rmin, Rmax. real_cases; lra.
Qed.

Lemma unit_metrics_names : List.NoDup (map fst [("x", [0; 1])]).
Proof.
  cbn [map fst]. apply List.NoDup_cons; [intros [] | apply List.NoDup_nil].
Qed.

Lemma unit_metrics_nonempty :
  Forall (fun vt : string * list R => vt.2 <> []) [("x", [0; 1])].
Proof. apply List.Forall_cons; [discriminate | apply List.Forall_nil]. Qed.

Lemma min_max_fit_scores_in_range_witness :
  let self := min_max_plain false in
  let metrics := [("x", [0; 1])] in
  rounding self = false
  /\ scaling_method self = Some "min_max"
  /\ scaling_method_params self
     = Some (min_max_params (PyNum (fin 0)) (PyNum (fin 100)))
  /\ 0 <= 100
  /\ "binary" ∈ ["binary"; "continuous"]
  /\ (length metrics <= length [1])%nat
  /\ List.NoDup (map fst metrics)
  /\ Forall (fun vt => vt.2 <> []) metrics
  /\ default (fin 0) None = fin 0
  /\ fin 7 = fin 7
  /\ Rsum (map Rmin_list (map snd (weighted metrics [1])))
     <> Rsum (map Rmax_list (map snd (weighted metrics [1])))
  /\ exists f : fitted,
       @_fit failing_mip self (fin 7) "binary" (real_variables metrics)
         (Some (map fin [1])) None = Ok f
       /\ forall (df_t : indices_frame) (out : list float64),
            score (Some f) (map fst metrics) df_t = Returned out ->
            exists scores : list R,
              out = map fin scores
              /\ Forall (fun x => 0 + 7 <= x <= 100 + 7) scores.
Proof.
  assert (H4 : 0 <= 100) by lra.
  assert (H5 : "binary" ∈ ["binary"; "continuous"]) by apply list_elem_of_here.
  assert (H6 : (length [("x", [0; 1])] <= length [1])%nat) by apply le_n.
  split; [reflexivity|]. split; [reflexivity|]. split; [reflexivity|].
  split; [exact H4|]. split; [exact H5|]. split; [exact H6|].
  split; [exact unit_metrics_names|]. split; [exact unit_metrics_nonempty|].
  split; [reflexivity|]. split; [reflexivity|].
  split; [exact unit_metrics_range|].
  exact (@min_max_fit_scores_in_range failing_mip (min_max_plain false)
           (fin 7) "binary" [("x", [0; 1])] [1] None 0 100 0 7
           eq_refl eq_refl eq_refl H4 H5 H6 unit_metrics_names
           unit_metrics_nonempty eq_refl eq_refl unit_metrics_range).
Defined.

Lemma min_max_intercept_based_fit_witness :
  let self := min_max_plain true in
  let metrics := [("x", [0; 1])] in
  rounding self = false
  /\ intercept_based self = true
  /\ scaling_method self = Some "min_max"
  /\ scaling_method_params self
     = Some (min_max_params (PyNum (fin 0)) (PyNum (fin 100)))
  /\ 0 <= 100
  /\ "binary" ∈ ["binary"; "continuous"]
  /\ (length metrics <= length [1])%nat
  /\ List.NoDup (map fst metrics)
  /\ Forall (fun vt => vt.2 <> []) metrics
  /\ default (fin 0) None = fin 0
  /\ Rsum (map Rmin_list (map snd (weighted metrics [1])))
     <> Rsum (map Rmax_list (map snd (weighted metrics [1])))
  /\ exists df_scorecard : list row,
       @_fit failing_mip self (fin 7) "binary" (real_variables metrics)
         (Some (map fin [1])) None
       = Ok {| _df_scorecard := df_scorecard; intercept_ := fin 0 |}
       /\ Forall (fun r => exists x, Points r = fin x /\ 0 <= x) df_scorecard.
Proof.
  assert (H4 : 0 <= 100) by lra.
  assert (H5 : "binary" ∈ ["binary"; "continuous"]) by apply list_elem_of_here.
  assert (H6 : (length [("x", [0; 1])] <= length [1])%nat) by apply le_n.
  split; [reflexivity|]. split; [reflexivity|]. split; [reflexivity|].
  split; [reflexivity|].
  split; [exact H4|]. split; [exact H5|]. split; [exact H6|].
  split; [exact unit_metrics_names|]. split; [exact unit_metrics_nonempty|].
  split; [reflexivity|]. split; [exact unit_metrics_range|].
  exact (@min_max_intercept_based_fit failing_mip (min_max_plain true)
           (fin 7) "binary" [("x", [0; 1])] [1] None 0 100 0
           eq_refl eq_refl eq_refl eq_refl H4 H5 H6 unit_metrics_names
           unit_metrics_nonempty eq_refl unit_metrics_range).
Defined.

Lemma raw_fit_ignores_estimator_intercept_witness :
  scaling_method raw_intercept_based = None
  /\ @_fit failing_mip raw_intercept_based new_intercept_ "binary"
       [("x", [fin 1; fin 3])] (Some [fin 1]) None
     = @_fit failing_mip raw_intercept_based new_intercept_ "binary"
         [("x", [fin 1; fin 3])] (Some [fin 1]) (Some (fin 7)).
Proof.
  split; [reflexivity|].
  exact (@raw_fit_ignores_estimator_intercept failing_mip raw_intercept_based
           new_intercept_ "binary" [("x", [fin 1; fin 3])] (Some [fin 1]) None
           (Some (fin 7)) eq_refl).
Defined.

(** One variable with raw points 1 and 3: with [intercept_based] set and no
    scaling method the fitted scorecard holds the raw points, the smallest
    being 1, and [intercept_] is still the 0 of a new object. *)
Lemma raw_metrics_names : List.NoDup (map fst [("x", [1; 3])]).
Proof.
  cbn [map fst]. apply List.NoDup_cons; [intros [] | apply List.NoDup_nil].
Qed.

Lemma raw_metrics_nonempty :
  Forall (fun vt : string * list R => vt.2 <> []) [("x", [1; 3])].
Proof. apply List.Forall_cons; [discriminate | apply List.Forall_nil]. Qed.

Lemma intercept_based_needs_scaling_witness :
  let metrics := [("x", [1; 3])] in
  scaling_method raw_intercept_based = None
  /\ rounding raw_intercept_based = false
  /\ "binary" ∈ ["binary"; "continuous"]
  /\ metrics <> []
  /\ (length metrics <= length [1])%nat
  /\ List.NoDup (map fst metrics)
  /\ Forall (fun vt => vt.2 <> []) metrics
  /\ exists f : fitted,
       @_fit failing_mip raw_intercept_based new_intercept_ "binary"
         (real_variables metrics) (Some (map fin [1])) None = Ok f
       /\ intercept_ f = new_intercept_
       /\ _df_scorecard f = real_df (stacked (weighted metrics [1]))
       /\ forall vt, vt ∈ weighted metrics [1] ->
            min (group (_df_scorecard f) vt.1) = Ok (fin (Rmin_list vt.2)).
Proof.
  assert (H3 : "binary" ∈ ["binary"; "continuous"]) by apply list_elem_of_here.
  assert (H4 : [("x", [1; 3])] <> []) by discriminate.
  assert (H5 : (length [("x", [1; 3])] <= length [1])%nat) by apply le_n.
  split; [reflexivity|]. split; [reflexivity|]. split; [exact H3|].
  split; [exact H4|]. split; [exact H5|].
  split; [exact raw_metrics_names|]. split; [exact raw_metrics_nonempty|].
  exact (@intercept_based_needs_scaling failing_mip raw_intercept_based
           new_intercept_ "binary" [("x", [1; 3])] [1] None
           eq_refl eq_refl H3 H4 H5 raw_metrics_names raw_metrics_nonempty).
Defined.

Lemma second_bin_indices_ok :
  Forall (indices_ok (real_df [("x", 1); ("x", 3)]) (one_sample "x" 1)) ["x"].
Proof.
  apply List.Forall_cons; [|apply List.Forall_nil].
  exists [1%Z]. split; [apply lookup_singleton_eq|].
  apply List.Forall_cons; [|apply List.Forall_nil].
  unfold index_ok. change (length (group _ _)) with 2%nat. lia.
Qed.

Lemma score_returns_witness :
  let f := {| _df_scorecard := real_df [("x", 1); ("x", 3)];
              intercept_ := fin 10 |} in
  frame_wf (one_sample "x" 1)
  /\ Forall (indices_ok (_df_scorecard f) (one_sample "x" 1)) ["x"]
  /\ exists out,
       score (Some f) ["x"] (one_sample "x" 1) = Returned out
       /\ length out = shape0 (one_sample "x" 1).
Proof.
  split; [apply one_sample_wf|]. split; [exact second_bin_indices_ok|].
  exact (score_returns
           {| _df_scorecard := real_df [("x", 1); ("x", 3)];
              intercept_ := fin 10 |} ["x"] (one_sample "x" 1)
           (one_sample_wf "x" 1) second_bin_indices_ok).
Defined.

Lemma third_bin_missing :
  ~ Forall (indices_ok (real_df [("x", 1); ("x", 3)]) (one_sample "x" 2)) ["x"].
Proof.
  intros Hall. apply Forall_cons in Hall as [(column & Hcol & Hok) _].
  unfold one_sample in Hcol. cbn [columns] in Hcol.
  rewrite lookup_singleton_eq in Hcol. injection Hcol as <-.
  apply Forall_cons in Hok as [Hok _]. unfold index_ok in Hok.
  change (length (group _ _)) with 2%nat in Hok. lia.
Qed.

Lemma score_index_error_witness :
  let f := {| _df_scorecard := real_df [("x", 1); ("x", 3)];
              intercept_ := fin 10 |} in
  frame_wf (one_sample "x" 2)
  /\ Forall (fun v => is_Some (columns (one_sample "x" 2) !! v)) ["x"]
  /\ ~ Forall (indices_ok (_df_scorecard f) (one_sample "x" 2)) ["x"]
  /\ score (Some f) ["x"] (one_sample "x" 2) = Failed IndexError.
Proof.
  assert (H2 : Forall (fun v => is_Some (columns (one_sample "x" 2) !! v))
                 ["x"]).
  { apply List.Forall_cons; [|apply List.Forall_nil].
    exists [2%Z]. apply lookup_singleton_eq. }
  split; [apply one_sample_wf|]. split; [exact H2|].
  split; [exact third_bin_missing|].
  exact (score_index_error
           {| _df_scorecard := real_df [("x", 1); ("x", 3)];
              intercept_ := fin 10 |} ["x"] (one_sample "x" 2)
           (one_sample_wf "x" 2) H2 third_bin_missing).
Defined.

Lemma score_of_sample_witness :
  let t := [("x", 1); ("x", 3)] in
  frame_wf (one_sample "x" 1)
  /\ score (Some {| _df_scorecard := real_df t; intercept_ := fin 10 |}) ["x"]
       (one_sample "x" 1)
     = Returned [fin (0 + 3 + 10)]
  /\ (0 < shape0 (one_sample "x" 1))%nat
  /\ exists ps,
       Forall2 (fun v p => sample_points t (one_sample "x" 1) 0 v = Some p)
         ["x"] ps
       /\ [fin (0 + 3 + 10)] !! 0%nat = Some (fin (Rsum ps + 10)).
Proof.
  assert (H3 : (0 < shape0 (one_sample "x" 1))%nat) by apply le_n.
  split; [apply one_sample_wf|]. split; [exact second_bin_score|].
  split; [exact H3|].
  exact (score_of_sample [("x", 1); ("x", 3)] 10 ["x"] (one_sample "x" 1) _
           (one_sample_wf "x" 1) second_bin_score 0%nat H3).
Defined.

Lemma scorecard_columns_distinct :
  NoDup ["Variable"; "Bin id"; "Bin"; "Count"; "Points"].
Proof.
  repeat (apply NoDup_cons; split; [not_in_list|]). apply NoDup_nil_2.
Qed.

Lemma table_detailed_reorders_witness :
  let f := {| _df_scorecard := real_df [("x", 1)]; intercept_ := fin 0 |} in
  let df_columns := ["Variable"; "Bin id"; "Bin"; "Count"; "Points"] in
  NoDup df_columns
  /\ "Variable" ∈ df_columns /\ "Bin id" ∈ df_columns /\ "Bin" ∈ df_columns
  /\ exists rest_columns,
       table (Some f) df_columns "detailed"
       = Returned (["Variable"; "Bin id"; "Bin"] ++ rest_columns)%list
       /\ (["Variable"; "Bin id"; "Bin"] ++ rest_columns)%list ≡ₚ df_columns
       /\ rest_columns `sublist_of` df_columns.
Proof.
  assert (H2 : "Variable" ∈ ["Variable"; "Bin id"; "Bin"; "Count"; "Points"])
    by apply list_elem_of_here.
  assert (H3 : "Bin id" ∈ ["Variable"; "Bin id"; "Bin"; "Count"; "Points"])
    by apply list_elem_of_further, list_elem_of_here.
  assert (H4 : "Bin" ∈ ["Variable"; "Bin id"; "Bin"; "Count"; "Points"])
    by apply list_elem_of_further, list_elem_of_further, list_elem_of_here.
  split; [exact scorecard_columns_distinct|]. split; [exact H2|].
  split; [exact H3|]. split; [exact H4|].
  exact (table_detailed_reorders
           {| _df_scorecard := real_df [("x", 1)]; intercept_ := fin 0 |}
           ["Variable"; "Bin id"; "Bin"; "Count"; "Points"]
           scorecard_columns_distinct H2 H3 H4).
Defined.

End further_concrete.

(** ** Rounding of the arithmetic *)

Section binary64.
Import PrimFloat.
Local Open Scope float_scope.

(** C10, as stated, fails in binary64 arithmetic: one variable with raw
    points 0, the smallest positive double and 1, scaled onto the range from
    0 to 100 with a zero intercept, so that [min < max] and [smin < smax].
    The two smallest raw points differ and both get 100 points: the order is
    kept, but not strictly. *)
Lemma scaled_points_tie_in_binary64 :
  let points := [0; 0x1p-1074; 1] in
  (0 <? 0x1p-1074) = true
  /\ (0 <? 100) = true
  /\ (0 + Binary64.sum [Binary64.Series_min points]
      <? 0 + Binary64.sum [Binary64.Series_max points]) = true
  /\ Binary64.min_max_points points [points] 0 100 0 false = [100; 100; 0].
Proof. split; [reflexivity|]. split; [reflexivity|]. split; reflexivity. Qed.

End binary64.
